(** * SuperParallax: a shallow embedding of the 2D and 3D parallax controllers

    The development follows [src/super-parallax.js] (class [SuperParallax]) and
    [src/super-parallax-3d.js] (class [SuperParallax3D]).

    - JavaScript numbers are modelled as exact rationals ([Q]): every
      arithmetic expression of the source is transcribed operator by operator,
      and the non-finite values are outside the model.  What depends on the
      rounding of doubles is stated over [Rounded], the tick with the rounding
      of every operation written out, and over [Binary64], the smoothing step
      on the doubles themselves.
    - The browser (DOM styles, listeners, the animation-frame scheduler, the
      console) and the Three.js object graph are explicit stores that every
      method threads through; objects shared by reference (DOM elements,
      meshes) are addressed by identifiers into those stores.
    - A method of the class is a function on [(this, browser)] states. *)

From Stdlib Require Import QArith Qabs Qround Qpower Lqa.
From Stdlib Require PrimFloat FloatOps FloatAxioms SpecFloat.
From stdpp Require Import base option list gmap strings.

Set Warnings "-inexact-float".

(** ** JavaScript values used by the controllers *)

Module Js.
Local Open Scope Q_scope.

(** Truthiness of a number: [0] is falsy (so is NaN, see [parsed]). *)
Definition truthy (q : Q) : bool := negb (Qeq_bool q 0).

(** [a || b] on numbers. *)
Definition or_num (a b : Q) : Q := if truthy a then a else b.

(** Truthiness of a string: only the empty string is falsy. *)
Definition truthy_str (s : string) : bool := negb (String.eqb s "").

(** [a || b] on strings. *)
Definition or_str (a b : string) : string := if truthy_str a then a else b.

(** The result of [parseFloat]: NaN or a number. *)
Inductive parsed := NaN | Num (q : Q).

(** [parseFloat(...) || d]: NaN and [0] both fall through to [d]. *)
Definition or_default (v : parsed) (d : Q) : Q :=
  match v with
  | NaN => d
  | Num q => if truthy q then q else d
  end.

(** [a / b] where it is a finite number: a zero divisor gives NaN or an
    infinity in JavaScript, which is [None] here. *)
Definition div (a b : Q) : option Q :=
  if Qeq_bool b 0 then None else Some (a / b).

(** A thrown [Error] with its message. *)
Inductive exn := Error (msg : string).
End Js.

(** ** The browser *)

Module Dom.
Import Js.

Definition Element := nat.

(** The text of an attribute as [parseFloat] reads it: a numeral, or text that
    does not start with one. *)
Inductive AttrNum := NotNumeric | Numeral (q : Q).

(** An [img] element: [src], [naturalWidth] and [naturalHeight]. *)
Record Image := { src : string; naturalWidth : Q; naturalHeight : Q }.

(** The [data-parallax-*] attributes of an element; [None] is an attribute
    that is not set ([getAttribute] returns [null]).  [img] is the result of
    [element.querySelector('img')]. *)
Record Markup := {
  data_parallax_depth : option AttrNum;
  data_parallax_scroll : option AttrNum;
  data_parallax_mouse : option AttrNum;
  data_parallax_axis : option string;
  img : option Image
}.

(** [parseFloat(element.getAttribute(name))]: [parseFloat(null)] is NaN. *)
Definition parseFloat (a : option AttrNum) : parsed :=
  match a with
  | Some (Numeral q) => Num q
  | Some NotNumeric => NaN
  | None => NaN
  end.

(** A value of [element.style.transform]: verbatim text, the template
    [translate3d(${x}px, ${y}px, 0)], or that template after an initial
    transform and a space. *)
Inductive css :=
| Verbatim (s : string)
| Translate3d (x y : Q)
| After (initial : string) (x y : Q).

Record Rect := { rect_left : Q; rect_top : Q; rect_width : Q; rect_height : Q }.

Inductive EventTarget := TheWindow | Node (e : Element).

(** A registration made by [addEventListener]: target, event type and the
    bound method used as callback. *)
Record Listener := { target : EventTarget; type : string; callback : string }.

#[global] Instance EventTarget_eq_dec : EqDecision EventTarget.
Proof. solve_decision. Defined.

#[global] Instance Listener_eq_dec : EqDecision Listener.
Proof. solve_decision. Defined.

(** What the page answers when it is asked: these are read, never written,
    by the controllers.  [THREE_defined] is [typeof THREE !== 'undefined'];
    [webgl_available] tells whether [new THREE.WebGLRenderer] can create its
    WebGL context (Three.js, which is not part of this repository, throws
    from that constructor when it cannot). *)
Record Document := {
  querySelector : string -> option Element;
  querySelectorAll : Element -> list Element;
  markup : Element -> Markup;
  getComputedTransform : Element -> css -> string;
  getBoundingClientRect : Element -> Rect;
  clientWidth : Element -> Q;
  clientHeight : Element -> Q;
  devicePixelRatio : Q;
  THREE_defined : bool;
  webgl_available : bool
}.

Record Browser := {
  document : Document;
  pageYOffset : Q;
  scrollTop : Q;
  style_transform : gmap Element css;
  style_position : gmap Element string;
  style_overflow : gmap Element string;
  style_visibility : gmap Element string;
  appended : list (Element * Element);
  listeners : list Listener;
  frames : gset positive;
  nextFrame : positive;
  warnings : list string
}.

Definition set_style_transform (f : gmap Element css -> gmap Element css) (b : Browser) : Browser :=
  {| document := document b; pageYOffset := pageYOffset b; scrollTop := scrollTop b;
     style_transform := f (style_transform b); style_position := style_position b;
     style_overflow := style_overflow b; style_visibility := style_visibility b;
     appended := appended b; listeners := listeners b; frames := frames b;
     nextFrame := nextFrame b; warnings := warnings b |}.

Definition set_style_position (f : gmap Element string -> gmap Element string) (b : Browser) : Browser :=
  {| document := document b; pageYOffset := pageYOffset b; scrollTop := scrollTop b;
     style_transform := style_transform b; style_position := f (style_position b);
     style_overflow := style_overflow b; style_visibility := style_visibility b;
     appended := appended b; listeners := listeners b; frames := frames b;
     nextFrame := nextFrame b; warnings := warnings b |}.

Definition set_style_overflow (f : gmap Element string -> gmap Element string) (b : Browser) : Browser :=
  {| document := document b; pageYOffset := pageYOffset b; scrollTop := scrollTop b;
     style_transform := style_transform b; style_position := style_position b;
     style_overflow := f (style_overflow b); style_visibility := style_visibility b;
     appended := appended b; listeners := listeners b; frames := frames b;
     nextFrame := nextFrame b; warnings := warnings b |}.

Definition set_style_visibility (f : gmap Element string -> gmap Element string) (b : Browser) : Browser :=
  {| document := document b; pageYOffset := pageYOffset b; scrollTop := scrollTop b;
     style_transform := style_transform b; style_position := style_position b;
     style_overflow := style_overflow b; style_visibility := f (style_visibility b);
     appended := appended b; listeners := listeners b; frames := frames b;
     nextFrame := nextFrame b; warnings := warnings b |}.

Definition set_appended (f : list (Element * Element) -> list (Element * Element)) (b : Browser) : Browser :=
  {| document := document b; pageYOffset := pageYOffset b; scrollTop := scrollTop b;
     style_transform := style_transform b; style_position := style_position b;
     style_overflow := style_overflow b; style_visibility := style_visibility b;
     appended := f (appended b); listeners := listeners b; frames := frames b;
     nextFrame := nextFrame b; warnings := warnings b |}.

Definition set_listeners (f : list Listener -> list Listener) (b : Browser) : Browser :=
  {| document := document b; pageYOffset := pageYOffset b; scrollTop := scrollTop b;
     style_transform := style_transform b; style_position := style_position b;
     style_overflow := style_overflow b; style_visibility := style_visibility b;
     appended := appended b; listeners := f (listeners b); frames := frames b;
     nextFrame := nextFrame b; warnings := warnings b |}.

Definition set_frames (f : gset positive -> gset positive) (n : positive -> positive) (b : Browser) : Browser :=
  {| document := document b; pageYOffset := pageYOffset b; scrollTop := scrollTop b;
     style_transform := style_transform b; style_position := style_position b;
     style_overflow := style_overflow b; style_visibility := style_visibility b;
     appended := appended b; listeners := listeners b; frames := f (frames b);
     nextFrame := n (nextFrame b); warnings := warnings b |}.

Definition set_warnings (f : list string -> list string) (b : Browser) : Browser :=
  {| document := document b; pageYOffset := pageYOffset b; scrollTop := scrollTop b;
     style_transform := style_transform b; style_position := style_position b;
     style_overflow := style_overflow b; style_visibility := style_visibility b;
     appended := appended b; listeners := listeners b; frames := frames b;
     nextFrame := nextFrame b; warnings := f (warnings b) |}.

(** [element.style.transform], [''] when never written. *)
Definition transform_of (b : Browser) (el : Element) : css :=
  default (Verbatim "") (style_transform b !! el).

(** [window.getComputedStyle(element).transform]. *)
Definition computed_transform (b : Browser) (el : Element) : string :=
  getComputedTransform (document b) el (transform_of b el).

(** [window.pageYOffset || document.documentElement.scrollTop]. *)
Definition scroll_position (b : Browser) : Q := or_num (pageYOffset b) (scrollTop b).

(** [target.addEventListener(type, callback)]: a registration that is already
    there is not added again. *)
Definition addEventListener (l : Listener) (b : Browser) : Browser :=
  set_listeners (fun ls => if bool_decide (l ∈ ls) then ls else ls ++ [l]) b.

(** [target.removeEventListener(type, callback)]. *)
Definition removeEventListener (l : Listener) (b : Browser) : Browser :=
  set_listeners (fun ls => filter (fun l' => l' ≠ l) ls) b.

(** [requestAnimationFrame(callback)]: the handle is a fresh positive
    integer, so it is always truthy. *)
Definition requestAnimationFrame (b : Browser) : positive * Browser :=
  (nextFrame b, set_frames (fun fs => {[nextFrame b]} ∪ fs) Pos.succ b).

(** [cancelAnimationFrame(id)]. *)
Definition cancelAnimationFrame (id : positive) (b : Browser) : Browser :=
  set_frames (fun fs => fs ∖ {[id]}) (fun n => n) b.

(** [console.warn(msg)]. *)
Definition console_warn (msg : string) (b : Browser) : Browser :=
  set_warnings (fun ws => ws ++ [msg]) b.

(** The exception [removeChild] throws for a node that is not a child. *)
Inductive DOMException := NotFoundError.

(** How a constructor receives its container: a selector string, or a value
    that is not a string (an element, or a falsy value such as [null]). *)
Inductive ContainerArg := Selector (s : string) | Ref (e : option Element).

(** [typeof container === 'string' ? document.querySelector(container) : container] *)
Definition resolve (b : Browser) (c : ContainerArg) : option Element :=
  match c with
  | Selector s => querySelector (document b) s
  | Ref e => e
  end.
End Dom.

(** ** The 2D controller: class [SuperParallax] *)

Module SuperParallax.
Import Js Dom.
Local Open Scope Q_scope.

Record Options := {
  scrollMultiplier : Q;
  mouseMultiplier : Q;
  smoothing : Q;
  centerMouse : bool;
  resetOnMouseLeave : bool
}.

(** An options object as a caller passes it: any key may be missing. *)
Record PartialOptions := {
  opt_scrollMultiplier : option Q;
  opt_mouseMultiplier : option Q;
  opt_smoothing : option Q;
  opt_centerMouse : option bool;
  opt_resetOnMouseLeave : option bool
}.

Definition no_options : PartialOptions :=
  {| opt_scrollMultiplier := None; opt_mouseMultiplier := None; opt_smoothing := None;
     opt_centerMouse := None; opt_resetOnMouseLeave := None |}.

Definition default_options : Options :=
  {| scrollMultiplier := 1; mouseMultiplier := 1 # 2; smoothing := 1 # 10;
     centerMouse := true; resetOnMouseLeave := true |}.

(** [{ ...o, ...p }] *)
Definition spread (o : Options) (p : PartialOptions) : Options :=
  {| scrollMultiplier := default (scrollMultiplier o) (opt_scrollMultiplier p);
     mouseMultiplier := default (mouseMultiplier o) (opt_mouseMultiplier p);
     smoothing := default (smoothing o) (opt_smoothing p);
     centerMouse := default (centerMouse o) (opt_centerMouse p);
     resetOnMouseLeave := default (resetOnMouseLeave o) (opt_resetOnMouseLeave p) |}.

Record Layer := {
  element : Element;
  depth : Q;
  scrollSpeed : Q;
  mouseSpeed : Q;
  axis : string;
  initialTransform : string
}.

Record Point := { x : Q; y : Q }.

(** The fields of [this]. *)
Record t := {
  container : Element;
  options : Options;
  layers : list Layer;
  mouse : Point;
  targetMouse : Point;
  scroll : Q;
  targetScroll : Q;
  bounds : option Rect;
  animationFrameId : option positive;
  isActive : bool
}.

Definition State : Type := t * Browser.

Definition set_options (v : Options) (c : t) : t :=
  {| container := container c; options := v; layers := layers c; mouse := mouse c;
     targetMouse := targetMouse c; scroll := scroll c; targetScroll := targetScroll c;
     bounds := bounds c; animationFrameId := animationFrameId c; isActive := isActive c |}.

Definition set_layers (v : list Layer) (c : t) : t :=
  {| container := container c; options := options c; layers := v; mouse := mouse c;
     targetMouse := targetMouse c; scroll := scroll c; targetScroll := targetScroll c;
     bounds := bounds c; animationFrameId := animationFrameId c; isActive := isActive c |}.

Definition set_mouse (v : Point) (c : t) : t :=
  {| container := container c; options := options c; layers := layers c; mouse := v;
     targetMouse := targetMouse c; scroll := scroll c; targetScroll := targetScroll c;
     bounds := bounds c; animationFrameId := animationFrameId c; isActive := isActive c |}.

Definition set_targetMouse (v : Point) (c : t) : t :=
  {| container := container c; options := options c; layers := layers c; mouse := mouse c;
     targetMouse := v; scroll := scroll c; targetScroll := targetScroll c;
     bounds := bounds c; animationFrameId := animationFrameId c; isActive := isActive c |}.

Definition set_scroll (v : Q) (c : t) : t :=
  {| container := container c; options := options c; layers := layers c; mouse := mouse c;
     targetMouse := targetMouse c; scroll := v; targetScroll := targetScroll c;
     bounds := bounds c; animationFrameId := animationFrameId c; isActive := isActive c |}.

Definition set_targetScroll (v : Q) (c : t) : t :=
  {| container := container c; options := options c; layers := layers c; mouse := mouse c;
     targetMouse := targetMouse c; scroll := scroll c; targetScroll := v;
     bounds := bounds c; animationFrameId := animationFrameId c; isActive := isActive c |}.

Definition set_bounds (v : option Rect) (c : t) : t :=
  {| container := container c; options := options c; layers := layers c; mouse := mouse c;
     targetMouse := targetMouse c; scroll := scroll c; targetScroll := targetScroll c;
     bounds := v; animationFrameId := animationFrameId c; isActive := isActive c |}.

Definition set_animationFrameId (v : option positive) (c : t) : t :=
  {| container := container c; options := options c; layers := layers c; mouse := mouse c;
     targetMouse := targetMouse c; scroll := scroll c; targetScroll := targetScroll c;
     bounds := bounds c; animationFrameId := v; isActive := isActive c |}.

Definition set_isActive (v : bool) (c : t) : t :=
  {| container := container c; options := options c; layers := layers c; mouse := mouse c;
     targetMouse := targetMouse c; scroll := scroll c; targetScroll := targetScroll c;
     bounds := bounds c; animationFrameId := animationFrameId c; isActive := v |}.

(** [getInitialTransform(element)] *)
Definition getInitialTransform (b : Browser) (el : Element) : string :=
  let transform := computed_transform b el in
  if truthy_str transform && negb (String.eqb transform "none")
  then transform
  else "".

(** The four registrations of [addEventListeners]. *)
Definition on_scroll : Listener :=
  {| target := TheWindow; type := "scroll"; callback := "handleScroll" |}.
Definition on_mousemove (c : t) : Listener :=
  {| target := Node (container c); type := "mousemove"; callback := "handleMouseMove" |}.
Definition on_mouseleave (c : t) : Listener :=
  {| target := Node (container c); type := "mouseleave"; callback := "handleMouseLeave" |}.
Definition on_resize : Listener :=
  {| target := TheWindow; type := "resize"; callback := "updateBounds" |}.

(** [addEventListeners()] *)
Definition addEventListeners (s : State) : State :=
  let '(this, b) := s in
  let b := addEventListener on_scroll b in
  let b := addEventListener (on_mousemove this) b in
  let b := if resetOnMouseLeave (options this)
           then addEventListener (on_mouseleave this) b
           else b in
  (this, addEventListener on_resize b).

(** [removeEventListeners()] *)
Definition removeEventListeners (s : State) : State :=
  let '(this, b) := s in
  let b := removeEventListener on_scroll b in
  let b := removeEventListener (on_mousemove this) b in
  let b := removeEventListener (on_mouseleave this) b in
  (this, removeEventListener on_resize b).

(** [updateBounds()] *)
Definition updateBounds (s : State) : State :=
  let '(this, b) := s in
  (set_bounds (Some (getBoundingClientRect (document b) (container this))) this, b).

(** [handleScroll()] *)
Definition handleScroll (s : State) : State :=
  let '(this, b) := s in
  (set_targetScroll (scroll_position b) this, b).

(** A [mousemove] event: [clientX] and [clientY]. *)
Record MouseEvent := { clientX : Q; clientY : Q }.

(** [handleMouseMove(event)]; the result is [None] when a division by a
    zero width or height leaves the numbers of the model. *)
Definition handleMouseMove (event : MouseEvent) (s : State) : option State :=
  let '(this, b) := match bounds (fst s) with Some _ => s | None => updateBounds s end in
  match bounds this with
  | None => None
  | Some r =>
      if centerMouse (options this)
      then
        match div (clientX event - rect_left r) (rect_width r),
              div (clientY event - rect_top r) (rect_height r) with
        | Some u, Some v =>
            Some (set_targetMouse {| x := (u - (1 # 2)) * 2; y := (v - (1 # 2)) * 2 |} this, b)
        | _, _ => None
        end
      else
        Some (set_targetMouse {| x := clientX event - rect_left r;
                                 y := clientY event - rect_top r |} this, b)
  end.

(** [handleMouseLeave()] *)
Definition handleMouseLeave (s : State) : State :=
  let '(this, b) := s in
  (set_targetMouse {| x := 0; y := 0 |} this, b).

(** [lerp(start, end, factor)] *)
Definition lerp (start end_ factor : Q) : Q :=
  start + (end_ - start) * factor.

(** The body of the [forEach] of [animate]: the value written to
    [layer.element.style.transform]. *)
Definition layerTransform (this : t) (layer : Layer) : css :=
  let scrollOffset := scroll this * scrollSpeed layer * scrollMultiplier (options this) * (1 # 2) in
  let mouseOffsetX := x (mouse this) * mouseSpeed layer * mouseMultiplier (options this) * 50 in
  let mouseOffsetY := y (mouse this) * mouseSpeed layer * mouseMultiplier (options this) * 50 in
  let translateX := 0 in
  let translateY := 0 in
  let translateX :=
    if String.eqb (axis layer) "both" || String.eqb (axis layer) "x"
    then mouseOffsetX
    else translateX in
  let translateY :=
    if String.eqb (axis layer) "both" || String.eqb (axis layer) "y"
    then - scrollOffset + mouseOffsetY
    else if String.eqb (axis layer) "x"
    then - scrollOffset
    else translateY in
  if truthy_str (initialTransform layer)
  then After (initialTransform layer) translateX translateY
  else Translate3d translateX translateY.

(** [animate()] *)
Definition animate (s : State) : State :=
  let '(this, b) := s in
  if negb (isActive this) then s else
  let this := set_scroll (lerp (scroll this) (targetScroll this) (smoothing (options this))) this in
  let this :=
    set_mouse {| x := lerp (x (mouse this)) (x (targetMouse this)) (smoothing (options this));
                 y := y (mouse this) |} this in
  let this :=
    set_mouse {| x := x (mouse this);
                 y := lerp (y (mouse this)) (y (targetMouse this)) (smoothing (options this)) |} this in
  let b :=
    foldl (fun b layer =>
             set_style_transform (insert (element layer) (layerTransform this layer)) b)
          b (layers this) in
  let '(id, b) := requestAnimationFrame b in
  (set_animationFrameId (Some id) this, b).

(** [start()] *)
Definition start (s : State) : State :=
  let '(this, b) := s in
  if isActive this then s else
  let this := set_isActive true this in
  let this := set_targetScroll (scroll_position b) this in
  let this := set_scroll (targetScroll this) this in
  animate (this, b).

(** [stop()] *)
Definition stop (s : State) : State :=
  let '(this, b) := s in
  let this := set_isActive false this in
  match animationFrameId this with
  | Some id => (set_animationFrameId None this, cancelAnimationFrame id b)
  | None => (this, b)
  end.

(** The body of the [forEach] of [destroy]. *)
Definition resetTransform (b : Browser) (layer : Layer) : Browser :=
  if truthy_str (initialTransform layer)
  then set_style_transform (insert (element layer) (Verbatim (initialTransform layer))) b
  else set_style_transform (insert (element layer) (Verbatim "")) b.

(** [destroy()] *)
Definition destroy (s : State) : State :=
  let s := stop s in
  let '(this, b) := removeEventListeners s in
  let b := foldl resetTransform b (layers this) in
  (set_layers [] this, b).

(** [addLayer(element, depth = 1, scrollSpeed = depth, mouseSpeed = depth)]:
    an argument that is [None] is omitted ([undefined]) and takes its
    default.  The result is the layer object that was pushed. *)
Definition addLayer (el : Element) (depth_arg scrollSpeed_arg mouseSpeed_arg : option Q)
    (s : State) : Layer * State :=
  let '(this, b) := s in
  let depth := default 1 depth_arg in
  let scrollSpeed := default depth scrollSpeed_arg in
  let mouseSpeed := default depth mouseSpeed_arg in
  let layer :=
    {| element := el; depth := depth; scrollSpeed := scrollSpeed; mouseSpeed := mouseSpeed;
       axis := "both"; initialTransform := getInitialTransform b el |} in
  (layer, (set_layers (layers this ++ [layer]) this, b)).

(** What a caller may pass to [removeLayer]: a DOM element, or the layer
    object that [addLayer] returned. *)
Inductive Value := VElement (e : Element) | VLayer (l : Layer).

(** [layer.element === v] *)
Definition strict_eq (e : Element) (v : Value) : bool :=
  match v with
  | VElement e' => Nat.eqb e e'
  | VLayer _ => false
  end.

(** [Array.prototype.findIndex]: the first index whose item satisfies the
    predicate, [-1] when there is none. *)
Fixpoint findIndex {A} (p : A -> bool) (l : list A) : Z :=
  match l with
  | [] => (-1)%Z
  | a :: l' =>
      if p a then 0%Z
      else let i := findIndex p l' in
           if (i =? -1)%Z then (-1)%Z else (i + 1)%Z
  end.

(** [array.splice(index, 1)] for an index that is in range. *)
Definition splice1 {A} (index : Z) (l : list A) : list A :=
  delete (Z.to_nat index) l.

(** [removeLayer(element)] *)
Definition removeLayer (v : Value) (s : State) : State :=
  let '(this, b) := s in
  let index := findIndex (fun layer => strict_eq (element layer) v) (layers this) in
  if negb (index =? -1)%Z
  then (set_layers (splice1 index (layers this)) this, b)
  else s.

(** [setOptions(newOptions)] *)
Definition setOptions (newOptions : PartialOptions) (s : State) : State :=
  let '(this, b) := s in
  (set_options (spread (options this) newOptions) this, b).

(** One discovered element turned into a layer: the callback of the [map]
    in [init]. *)
Definition discover (b : Browser) (el : Element) : Layer :=
  let depth := or_default (parseFloat (data_parallax_depth (markup (document b) el))) 1 in
  let scrollSpeed := or_default (parseFloat (data_parallax_scroll (markup (document b) el))) depth in
  let mouseSpeed := or_default (parseFloat (data_parallax_mouse (markup (document b) el))) depth in
  let axis := or_str (default "" (data_parallax_axis (markup (document b) el))) "both" in
  {| element := el; depth := depth; scrollSpeed := scrollSpeed; mouseSpeed := mouseSpeed;
     axis := axis; initialTransform := getInitialTransform b el |}.

(** [init()] *)
Definition init (s : State) : State :=
  let '(this, b) := s in
  let this := set_layers (map (discover b) (querySelectorAll (document b) (container this))) this in
  let b :=
    if (length (layers this) =? 0)%nat
    then console_warn "No parallax layers found. Add data-parallax-layer attribute to elements." b
    else b in
  let b :=
    set_style_position
      (insert (container this) (or_str (default "" (style_position b !! container this)) "relative")) b in
  let b :=
    set_style_overflow
      (insert (container this) (or_str (default "" (style_overflow b !! container this)) "hidden")) b in
  start (addEventListeners (updateBounds (this, b))).

(** [new SuperParallax(container, options)] *)
Definition new (container_arg : ContainerArg) (options_arg : PartialOptions) (b : Browser)
    : exn + State :=
  match resolve b container_arg with
  | None => inl (Error "Container element not found")
  | Some container =>
      let this :=
        {| container := container;
           options := spread default_options options_arg;
           layers := [];
           mouse := {| x := 0; y := 0 |};
           targetMouse := {| x := 0; y := 0 |};
           scroll := 0;
           targetScroll := 0;
           bounds := None;
           animationFrameId := None;
           isActive := false |} in
      inr (init (this, b))
  end.

(** The browser runs a frame that is still pending: the handle leaves the
    pending set and the callback, [animate], is called. *)
Definition frame (id : positive) (s : State) : State :=
  let '(this, b) := s in
  if bool_decide (id ∈ frames b)
  then animate (this, cancelAnimationFrame id b)
  else s.

(** The page scrolls: the browser's scroll position changes. *)
Definition scrolled (top : Q) (s : State) : State :=
  let '(this, b) := s in
  (this,
   {| document := document b; pageYOffset := top; scrollTop := top;
      style_transform := style_transform b; style_position := style_position b;
      style_overflow := style_overflow b; style_visibility := style_visibility b;
      appended := appended b; listeners := listeners b; frames := frames b;
      nextFrame := nextFrame b; warnings := warnings b |}).

(** The states a controller goes through: it is constructed on a page where
    no frame is pending, then its methods are called, events arrive and
    pending frames run, in any order. *)
Inductive reachable : State -> Prop :=
| reach_new c o b s :
    frames b = ∅ -> new c o b = inr s -> reachable s
| reach_start s : reachable s -> reachable (start s)
| reach_stop s : reachable s -> reachable (stop s)
| reach_destroy s : reachable s -> reachable (destroy s)
| reach_addLayer s el d ss ms : reachable s -> reachable (snd (addLayer el d ss ms s))
| reach_removeLayer s v : reachable s -> reachable (removeLayer v s)
| reach_setOptions s o : reachable s -> reachable (setOptions o s)
| reach_updateBounds s : reachable s -> reachable (updateBounds s)
| reach_scrolled s top : reachable s -> reachable (scrolled top s)
| reach_handleScroll s : reachable s -> reachable (handleScroll s)
| reach_handleMouseMove s e s' :
    reachable s -> handleMouseMove e s = Some s' -> reachable s'
| reach_handleMouseLeave s : reachable s -> reachable (handleMouseLeave s)
| reach_frame s id : reachable s -> reachable (frame id s).
End SuperParallax.

(** ** The 3D controller: class [SuperParallax3D] *)

Module SuperParallax3D.
Import Js Dom.
Local Open Scope Q_scope.

Record Options := {
  scrollMultiplier : Q;
  mouseMultiplier : Q;
  smoothing : Q;
  fov : Q;
  cameraZ : Q
}.

Record PartialOptions := {
  opt_scrollMultiplier : option Q;
  opt_mouseMultiplier : option Q;
  opt_smoothing : option Q;
  opt_fov : option Q;
  opt_cameraZ : option Q
}.

Definition no_options : PartialOptions :=
  {| opt_scrollMultiplier := None; opt_mouseMultiplier := None; opt_smoothing := None;
     opt_fov := None; opt_cameraZ := None |}.

Definition default_options : Options :=
  {| scrollMultiplier := 1 # 2; mouseMultiplier := 2; smoothing := 2 # 25;
     fov := 75; cameraZ := 5 |}.

(** [{ ...o, ...p }] *)
Definition spread (o : Options) (p : PartialOptions) : Options :=
  {| scrollMultiplier := default (scrollMultiplier o) (opt_scrollMultiplier p);
     mouseMultiplier := default (mouseMultiplier o) (opt_mouseMultiplier p);
     smoothing := default (smoothing o) (opt_smoothing p);
     fov := default (fov o) (opt_fov p);
     cameraZ := default (cameraZ o) (opt_cameraZ p) |}.

(** *** The Three.js objects the controller touches *)

Record Vector3 := { x : Q; y : Q; z : Q }.

Definition MeshId := nat.

Inductive Material :=
| Textured (src : string)
| Colored (color : Z).

(** A [THREE.Mesh] over a [PlaneGeometry(width, 2)]; the width of a textured
    plane is [aspectRatio * 2], [None] when the ratio is not finite. *)
Record Mesh := {
  geometry_width : option Q;
  material : Material;
  position : Vector3;
  rotation : Vector3;
  geometry_disposed : bool;
  material_disposed : bool
}.

Record Camera := {
  camera_fov : Q;
  camera_aspect : option Q;
  camera_position : Vector3;
  camera_lookAt : option Vector3
}.

Record Renderer := {
  domElement : Element;
  size : Q * Q;
  pixelRatio : Q;
  rendered : nat;
  renderer_disposed : bool
}.

(** The browser together with the heap of meshes, the [Math.random] source
    and the canvas element the next [WebGLRenderer] creates. *)
Record World := {
  browser : Browser;
  meshes : gmap MeshId Mesh;
  nextMesh : MeshId;
  random : nat -> Q;
  random_calls : nat;
  canvas : Element
}.

Definition set_browser (f : Browser -> Browser) (w : World) : World :=
  {| browser := f (browser w); meshes := meshes w; nextMesh := nextMesh w;
     random := random w; random_calls := random_calls w; canvas := canvas w |}.

Definition set_meshes (f : gmap MeshId Mesh -> gmap MeshId Mesh) (w : World) : World :=
  {| browser := browser w; meshes := f (meshes w); nextMesh := nextMesh w;
     random := random w; random_calls := random_calls w; canvas := canvas w |}.

Definition set_position (v : Vector3) (m : Mesh) : Mesh :=
  {| geometry_width := geometry_width m; material := material m; position := v;
     rotation := rotation m; geometry_disposed := geometry_disposed m;
     material_disposed := material_disposed m |}.

Definition set_rotation (v : Vector3) (m : Mesh) : Mesh :=
  {| geometry_width := geometry_width m; material := material m; position := position m;
     rotation := v; geometry_disposed := geometry_disposed m;
     material_disposed := material_disposed m |}.

(** [mesh.geometry.dispose(); mesh.material.dispose()] *)
Definition dispose (m : Mesh) : Mesh :=
  {| geometry_width := geometry_width m; material := material m; position := position m;
     rotation := rotation m; geometry_disposed := true; material_disposed := true |}.

Record Layer := {
  mesh : MeshId;
  element : Element;
  depth : Q;
  scrollSpeed : Q;
  mouseSpeed : Q;
  initialPosition : Vector3
}.

Record Point := { px : Q; py : Q }.

(** The fields of [this].  [scene], [camera] and [renderer] are [null] only
    between the first assignments of the constructor and [init], where no
    method runs: the record holds the objects once they exist.  [scene] is
    the list of the scene's children. *)
Record t := {
  container : Element;
  options : Options;
  scene : list MeshId;
  camera : Camera;
  renderer : Renderer;
  layers : list Layer;
  mouse : Point;
  targetMouse : Point;
  scroll : Q;
  targetScroll : Q;
  isActive : bool;
  animationFrameId : option positive
}.

Definition State : Type := t * World.

Definition set_scene (v : list MeshId) (c : t) : t :=
  {| container := container c; options := options c; scene := v; camera := camera c;
     renderer := renderer c; layers := layers c; mouse := mouse c;
     targetMouse := targetMouse c; scroll := scroll c; targetScroll := targetScroll c;
     isActive := isActive c; animationFrameId := animationFrameId c |}.

Definition set_camera (v : Camera) (c : t) : t :=
  {| container := container c; options := options c; scene := scene c; camera := v;
     renderer := renderer c; layers := layers c; mouse := mouse c;
     targetMouse := targetMouse c; scroll := scroll c; targetScroll := targetScroll c;
     isActive := isActive c; animationFrameId := animationFrameId c |}.

Definition set_renderer (v : Renderer) (c : t) : t :=
  {| container := container c; options := options c; scene := scene c; camera := camera c;
     renderer := v; layers := layers c; mouse := mouse c;
     targetMouse := targetMouse c; scroll := scroll c; targetScroll := targetScroll c;
     isActive := isActive c; animationFrameId := animationFrameId c |}.

Definition set_layers (v : list Layer) (c : t) : t :=
  {| container := container c; options := options c; scene := scene c; camera := camera c;
     renderer := renderer c; layers := v; mouse := mouse c;
     targetMouse := targetMouse c; scroll := scroll c; targetScroll := targetScroll c;
     isActive := isActive c; animationFrameId := animationFrameId c |}.

Definition set_mouse (v : Point) (c : t) : t :=
  {| container := container c; options := options c; scene := scene c; camera := camera c;
     renderer := renderer c; layers := layers c; mouse := v;
     targetMouse := targetMouse c; scroll := scroll c; targetScroll := targetScroll c;
     isActive := isActive c; animationFrameId := animationFrameId c |}.

Definition set_options (v : Options) (c : t) : t :=
  {| container := container c; options := v; scene := scene c; camera := camera c;
     renderer := renderer c; layers := layers c; mouse := mouse c;
     targetMouse := targetMouse c; scroll := scroll c; targetScroll := targetScroll c;
     isActive := isActive c; animationFrameId := animationFrameId c |}.

Definition set_targetMouse (v : Point) (c : t) : t :=
  {| container := container c; options := options c; scene := scene c; camera := camera c;
     renderer := renderer c; layers := layers c; mouse := mouse c;
     targetMouse := v; scroll := scroll c; targetScroll := targetScroll c;
     isActive := isActive c; animationFrameId := animationFrameId c |}.

Definition set_scroll (v : Q) (c : t) : t :=
  {| container := container c; options := options c; scene := scene c; camera := camera c;
     renderer := renderer c; layers := layers c; mouse := mouse c;
     targetMouse := targetMouse c; scroll := v; targetScroll := targetScroll c;
     isActive := isActive c; animationFrameId := animationFrameId c |}.

Definition set_targetScroll (v : Q) (c : t) : t :=
  {| container := container c; options := options c; scene := scene c; camera := camera c;
     renderer := renderer c; layers := layers c; mouse := mouse c;
     targetMouse := targetMouse c; scroll := scroll c; targetScroll := v;
     isActive := isActive c; animationFrameId := animationFrameId c |}.

Definition set_isActive (v : bool) (c : t) : t :=
  {| container := container c; options := options c; scene := scene c; camera := camera c;
     renderer := renderer c; layers := layers c; mouse := mouse c;
     targetMouse := targetMouse c; scroll := scroll c; targetScroll := targetScroll c;
     isActive := v; animationFrameId := animationFrameId c |}.

Definition set_animationFrameId (v : option positive) (c : t) : t :=
  {| container := container c; options := options c; scene := scene c; camera := camera c;
     renderer := renderer c; layers := layers c; mouse := mouse c;
     targetMouse := targetMouse c; scroll := scroll c; targetScroll := targetScroll c;
     isActive := isActive c; animationFrameId := v |}.

(** *** Methods *)

Definition colors : list Z := [0x6B5B95; 0x88B04B; 0xF7CAC9; 0x92A8D1; 0xFFCDA3]%Z.

(** [getRandomColor()]: [colors[Math.floor(Math.random() * colors.length)]] *)
Definition getRandomColor (w : World) : Z * World :=
  let r := random w (random_calls w) in
  let w := {| browser := browser w; meshes := meshes w; nextMesh := nextMesh w;
              random := random w; random_calls := S (random_calls w); canvas := canvas w |} in
  (default 0%Z (colors !! Z.to_nat (Qfloor (r * 5))), w).

(** [new THREE.Mesh(geometry, material)]: a fresh object at the origin. *)
Definition new_Mesh (width : option Q) (m : Material) (w : World) : MeshId * World :=
  let id := nextMesh w in
  let obj :=
    {| geometry_width := width; material := m;
       position := {| x := 0; y := 0; z := 0 |};
       rotation := {| x := 0; y := 0; z := 0 |};
       geometry_disposed := false; material_disposed := false |} in
  (id, {| browser := browser w; meshes := <[id := obj]> (meshes w); nextMesh := S id;
          random := random w; random_calls := random_calls w; canvas := canvas w |}).

(** The callback of the [forEach] of [createLayers]. *)
Definition createLayer (s : State) (el : Element) : State :=
  let '(this, w) := s in
  let attrs := markup (document (browser w)) el in
  let depth := or_default (parseFloat (data_parallax_depth attrs)) 0 in
  let scrollSpeed := or_default (parseFloat (data_parallax_scroll attrs)) depth in
  let mouseSpeed := or_default (parseFloat (data_parallax_mouse attrs)) depth in
  let w := set_browser (set_style_visibility (insert el "hidden")) w in
  let '(id, w) :=
    match img attrs with
    | Some image =>
        let aspectRatio := div (naturalWidth image) (naturalHeight image) in
        new_Mesh ((fun r => r * 2) <$> aspectRatio) (Textured (src image)) w
    | None =>
        let '(color, w) := getRandomColor w in
        new_Mesh (Some 2) (Colored color) w
    end in
  let w :=
    set_meshes
      (alter (fun m => set_position {| x := x (position m); y := y (position m);
                                       z := - depth * 2 |} m) id) w in
  let this := set_scene (scene this ++ [id]) this in
  let initialPosition := default {| x := 0; y := 0; z := 0 |} (position <$> meshes w !! id) in
  (set_layers
     (layers this ++
      [{| mesh := id; element := el; depth := depth; scrollSpeed := scrollSpeed;
          mouseSpeed := mouseSpeed; initialPosition := initialPosition |}])
     this, w).

(** [createLayers()] *)
Definition createLayers (s : State) : State :=
  let '(this, w) := s in
  foldl createLayer s (querySelectorAll (document (browser w)) (container this)).

Definition on_scroll : Listener :=
  {| target := TheWindow; type := "scroll"; callback := "handleScroll" |}.
Definition on_mousemove (c : t) : Listener :=
  {| target := Node (container c); type := "mousemove"; callback := "handleMouseMove" |}.
Definition on_resize : Listener :=
  {| target := TheWindow; type := "resize"; callback := "handleResize" |}.

(** [addEventListeners()] *)
Definition addEventListeners (s : State) : State :=
  let '(this, w) := s in
  let w := set_browser (addEventListener on_scroll) w in
  let w := set_browser (addEventListener (on_mousemove this)) w in
  (this, set_browser (addEventListener on_resize) w).

(** [removeEventListeners()] *)
Definition removeEventListeners (s : State) : State :=
  let '(this, w) := s in
  let w := set_browser (removeEventListener on_scroll) w in
  let w := set_browser (removeEventListener (on_mousemove this)) w in
  (this, set_browser (removeEventListener on_resize) w).

(** [handleScroll()] *)
Definition handleScroll (s : State) : State :=
  let '(this, w) := s in
  (set_targetScroll (scroll_position (browser w)) this, w).

(** [lerp(start, end, factor)] *)
Definition lerp (start end_ factor : Q) : Q :=
  start + (end_ - start) * factor.

(** The body of the [forEach] of [animate], on the mesh of the layer. *)
Definition moveMesh (this : t) (layer : Layer) (m : Mesh) : Mesh :=
  let scrollOffset := scroll this * scrollSpeed layer * scrollMultiplier (options this) * (1 # 100) in
  let m := set_position {| x := x (position m);
                           y := y (initialPosition layer) - scrollOffset;
                           z := z (position m) |} m in
  let m := set_rotation {| x := x (rotation m);
                           y := px (mouse this) * (1 # 20) * depth layer;
                           z := z (rotation m) |} m in
  set_rotation {| x := py (mouse this) * (1 # 20) * depth layer;
                  y := y (rotation m);
                  z := z (rotation m) |} m.

(** [animate()] *)
Definition animate (s : State) : State :=
  let '(this, w) := s in
  if negb (isActive this) then s else
  let this := set_scroll (lerp (scroll this) (targetScroll this) (smoothing (options this))) this in
  let this :=
    set_mouse {| px := lerp (px (mouse this)) (px (targetMouse this)) (smoothing (options this));
                 py := py (mouse this) |} this in
  let this :=
    set_mouse {| px := px (mouse this);
                 py := lerp (py (mouse this)) (py (targetMouse this)) (smoothing (options this)) |} this in
  let this :=
    set_camera
      {| camera_fov := camera_fov (camera this);
         camera_aspect := camera_aspect (camera this);
         camera_position :=
           {| x := px (mouse this) * mouseMultiplier (options this);
              y := py (mouse this) * mouseMultiplier (options this);
              z := z (camera_position (camera this)) |};
         camera_lookAt := Some {| x := 0; y := 0; z := 0 |} |} this in
  let w :=
    foldl (fun w layer => set_meshes (alter (moveMesh this layer) (mesh layer)) w)
          w (layers this) in
  let this :=
    set_renderer
      {| domElement := domElement (renderer this); size := size (renderer this);
         pixelRatio := pixelRatio (renderer this); rendered := S (rendered (renderer this));
         renderer_disposed := renderer_disposed (renderer this) |} this in
  let '(id, b) := requestAnimationFrame (browser w) in
  (set_animationFrameId (Some id) this, set_browser (fun _ => b) w).

(** [start()] *)
Definition start (s : State) : State :=
  let '(this, w) := s in
  if isActive this then s else
  let this := set_isActive true this in
  let this := set_targetScroll (scroll_position (browser w)) this in
  let this := set_scroll (targetScroll this) this in
  animate (this, w).

(** [stop()] *)
Definition stop (s : State) : State :=
  let '(this, w) := s in
  let this := set_isActive false this in
  match animationFrameId this with
  | Some id => (set_animationFrameId None this, set_browser (cancelAnimationFrame id) w)
  | None => (this, w)
  end.

(** The body of the [forEach] of [destroy]: the mesh leaves the scene, its
    geometry and material are disposed, the element is shown again. *)
Definition removeMesh (s : State) (layer : Layer) : State :=
  let '(this, w) := s in
  let this := set_scene (filter (fun id => id ≠ mesh layer) (scene this)) this in
  let w := set_meshes (alter dispose (mesh layer)) w in
  (this, set_browser (set_style_visibility (insert (element layer) "")) w).

(** How a call of [destroy] ends: it returns, or it throws and leaves the
    controller and the page as they were at the throw. *)
Inductive completion :=
| Returns (s : State)
| Throws (e : DOMException) (s : State).

Definition after (c : completion) : State :=
  match c with
  | Returns s => s
  | Throws _ s => s
  end.

(** [destroy()].  [container.removeChild(canvas)] throws a [NotFoundError]
    when the canvas is not a child of the container; [this.layers = []]
    comes after it and is then not reached. *)
Definition destroy (s : State) : completion :=
  let s := stop s in
  let '(this, w) := removeEventListeners s in
  let '(this, w) := foldl removeMesh (this, w) (layers this) in
  let this :=
    set_renderer
      {| domElement := domElement (renderer this); size := size (renderer this);
         pixelRatio := pixelRatio (renderer this); rendered := rendered (renderer this);
         renderer_disposed := true |} this in
  if bool_decide ((container this, domElement (renderer this)) ∈ appended (browser w))
  then
    let w :=
      set_browser
        (set_appended (filter (fun p => p ≠ (container this, domElement (renderer this))))) w in
    Returns (set_layers [] this, w)
  else Throws NotFoundError (this, w).

(** [init()], entered from the constructor with the fields still at their
    first values, when [new THREE.WebGLRenderer] returns a renderer. *)
Definition init (container : Element) (options : Options) (w : World) : State :=
  let scene := [] in
  let width := clientWidth (document (browser w)) container in
  let height := clientHeight (document (browser w)) container in
  let camera :=
    {| camera_fov := fov options;
       camera_aspect := div width height;
       camera_position := {| x := 0; y := 0; z := cameraZ options |};
       camera_lookAt := None |} in
  let renderer :=
    {| domElement := canvas w; size := (width, height);
       pixelRatio := devicePixelRatio (document (browser w));
       rendered := 0; renderer_disposed := false |} in
  let w := set_browser (set_appended (fun l => l ++ [(container, domElement renderer)])) w in
  let this :=
    {| container := container; options := options; scene := scene; camera := camera;
       renderer := renderer; layers := [];
       mouse := {| px := 0; py := 0 |}; targetMouse := {| px := 0; py := 0 |};
       scroll := 0; targetScroll := 0; isActive := false; animationFrameId := None |} in
  start (addEventListeners (createLayers (this, w))).

(** [new SuperParallax3D(container, options)].  The constructor catches
    nothing: when [new THREE.WebGLRenderer], the first effect of [init], throws
    for want of a WebGL context, that error leaves the constructor. *)
Definition new (container_arg : ContainerArg) (options_arg : PartialOptions) (w : World)
    : exn + State :=
  if negb (THREE_defined (document (browser w)))
  then inl (Error "Three.js is required. Include it before SuperParallax3D.")
  else
    match resolve (browser w) container_arg with
    | None => inl (Error "Container element not found")
    | Some container =>
        if negb (webgl_available (document (browser w)))
        then inl (Error "Error creating WebGL context.")
        else inr (init container (spread default_options options_arg) w)
    end.

(** A [mousemove] event: [clientX] and [clientY]. *)
Record MouseEvent := { clientX : Q; clientY : Q }.

(** [handleMouseMove(event)]; the result is [None] when a division by a
    zero width or height leaves the numbers of the model. *)
Definition handleMouseMove (event : MouseEvent) (s : State) : option State :=
  let '(this, w) := s in
  let rect := getBoundingClientRect (document (browser w)) (container this) in
  match div (clientX event - rect_left rect) (rect_width rect),
        div (clientY event - rect_top rect) (rect_height rect) with
  | Some u, Some v =>
      let this := set_targetMouse {| px := u * 2 - 1; py := py (targetMouse this) |} this in
      Some (set_targetMouse {| px := px (targetMouse this); py := - v * 2 + 1 |} this, w)
  | _, _ => None
  end.

(** [handleResize()] *)
Definition handleResize (s : State) : State :=
  let '(this, w) := s in
  let width := clientWidth (document (browser w)) (container this) in
  let height := clientHeight (document (browser w)) (container this) in
  let this :=
    set_camera
      {| camera_fov := camera_fov (camera this);
         camera_aspect := div width height;
         camera_position := camera_position (camera this);
         camera_lookAt := camera_lookAt (camera this) |} this in
  (set_renderer
     {| domElement := domElement (renderer this); size := (width, height);
        pixelRatio := pixelRatio (renderer this); rendered := rendered (renderer this);
        renderer_disposed := renderer_disposed (renderer this) |} this, w).

(** [setOptions(newOptions)]: [if (newOptions.fov)] passes for a value that
    is given and is not zero. *)
Definition setOptions (newOptions : PartialOptions) (s : State) : State :=
  let '(this, w) := s in
  let this := set_options (spread (options this) newOptions) this in
  match opt_fov newOptions with
  | Some f =>
      if truthy f
      then (set_camera
              {| camera_fov := f;
                 camera_aspect := camera_aspect (camera this);
                 camera_position := camera_position (camera this);
                 camera_lookAt := camera_lookAt (camera this) |} this, w)
      else (this, w)
  | None => (this, w)
  end.

(** The browser runs a frame that is still pending. *)
Definition frame (id : positive) (s : State) : State :=
  let '(this, w) := s in
  if bool_decide (id ∈ frames (browser w))
  then animate (this, set_browser (cancelAnimationFrame id) w)
  else s.
End SuperParallax3D.

(** ** The arithmetic of a tick in double precision *)

(** JavaScript numbers are IEEE-754 doubles, and each arithmetic operation
    returns its exact result rounded to a double.  [Rounded] is the tick of
    the 2D controller with that rounding, [rnd], written out at every
    operation; the tick of [SuperParallax] is the same code with the rounding
    left out.  [-x] is exact in doubles and is not rounded. *)
Module Rounded.
Import Js Dom SuperParallax.
Local Open Scope Q_scope.

Section Arithmetic.
Variable rnd : Q -> Q.

Definition add (a b : Q) : Q := rnd (a + b).
Definition sub (a b : Q) : Q := rnd (a - b).
Definition mul (a b : Q) : Q := rnd (a * b).

(** [lerp(start, end, factor)]: [start + (end - start) * factor] *)
Definition lerp (start end_ factor : Q) : Q :=
  add start (mul (sub end_ start) factor).

(** The body of the [forEach] of [animate]. *)
Definition layerTransform (this : t) (layer : Layer) : css :=
  let scrollOffset :=
    mul (mul (mul (scroll this) (scrollSpeed layer)) (scrollMultiplier (options this))) (1 # 2) in
  let mouseOffsetX :=
    mul (mul (mul (x (mouse this)) (mouseSpeed layer)) (mouseMultiplier (options this))) 50 in
  let mouseOffsetY :=
    mul (mul (mul (y (mouse this)) (mouseSpeed layer)) (mouseMultiplier (options this))) 50 in
  let translateX := 0 in
  let translateY := 0 in
  let translateX :=
    if String.eqb (axis layer) "both" || String.eqb (axis layer) "x"
    then mouseOffsetX
    else translateX in
  let translateY :=
    if String.eqb (axis layer) "both" || String.eqb (axis layer) "y"
    then add (- scrollOffset) mouseOffsetY
    else if String.eqb (axis layer) "x"
    then - scrollOffset
    else translateY in
  if truthy_str (initialTransform layer)
  then After (initialTransform layer) translateX translateY
  else Translate3d translateX translateY.

(** [animate()] *)
Definition animate (s : State) : State :=
  let '(this, b) := s in
  if negb (isActive this) then s else
  let this := set_scroll (lerp (scroll this) (targetScroll this) (smoothing (options this))) this in
  let this :=
    set_mouse {| x := lerp (x (mouse this)) (x (targetMouse this)) (smoothing (options this));
                 y := y (mouse this) |} this in
  let this :=
    set_mouse {| x := x (mouse this);
                 y := lerp (y (mouse this)) (y (targetMouse this)) (smoothing (options this)) |} this in
  let b :=
    foldl (fun b layer =>
             set_style_transform (insert (element layer) (layerTransform this layer)) b)
          b (layers this) in
  let '(id, b) := requestAnimationFrame b in
  (set_animationFrameId (Some id) this, b).
End Arithmetic.
End Rounded.

(** [lerp] on the doubles themselves. *)
Module Binary64.
Import PrimFloat.

(** [lerp(start, end, factor)] *)
Definition lerp (start end_ factor : float) : float :=
  (start + (end_ - start) * factor)%float.
End Binary64.

(** * Vocabulary of the properties *)

(** The offset calculator as the specification words it (section 4.2). *)
Module Spec.
Local Open Scope Q_scope.

Definition SCROLL_SCALE : Q := 1 # 2.
Definition POINTER_SCALE : Q := 50.

(** [scroll.current * layer.scrollSpeed * config.scrollMultiplier * SCROLL_SCALE] *)
Definition scrollOffset (current scrollSpeed scrollMultiplier : Q) : Q :=
  current * scrollSpeed * scrollMultiplier * SCROLL_SCALE.

(** [pointer.current * layer.mouseSpeed * config.mouseMultiplier * POINTER_SCALE] *)
Definition pointerOffset (current mouseSpeed mouseMultiplier : Q) : Q :=
  current * mouseSpeed * mouseMultiplier * POINTER_SCALE.
End Spec.

Section Vocabulary2D.
Import Js Dom SuperParallax.
Local Open Scope Q_scope.

(** The frames that are pending are exactly the one whose handle the
    controller holds, and an idle controller holds none. *)
Definition loop_inv (s : State) : Prop :=
  frames (snd s) = from_option (fun id => {[id]}) ∅ (animationFrameId (fst s))
  /\ (isActive (fst s) = false -> animationFrameId (fst s) = None).

(** The translation a style value carries. *)
Definition translation (c : css) : Q * Q :=
  match c with
  | Verbatim _ => (0, 0)
  | Translate3d tx ty => (tx, ty)
  | After _ tx ty => (tx, ty)
  end.

(** [ls !! i] is [l], and no layer after it is attached to the same element:
    the write of [l] is the one that stays. *)
Definition registered_last (ls : list Layer) (i : nat) (l : Layer) : Prop :=
  ls !! i = Some l
  /\ forall j l', (i < j)%nat -> ls !! j = Some l' -> element l' <> element l.

(** Is a layer attached to [el] in the registry? *)
Definition registered (el : Element) (ls : list Layer) : bool :=
  existsb (fun l => Nat.eqb (element l) el) ls.

(** The registrations left after [removeEventListeners]. *)
Definition unregistered (c : t) (ls : list Listener) : list Listener :=
  filter (fun l => l ≠ on_resize)
    (filter (fun l => l ≠ on_mouseleave c)
       (filter (fun l => l ≠ on_mousemove c)
          (filter (fun l => l ≠ on_scroll) ls))).

(** [n] ticks of one scalar towards a target that does not move, every
    operation rounded by [rnd]. *)
Definition chase (rnd : Q -> Q) (target k : Q) (n : nat) (current : Q) : Q :=
  Nat.iter n (fun c => Rounded.lerp rnd c target k) current.

(** The standard model of floating-point arithmetic: as long as the exact
    result is not larger than [Omega], rounding it makes a relative error of
    at most [u], or, for a result in the subnormal range, an absolute error
    of at most [eta].  Rounding to the nearest double is such a rounding
    with [u = 2^-53], [eta = 2^-1075] and [Omega] the largest double. *)
Definition standard_model (rnd : Q -> Q) (u eta Omega : Q) : Prop :=
  forall x, Qabs x <= Omega -> Qabs (rnd x - x) <= u * Qabs x + eta.

(** What is left of the smoothing factor [k] once the three roundings of
    [lerp] are counted in: a tick multiplies the distance to the target by
    at most [1 - rate u k].  Without rounding, [rate 0 k] is [k]. *)
Definition rate (u k : Q) : Q := 1 - (1 + u) * (1 - k + u * (1 + k + u)).

(** What the roundings of one tick can add to the distance to a target of
    magnitude at most [M]. *)
Definition drift (u eta k M : Q) : Q := u * M + ((1 + u) * (1 + k + u) + 1) * eta.

(** The distance to the target below which the ticks need not get. *)
Definition tolerance (u eta k M : Q) : Q := drift u eta k M / rate u k.

(** The instance the constructor hands to [init]. *)
Definition blank (el : Element) (o : PartialOptions) : t :=
  {| container := el; options := spread default_options o; layers := [];
     mouse := {| x := 0; y := 0 |}; targetMouse := {| x := 0; y := 0 |};
     scroll := 0; targetScroll := 0; bounds := None;
     animationFrameId := None; isActive := false |}.

(** The browser as [init] leaves it just before it calls [start]. *)
Definition prepared (el : Element) (o : PartialOptions) (b : Browser) : State :=
  let ls := map (discover b) (querySelectorAll (document b) el) in
  let b1 :=
    if (length ls =? 0)%nat
    then console_warn "No parallax layers found. Add data-parallax-layer attribute to elements." b
    else b in
  let b2 :=
    set_style_position
      (insert el (or_str (default "" (style_position b1 !! el)) "relative")) b1 in
  let b3 :=
    set_style_overflow
      (insert el (or_str (default "" (style_overflow b2 !! el)) "hidden")) b2 in
  addEventListeners (updateBounds (set_layers ls (blank el o), b3)).

(** Two instances that differ at most in their targets and cached bounds:
    everything a tick has smoothed, drawn or scheduled is the same. *)
Definition same_but_targets (c c' : t) : Prop :=
  container c' = container c /\ options c' = options c /\ layers c' = layers c
  /\ mouse c' = mouse c /\ scroll c' = scroll c
  /\ animationFrameId c' = animationFrameId c /\ isActive c' = isActive c.

(** Two partial option objects laid over each other, the keys of the second
    on top: [{ ...p1, ...p2 }]. *)
Definition overlay (p1 p2 : PartialOptions) : PartialOptions :=
  {| opt_scrollMultiplier := opt_scrollMultiplier p2 ∪ opt_scrollMultiplier p1;
     opt_mouseMultiplier := opt_mouseMultiplier p2 ∪ opt_mouseMultiplier p1;
     opt_smoothing := opt_smoothing p2 ∪ opt_smoothing p1;
     opt_centerMouse := opt_centerMouse p2 ∪ opt_centerMouse p1;
     opt_resetOnMouseLeave := opt_resetOnMouseLeave p2 ∪ opt_resetOnMouseLeave p1 |}.

(** The rectangle [handleMouseMove] measures the pointer against: the cached
    bounds, or the container's current rectangle when none is cached. *)
Definition effective_bounds (s : State) : Rect :=
  default (getBoundingClientRect (document (snd s)) (container (fst s))) (bounds (fst s)).
End Vocabulary2D.

Section Vocabulary3D.
Import Js Dom SuperParallax3D.

(** The registrations left after [removeEventListeners]. *)
Definition unregistered3d (c : t) (ls : list Listener) : list Listener :=
  filter (fun l => l ≠ on_resize)
    (filter (fun l => l ≠ on_mousemove c)
       (filter (fun l => l ≠ on_scroll) ls)).

(** The camera and the renderer are set for the size the container has. *)
Definition fitted (s : State) : Prop :=
  let width := clientWidth (document (browser (snd s))) (container (fst s)) in
  let height := clientHeight (document (browser (snd s))) (container (fst s)) in
  camera_aspect (camera (fst s)) = div width height
  /\ size (renderer (fst s)) = (width, height).
End Vocabulary3D.

(** [n] ticks of one scalar in doubles, the target fixed. *)
Definition chase64 (target k : PrimFloat.float) (n : nat) (current : PrimFloat.float)
    : PrimFloat.float :=
  Nat.iter n (fun c => Binary64.lerp c target k) current.

(** ** A concrete page used to run the controllers *)

Module Example.
Import Js Dom.
Local Open Scope Q_scope.

(** A page whose container [0] holds the layers [1] and [2]: layer [1] has
    depth 2 and an explicit scroll speed of 0, layer [2] has no attribute
    and carries a CSS transform. *)
Definition page : Document :=
  {| querySelector := fun s => if String.eqb s ".parallax-container" then Some 0%nat else None;
     querySelectorAll := fun c => if Nat.eqb c 0 then [1%nat; 2%nat] else [];
     markup := fun el =>
       if Nat.eqb el 1
       then {| data_parallax_depth := Some (Numeral 2);
               data_parallax_scroll := Some (Numeral 0);
               data_parallax_mouse := None;
               data_parallax_axis := Some "x"%string;
               img := None |}
       else {| data_parallax_depth := None; data_parallax_scroll := None;
               data_parallax_mouse := None; data_parallax_axis := None;
               img := None |};
     getComputedTransform := fun el inline =>
       match inline with
       | Verbatim "" => if Nat.eqb el 2 then "matrix(1, 0, 0, 1, 0, 8)"%string else "none"%string
       | Verbatim s => s
       | _ => "matrix(1, 0, 0, 1, 0, 0)"%string
       end;
     getBoundingClientRect := fun _ =>
       {| rect_left := 0; rect_top := 0; rect_width := 800; rect_height := 600 |};
     clientWidth := fun _ => 800;
     clientHeight := fun _ => 600;
     devicePixelRatio := 1;
     THREE_defined := true;
     webgl_available := true |}.

Definition browser0 : Browser :=
  {| document := page; pageYOffset := 0; scrollTop := 0;
     style_transform := ∅; style_position := ∅; style_overflow := ∅;
     style_visibility := ∅; appended := []; listeners := [];
     frames := ∅; nextFrame := 1%positive; warnings := [] |}.

(** A running 2D controller with no layer, the scroll target at 100 and the
    smoothed scroll still at 0. *)
Definition jump : SuperParallax.State :=
  ({| SuperParallax.container := 0%nat;
      SuperParallax.options := SuperParallax.default_options;
      SuperParallax.layers := [];
      SuperParallax.mouse := {| SuperParallax.x := 0; SuperParallax.y := 0 |};
      SuperParallax.targetMouse := {| SuperParallax.x := 1; SuperParallax.y := -1 |};
      SuperParallax.scroll := 0;
      SuperParallax.targetScroll := 100;
      SuperParallax.bounds := None;
      SuperParallax.animationFrameId := None;
      SuperParallax.isActive := true |}, browser0).

(** The instance as the constructor fills it before [init] runs. *)
Definition fresh2d : SuperParallax.t :=
  {| SuperParallax.container := 0%nat;
     SuperParallax.options := SuperParallax.spread SuperParallax.default_options SuperParallax.no_options;
     SuperParallax.layers := [];
     SuperParallax.mouse := {| SuperParallax.x := 0; SuperParallax.y := 0 |};
     SuperParallax.targetMouse := {| SuperParallax.x := 0; SuperParallax.y := 0 |};
     SuperParallax.scroll := 0;
     SuperParallax.targetScroll := 0;
     SuperParallax.bounds := None;
     SuperParallax.animationFrameId := None;
     SuperParallax.isActive := false |}.

(** [new SuperParallax('.parallax-container')] on the page above. *)
Definition running2d : SuperParallax.State := SuperParallax.init (fresh2d, browser0).

Definition world0 : SuperParallax3D.World :=
  {| SuperParallax3D.browser := browser0;
     SuperParallax3D.meshes := ∅;
     SuperParallax3D.nextMesh := 0%nat;
     SuperParallax3D.random := fun _ => 1 # 2;
     SuperParallax3D.random_calls := 0%nat;
     SuperParallax3D.canvas := 9%nat |}.

(** The layer of the offset scenario: [addLayer(element3, 1, 1, 0)]. *)
Definition added : SuperParallax.Layer * SuperParallax.State :=
  SuperParallax.addLayer 3%nat (Some 1) (Some 1) (Some 0) running2d.

(** The controller above with that layer, restarted with the page scrolled
    to 100: the smoothed scroll is 100. *)
Definition at100 : SuperParallax.State :=
  SuperParallax.start (SuperParallax.scrolled 100 (SuperParallax.stop (snd added))).

(** The controller [at100] after the pointer has moved to (600, 150), a
    quarter right of and above the centre of the container: the pointer
    target is (1/2, -1/2). *)
Definition pointed : SuperParallax.State :=
  match
    SuperParallax.handleMouseMove
      {| SuperParallax.clientX := 600; SuperParallax.clientY := 150 |} at100
  with
  | Some s => s
  | None => at100
  end.

(** The same page scrolled to 100 before the 3D controller is built. *)
Definition world100 : SuperParallax3D.World :=
  {| SuperParallax3D.browser :=
       {| document := page; pageYOffset := 100; scrollTop := 100;
          style_transform := ∅; style_position := ∅; style_overflow := ∅;
          style_visibility := ∅; appended := []; listeners := [];
          frames := ∅; nextFrame := 1%positive; warnings := [] |};
     SuperParallax3D.meshes := ∅;
     SuperParallax3D.nextMesh := 0%nat;
     SuperParallax3D.random := fun _ => 1 # 2;
     SuperParallax3D.random_calls := 0%nat;
     SuperParallax3D.canvas := 9%nat |}.

(** The page after the container has been narrowed to 400 by 600. *)
Definition narrowed : SuperParallax3D.World :=
  {| SuperParallax3D.browser :=
       {| document :=
            {| querySelector := querySelector page;
               querySelectorAll := querySelectorAll page;
               markup := markup page;
               getComputedTransform := getComputedTransform page;
               getBoundingClientRect := fun _ =>
                 {| rect_left := 0; rect_top := 0; rect_width := 400; rect_height := 600 |};
               clientWidth := fun _ => 400;
               clientHeight := fun _ => 600;
               devicePixelRatio := 1;
               THREE_defined := true;
               webgl_available := true |};
          pageYOffset := 0; scrollTop := 0;
          style_transform := ∅; style_position := ∅; style_overflow := ∅;
          style_visibility := ∅; appended := []; listeners := [];
          frames := ∅; nextFrame := 1%positive; warnings := [] |};
     SuperParallax3D.meshes := ∅;
     SuperParallax3D.nextMesh := 0%nat;
     SuperParallax3D.random := fun _ => 1 # 2;
     SuperParallax3D.random_calls := 0%nat;
     SuperParallax3D.canvas := 9%nat |}.

Definition scrolled3d : SuperParallax3D.State :=
  SuperParallax3D.init 0%nat
    (SuperParallax3D.spread SuperParallax3D.default_options SuperParallax3D.no_options) world100.

(** [new SuperParallax3D('.parallax-container')] on the page above. *)
Definition running3d : SuperParallax3D.State :=
  SuperParallax3D.init 0%nat
    (SuperParallax3D.spread SuperParallax3D.default_options SuperParallax3D.no_options) world0.
End Example.

(** * Properties *)

Arguments SuperParallax.animate : simpl never.
Arguments SuperParallax.start : simpl never.
Arguments SuperParallax.stop : simpl never.
Arguments SuperParallax.destroy : simpl never.
Arguments SuperParallax.init : simpl never.
Arguments SuperParallax3D.animate : simpl never.
Arguments SuperParallax3D.start : simpl never.
Arguments SuperParallax3D.stop : simpl never.
Arguments SuperParallax3D.destroy : simpl never.
Arguments SuperParallax3D.init : simpl never.

(** ** The smoothing step *)

Section Smoothing.
Import Js Dom SuperParallax.
Local Open Scope Q_scope.

(** The instance after a tick of a running controller, field by field. *)
Lemma animate_active (this : t) (b : Browser) :
  isActive this = true ->
  let this' := fst (animate (this, b)) in
  scroll this' = lerp (scroll this) (targetScroll this) (smoothing (options this))
  /\ mouse this' =
       {| x := lerp (x (mouse this)) (x (targetMouse this)) (smoothing (options this));
          y := lerp (y (mouse this)) (y (targetMouse this)) (smoothing (options this)) |}
  /\ targetScroll this' = targetScroll this
  /\ targetMouse this' = targetMouse this
  /\ options this' = options this
  /\ layers this' = layers this
  /\ container this' = container this
  /\ isActive this' = true.
Proof.
  intros Hact. unfold animate. rewrite Hact. simpl. repeat split; auto.
Qed.
End Smoothing.

(** C1. One tick of a running controller moves the smoothed scroll and both
    smoothed pointer coordinates to [current + (target - current) * s], where
    [s] is the configured [smoothing] option. *)
Theorem animate_lerps_every_scalar (s : SuperParallax.State) :
  SuperParallax.isActive (fst s) = true ->
  let this := fst s in
  let this' := fst (SuperParallax.animate s) in
  let k := SuperParallax.smoothing (SuperParallax.options this) in
  SuperParallax.scroll this' =
    (SuperParallax.scroll this
     + (SuperParallax.targetScroll this - SuperParallax.scroll this) * k)%Q
  /\ SuperParallax.x (SuperParallax.mouse this') =
    (SuperParallax.x (SuperParallax.mouse this)
     + (SuperParallax.x (SuperParallax.targetMouse this)
        - SuperParallax.x (SuperParallax.mouse this)) * k)%Q
  /\ SuperParallax.y (SuperParallax.mouse this') =
    (SuperParallax.y (SuperParallax.mouse this)
     + (SuperParallax.y (SuperParallax.targetMouse this)
        - SuperParallax.y (SuperParallax.mouse this)) * k)%Q.
Proof.
  destruct s as [this b]. intros Hact. simpl in Hact. cbv zeta.
  destruct (animate_active this b Hact) as (Hs & Hm & _).
  rewrite Hs, Hm. simpl. unfold SuperParallax.lerp. auto.
Qed.

Lemma animate_lerps_every_scalar_witness :
  SuperParallax.isActive (fst Example.jump) = true
  /\ SuperParallax.scroll (fst (SuperParallax.animate Example.jump))
     = (0 + (100 - 0) * (1 # 10))%Q.
Proof.
  split; [reflexivity |].
  exact (proj1 (animate_lerps_every_scalar Example.jump eq_refl)).
Defined.

(** The scenario of the specification: with [smoothing = 0.1] and the scroll
    target jumping from 0 to 100, the smoothed scroll is 10 after the first
    tick and 19 after the second. *)
Example scroll_jump_two_ticks :
  (SuperParallax.scroll (fst (SuperParallax.animate Example.jump)) == 10)%Q
  /\ (SuperParallax.scroll (fst (SuperParallax.animate (SuperParallax.animate Example.jump))) == 19)%Q.
Proof. split; vm_compute; reflexivity. Qed.

(** ** The frame loop *)

Section Loop2D.
Import Js Dom SuperParallax.

(** A [forEach] whose body leaves a component of the state alone leaves it
    alone as a whole. *)
Lemma foldl_preserves {A S B} (proj : S -> B) (g : S -> A -> S) (l : list A) (s : S) :
  (forall s a, proj (g s a) = proj s) -> proj (foldl g s l) = proj s.
Proof.
  intros Hg. revert s. induction l as [|a l IH]; intros s; simpl; [reflexivity |].
  rewrite IH. apply Hg.
Qed.

Lemma animate_frames (this : t) (b : Browser) :
  isActive this = true ->
  frames (snd (animate (this, b))) = {[nextFrame b]} ∪ frames b
  /\ animationFrameId (fst (animate (this, b))) = Some (nextFrame b).
Proof.
  intros Hact. unfold animate. rewrite Hact. simpl.
  match goal with |- context [foldl ?g b ?l] =>
    rewrite (foldl_preserves frames g l b), (foldl_preserves nextFrame g l b)
      by reflexivity
  end.
  auto.
Qed.

Lemma loop_inv_animate (s : State) :
  frames (snd s) = ∅ -> isActive (fst s) = true -> loop_inv (animate s).
Proof.
  destruct s as [this b]. simpl. intros Hfr Hact.
  destruct (animate_frames this b Hact) as [Hf Hid].
  destruct (animate_active this b Hact) as (_ & _ & _ & _ & _ & _ & _ & Ha).
  unfold loop_inv. split.
  - rewrite Hf, Hid, Hfr. simpl. apply (right_id_L ∅ (∪)).
  - rewrite Ha. discriminate.
Qed.

Lemma loop_inv_start (s : State) : loop_inv s -> loop_inv (start s).
Proof.
  destruct s as [this b]. intros [Hfr Hidle]. unfold start.
  destruct (isActive this) eqn:Hact; [split; assumption |].
  apply loop_inv_animate; simpl in *; [| reflexivity].
  rewrite Hfr, (Hidle Hact). reflexivity.
Qed.

Lemma loop_inv_stop (s : State) : loop_inv s -> loop_inv (stop s).
Proof.
  destruct s as [this b]. intros [Hfr Hidle]. unfold stop. simpl in *.
  destruct (animationFrameId this) as [id|] eqn:Hid; split; simpl in *; auto.
  - rewrite Hfr. apply difference_diag_L.
  - rewrite Hfr, Hid. reflexivity.
Qed.

Lemma stop_inactive (s : State) :
  isActive (fst (stop s)) = false /\ animationFrameId (fst (stop s)) = None.
Proof.
  destruct s as [this b]. unfold stop. simpl.
  destruct (animationFrameId this) eqn:Hid; simpl; auto.
Qed.
Lemma loop_inv_destroy (s : State) : loop_inv s -> loop_inv (destroy s).
Proof.
  intros Hinv. apply loop_inv_stop in Hinv.
  destruct (stop_inactive s) as [Hact Hid].
  unfold destroy. destruct (stop s) as [this b]. unfold loop_inv in *. simpl in *.
  match goal with |- context [foldl ?g ?b0 ?l] =>
    rewrite (foldl_preserves frames g l b0)
      by (intros ? layer; unfold resetTransform;
          destruct (truthy_str (initialTransform layer)); reflexivity)
  end.
  simpl. rewrite Hid in *. simpl in *. split; [apply Hinv | auto].
Qed.

Lemma loop_inv_frame (s : State) (id : positive) : loop_inv s -> loop_inv (frame id s).
Proof.
  destruct s as [this b]. intros [Hfr Hidle]. unfold frame. simpl in *.
  case_bool_decide as Hin; [| split; assumption].
  destruct (animationFrameId this) as [fid|] eqn:Hid; simpl in Hfr;
    rewrite Hfr in Hin; [| by apply not_elem_of_empty in Hin].
  apply elem_of_singleton in Hin. subst fid.
  apply loop_inv_animate; simpl.
  - rewrite Hfr. apply difference_diag_L.
  - destruct (isActive this); [reflexivity |]. by specialize (Hidle eq_refl).
Qed.

Lemma loop_inv_new c o b s : frames b = ∅ -> new c o b = inr s -> loop_inv s.
Proof.
  intros Hfr Hnew. unfold new in Hnew.
  destruct (resolve b c) as [el|]; [| discriminate].
  assert (Hs : s = init
    ({| container := el; options := spread default_options o; layers := [];
        mouse := {| x := 0; y := 0 |}; targetMouse := {| x := 0; y := 0 |};
        scroll := 0; targetScroll := 0; bounds := None;
        animationFrameId := None; isActive := false |}, b)) by congruence.
  rewrite Hs. clear Hnew Hs. unfold init. cbv zeta.
  apply loop_inv_start. split; simpl.
  - repeat match goal with |- context [if ?c then _ else _] => destruct c end;
      simpl; exact Hfr.
  - reflexivity.
Qed.

Theorem reachable_loop_inv (s : State) : SuperParallax.reachable s -> loop_inv s.
Proof.
  induction 1 as [c o b s Hfr Hnew | | | | s el d ss ms _ IH | s v _ IH | s o _ IH
                 | s _ IH | s top _ IH | s _ IH | s e s' _ IH Hmove | s _ IH | ].
  - eapply loop_inv_new; eassumption.
  - by apply loop_inv_start.
  - by apply loop_inv_stop.
  - by apply loop_inv_destroy.
  - destruct s as [this b]. exact IH.
  - destruct s as [this b]. unfold removeLayer.
    destruct (negb _); exact IH.
  - destruct s as [this b]. exact IH.
  - destruct s as [this b]. exact IH.
  - destruct s as [this b]. exact IH.
  - destruct s as [this b]. exact IH.
  - destruct s as [this b]. unfold handleMouseMove in Hmove. simpl in Hmove.
    destruct (bounds this) as [r|] eqn:Hb; simpl in Hmove.
    + rewrite Hb in Hmove.
      destruct (centerMouse (options this));
        repeat (match type of Hmove with context [div ?a ?c] => destruct (div a c) end);
        try discriminate; injection Hmove as <-; exact IH.
    + destruct (centerMouse (options this));
        repeat (match type of Hmove with context [div ?a ?c] => destruct (div a c) end);
        try discriminate; injection Hmove as <-; exact IH.
  - destruct s as [this b]. exact IH.
  - by apply loop_inv_frame.
Qed.
End Loop2D.

Section Loop3D.
Import Js Dom SuperParallax3D.

Lemma stop3d_inactive (s : State) :
  isActive (fst (stop s)) = false /\ animationFrameId (fst (stop s)) = None.
Proof.
  destruct s as [this w]. unfold stop. simpl.
  destruct (animationFrameId this) eqn:Hid; simpl; auto.
Qed.
End Loop3D.

Lemma stop2d_twice (s : SuperParallax.State) :
  SuperParallax.stop (SuperParallax.stop s) = SuperParallax.stop s.
Proof.
  destruct s as [this b]. unfold SuperParallax.stop. simpl.
  destruct (SuperParallax.animationFrameId this) eqn:Hid; simpl; [reflexivity |].
  rewrite Hid. reflexivity.
Qed.

Lemma stop3d_twice (s : SuperParallax3D.State) :
  SuperParallax3D.stop (SuperParallax3D.stop s) = SuperParallax3D.stop s.
Proof.
  destruct s as [this w]. unfold SuperParallax3D.stop. simpl.
  destruct (SuperParallax3D.animationFrameId this) eqn:Hid; simpl; [reflexivity |].
  rewrite Hid. reflexivity.
Qed.

Lemma stop2d_cancels (s : SuperParallax.State) (id : positive) :
  SuperParallax.animationFrameId (fst s) = Some id ->
  id ∉ Dom.frames (snd (SuperParallax.stop s)).
Proof.
  destruct s as [this b]. simpl. intros Hid. unfold SuperParallax.stop. simpl.
  rewrite Hid. simpl. intros Hin. apply elem_of_difference in Hin as [_ Hne].
  apply Hne. by apply elem_of_singleton.
Qed.

Lemma stop3d_cancels (s : SuperParallax3D.State) (id : positive) :
  SuperParallax3D.animationFrameId (fst s) = Some id ->
  id ∉ Dom.frames (SuperParallax3D.browser (snd (SuperParallax3D.stop s))).
Proof.
  destruct s as [this w]. simpl. intros Hid. unfold SuperParallax3D.stop. simpl.
  rewrite Hid. simpl. intros Hin. apply elem_of_difference in Hin as [_ Hne].
  apply Hne. by apply elem_of_singleton.
Qed.

Lemma stop2d_no_pending (s : SuperParallax.State) :
  SuperParallax.reachable s -> Dom.frames (snd (SuperParallax.stop s)) = ∅.
Proof.
  intros Hr. apply reachable_loop_inv, loop_inv_stop in Hr.
  destruct Hr as [Hfr _]. rewrite Hfr.
  destruct (stop_inactive s) as [_ ->]. reflexivity.
Qed.

Lemma new_running2d :
  SuperParallax.new (Dom.Selector ".parallax-container") SuperParallax.no_options Example.browser0
  = inr Example.running2d.
Proof. lazy. reflexivity. Qed.

Lemma running2d_reachable : SuperParallax.reachable Example.running2d.
Proof.
  apply (SuperParallax.reach_new (Dom.Selector ".parallax-container") SuperParallax.no_options Example.browser0).
  - reflexivity.
  - exact new_running2d.
Qed.

(** C7. [stop()] is idempotent: a second call leaves the instance and the
    browser exactly as the first one did.  After any call the controller is
    idle and holds no frame handle, the frame it held is no longer pending,
    and for a controller driven through its interface no frame is pending at
    all.  The 3D controller's [stop()] is idempotent as well. *)
Theorem stop_is_idempotent :
  (forall s : SuperParallax.State,
      SuperParallax.stop (SuperParallax.stop s) = SuperParallax.stop s
      /\ SuperParallax.isActive (fst (SuperParallax.stop s)) = false
      /\ SuperParallax.animationFrameId (fst (SuperParallax.stop s)) = None)
  /\ (forall (s : SuperParallax.State) (id : positive),
        SuperParallax.animationFrameId (fst s) = Some id ->
        id ∉ Dom.frames (snd (SuperParallax.stop s)))
  /\ (forall s : SuperParallax.State,
        SuperParallax.reachable s -> Dom.frames (snd (SuperParallax.stop s)) = ∅)
  /\ (forall s : SuperParallax3D.State,
        SuperParallax3D.stop (SuperParallax3D.stop s) = SuperParallax3D.stop s).
Proof.
  split; [| split; [| split]].
  - intros s. split; [apply stop2d_twice | apply stop_inactive].
  - apply stop2d_cancels.
  - apply stop2d_no_pending.
  - apply stop3d_twice.
Qed.

Lemma stop_is_idempotent_witness :
  SuperParallax.animationFrameId (fst Example.running2d) = Some 1%positive
  /\ (1%positive ∉ Dom.frames (snd (SuperParallax.stop Example.running2d)))
  /\ Dom.frames (snd (SuperParallax.stop Example.running2d)) = ∅.
Proof.
  assert (Hid : SuperParallax.animationFrameId (fst Example.running2d) = Some 1%positive)
    by (vm_compute; reflexivity).
  split; [exact Hid |]. split.
  - exact (proj1 (proj2 stop_is_idempotent) Example.running2d 1%positive Hid).
  - exact (proj1 (proj2 (proj2 stop_is_idempotent)) Example.running2d running2d_reachable).
Defined.

Lemma animate2d_idle (s : SuperParallax.State) :
  SuperParallax.isActive (fst s) = false -> SuperParallax.animate s = s.
Proof.
  destruct s as [this b]. simpl. intros Hidle.
  unfold SuperParallax.animate. rewrite Hidle. reflexivity.
Qed.

Lemma animate3d_idle (s : SuperParallax3D.State) :
  SuperParallax3D.isActive (fst s) = false -> SuperParallax3D.animate s = s.
Proof.
  destruct s as [this w]. simpl. intros Hidle.
  unfold SuperParallax3D.animate. rewrite Hidle. reflexivity.
Qed.

(** A frame that the browser still runs after [stop()] changes nothing but
    the pending set, from which its handle is gone: the instance, every
    style and the next handle are as [stop()] left them. *)
Lemma frame_after_stop (s : SuperParallax.State) (id : positive) :
  let idle := SuperParallax.stop s in
  let s' := SuperParallax.frame id idle in
  fst s' = fst idle
  /\ Dom.style_transform (snd s') = Dom.style_transform (snd idle)
  /\ Dom.nextFrame (snd s') = Dom.nextFrame (snd idle)
  /\ Dom.frames (snd s') = Dom.frames (snd idle) ∖ {[id]}.
Proof.
  cbv zeta. destruct (stop_inactive s) as [Hidle _].
  destruct (SuperParallax.stop s) as [this b]. unfold SuperParallax.frame.
  case_bool_decide as Hin.
  - rewrite animate2d_idle by exact Hidle. simpl. auto.
  - simpl. repeat split. symmetry. apply difference_disjoint_L.
    by apply disjoint_singleton_r.
Qed.

(** C10. When [animate] is called on a controller that is not active, in
    either variant, it returns the state it was given: the smoothed scroll
    and pointer, every style, mesh and camera, and the pending frames and
    next frame handle are all unchanged. *)
Theorem animate_while_idle_is_noop :
  (forall s : SuperParallax.State,
      SuperParallax.isActive (fst s) = false -> SuperParallax.animate s = s)
  /\ (forall s : SuperParallax3D.State,
        SuperParallax3D.isActive (fst s) = false -> SuperParallax3D.animate s = s).
Proof. split; [apply animate2d_idle | apply animate3d_idle]. Qed.

Lemma animate_while_idle_is_noop_witness :
  SuperParallax.animate (SuperParallax.stop Example.running2d)
    = SuperParallax.stop Example.running2d
  /\ SuperParallax3D.animate (SuperParallax3D.stop Example.running3d)
    = SuperParallax3D.stop Example.running3d.
Proof.
  split.
  - apply (proj1 animate_while_idle_is_noop). apply stop_inactive.
  - apply (proj2 animate_while_idle_is_noop). apply stop3d_inactive.
Defined.

(** ** The offset of a layer *)

Section Offsets.
Import Js Dom SuperParallax.
Local Open Scope Q_scope.

(** A [forEach] that writes one style per item leaves, for an item that is
    the last with its key, the value of that item. *)
Lemma foldl_style_last {A} (g : Browser -> A -> Browser) (key : A -> Element) (val : A -> css)
    (l : list A) (b : Browser) (i : nat) (a : A) :
  (forall b a, style_transform (g b a) = <[key a := val a]> (style_transform b)) ->
  l !! i = Some a ->
  (forall j a', (i < j)%nat -> l !! j = Some a' -> key a' <> key a) ->
  style_transform (foldl g b l) !! key a = Some (val a).
Proof.
  intros Hg. revert i. induction l as [|a0 l IH] using rev_ind; intros i Hi Hlast.
  - rewrite lookup_nil in Hi. discriminate.
  - rewrite foldl_app. simpl. rewrite Hg.
    destruct (decide (i = length l)) as [-> | Hne].
    + rewrite lookup_app_r, Nat.sub_diag in Hi by lia. simpl in Hi.
      injection Hi as ->. apply lookup_insert_eq.
    + assert (Hlt : (i < length l)%nat).
      { apply lookup_lt_Some in Hi. rewrite length_app in Hi. simpl in Hi. lia. }
      rewrite lookup_app_l in Hi by exact Hlt.
      rewrite lookup_insert_ne.
      * apply (IH i Hi). intros j a' Hj Ha'. apply (Hlast j a' Hj).
        rewrite lookup_app_l; [exact Ha' |]. by apply lookup_lt_Some in Ha'.
      * apply (Hlast (length l) a0 Hlt).
        rewrite lookup_app_r, Nat.sub_diag by lia. reflexivity.
Qed.

(** The style that [animate] leaves on the element of a layer is the value
    the body of its loop computes from the smoothed state of that tick. *)
Lemma animate_writes_layerTransform (s : State) (i : nat) (l : Layer) :
  isActive (fst s) = true ->
  registered_last (layers (fst s)) i l ->
  transform_of (snd (animate s)) (element l) = layerTransform (fst (animate s)) l.
Proof.
  destruct s as [this b]. simpl. intros Hact [Hi Hlast].
  unfold animate. rewrite Hact. simpl. unfold transform_of. simpl.
  match goal with |- context [foldl ?g b ?ls] =>
    rewrite (foldl_style_last g element
               (layerTransform
                  (set_mouse
                     {| x := lerp (x (mouse this)) (x (targetMouse this)) (smoothing (options this));
                        y := lerp (y (mouse this)) (y (targetMouse this)) (smoothing (options this)) |}
                     (set_scroll (lerp (scroll this) (targetScroll this) (smoothing (options this)))
                        this)))
               ls b i l)
  end; [reflexivity | reflexivity | exact Hi | exact Hlast].
Qed.

Lemma layerTransform_both (this : t) (l : Layer) :
  axis l = "both"%string ->
  translation (layerTransform this l) =
    (x (mouse this) * mouseSpeed l * mouseMultiplier (options this) * 50,
     - (scroll this * scrollSpeed l * scrollMultiplier (options this) * (1 # 2))
     + y (mouse this) * mouseSpeed l * mouseMultiplier (options this) * 50).
Proof.
  intros H. unfold layerTransform. rewrite H. simpl.
  destruct (truthy_str (initialTransform l)); reflexivity.
Qed.

Lemma layerTransform_x (this : t) (l : Layer) :
  axis l = "x"%string ->
  translation (layerTransform this l) =
    (x (mouse this) * mouseSpeed l * mouseMultiplier (options this) * 50,
     - (scroll this * scrollSpeed l * scrollMultiplier (options this) * (1 # 2))).
Proof.
  intros H. unfold layerTransform. rewrite H. simpl.
  destruct (truthy_str (initialTransform l)); reflexivity.
Qed.

Lemma layerTransform_y (this : t) (l : Layer) :
  axis l = "y"%string ->
  translation (layerTransform this l) =
    (0,
     - (scroll this * scrollSpeed l * scrollMultiplier (options this) * (1 # 2))
     + y (mouse this) * mouseSpeed l * mouseMultiplier (options this) * 50).
Proof.
  intros H. unfold layerTransform. rewrite H. simpl.
  destruct (truthy_str (initialTransform l)); reflexivity.
Qed.

(** With any other mask the vertical offset is the scroll part for ['x'],
    and zero otherwise. *)
Lemma layerTransform_other (this : t) (l : Layer) :
  axis l <> "y"%string -> axis l <> "both"%string ->
  snd (translation (layerTransform this l))
  = if String.eqb (axis l) "x"
    then - (scroll this * scrollSpeed l * scrollMultiplier (options this) * (1 # 2))
    else 0.
Proof.
  intros Hy Hboth. unfold layerTransform. simpl.
  destruct (String.eqb_spec (axis l) "both"); [contradiction |].
  destruct (String.eqb_spec (axis l) "y"); [contradiction |].
  simpl. destruct (String.eqb (axis l) "x"), (truthy_str (initialTransform l)); reflexivity.
Qed.

(** The vertical offset a tick writes for a layer with such a mask is the
    same whatever the pointer's [y] and its target are. *)
Lemma animate_other_ignores_pointer_y (s : State) (i : nat) (l : Layer) (py tpy : Q) :
  isActive (fst s) = true ->
  registered_last (layers (fst s)) i l ->
  axis l <> "y"%string -> axis l <> "both"%string ->
  let s2 :=
    (set_targetMouse {| x := x (targetMouse (fst s)); y := tpy |}
       (set_mouse {| x := x (mouse (fst s)); y := py |} (fst s)), snd s) in
  snd (translation (transform_of (snd (animate s2)) (element l)))
  = snd (translation (transform_of (snd (animate s)) (element l))).
Proof.
  intros Hact Hlast Hy Hboth. cbv zeta.
  rewrite (animate_writes_layerTransform s i l Hact Hlast).
  rewrite (animate_writes_layerTransform _ i l); [| exact Hact | exact Hlast].
  rewrite !layerTransform_other by assumption.
  destruct s as [this b]. cbn [fst snd] in *.
  destruct (animate_active this b Hact) as (Hs & _ & _ & _ & Ho & _).
  match goal with |- context [animate (?c, b)] =>
    destruct (animate_active c b Hact) as (Hs2 & _ & _ & _ & Ho2 & _)
  end.
  rewrite Hs, Ho, Hs2, Ho2. reflexivity.
Qed.
End Offsets.

(** C2. After a tick of a running controller, the style of a layer's element
    carries the offset of the specification, computed from the smoothed
    state of that tick: [scrollOffset = scroll * scrollSpeed *
    scrollMultiplier * SCROLL_SCALE] with [SCROLL_SCALE = 0.5] and
    [pointerOffset = pointer * mouseSpeed * mouseMultiplier * POINTER_SCALE]
    with [POINTER_SCALE = 50]; the vertical component is [- scrollOffset]
    plus the pointer part the mask lets through.  For a layer with scroll
    speed 1 and mouse speed 0, a scroll multiplier of 1 and a smoothed scroll
    of 100 the vertical offset is [-(100 * 1 * 1 * SCROLL_SCALE)], that is
    [-50]. *)
Theorem animate_applies_offset_formula
    (s : SuperParallax.State) (i : nat) (l : SuperParallax.Layer) :
  SuperParallax.isActive (fst s) = true ->
  registered_last (SuperParallax.layers (fst s)) i l ->
  let this' := fst (SuperParallax.animate s) in
  let scrollOffset :=
    Spec.scrollOffset (SuperParallax.scroll this') (SuperParallax.scrollSpeed l)
      (SuperParallax.scrollMultiplier (SuperParallax.options this')) in
  let pointerOffsetX :=
    Spec.pointerOffset (SuperParallax.x (SuperParallax.mouse this')) (SuperParallax.mouseSpeed l)
      (SuperParallax.mouseMultiplier (SuperParallax.options this')) in
  let pointerOffsetY :=
    Spec.pointerOffset (SuperParallax.y (SuperParallax.mouse this')) (SuperParallax.mouseSpeed l)
      (SuperParallax.mouseMultiplier (SuperParallax.options this')) in
  let written :=
    translation (Dom.transform_of (snd (SuperParallax.animate s)) (SuperParallax.element l)) in
  (SuperParallax.axis l = "both"%string ->
     written = (pointerOffsetX, (- scrollOffset + pointerOffsetY)%Q))
  /\ (SuperParallax.axis l = "x"%string -> written = (pointerOffsetX, (- scrollOffset)%Q))
  /\ (SuperParallax.axis l = "y"%string ->
        written = (0%Q, (- scrollOffset + pointerOffsetY)%Q))
  /\ (SuperParallax.axis l = "both"%string \/ SuperParallax.axis l = "x"%string
        \/ SuperParallax.axis l = "y"%string ->
      (SuperParallax.scrollSpeed l == 1)%Q ->
      (SuperParallax.mouseSpeed l == 0)%Q ->
      (SuperParallax.scrollMultiplier (SuperParallax.options this') == 1)%Q ->
      (SuperParallax.scroll this' == 100)%Q ->
      (snd written == - (100 * 1 * 1 * Spec.SCROLL_SCALE))%Q /\ (snd written == - 50)%Q).
Proof.
  intros Hact Hlast. cbv zeta.
  rewrite (animate_writes_layerTransform s i l Hact Hlast).
  set (this' := fst (SuperParallax.animate s)).
  pose proof (layerTransform_both this' l) as Hboth.
  pose proof (layerTransform_x this' l) as Hx.
  pose proof (layerTransform_y this' l) as Hy.
  split; [exact Hboth |]. split; [exact Hx |]. split; [exact Hy |].
  intros Haxis Hss Hms Hsm Hsc.
  assert (Hv : (snd (translation (SuperParallax.layerTransform this' l)) ==
                - (SuperParallax.scroll this' * SuperParallax.scrollSpeed l
                   * SuperParallax.scrollMultiplier (SuperParallax.options this') * (1 # 2)))%Q).
  { destruct Haxis as [H | [H | H]].
    - rewrite (Hboth H). simpl. rewrite Hms. ring.
    - rewrite (Hx H). simpl. reflexivity.
    - rewrite (Hy H). simpl. rewrite Hms. ring. }
  rewrite Hv, Hss, Hsm, Hsc. unfold Spec.SCROLL_SCALE. split; [reflexivity | ring].
Qed.

Lemma animate_applies_offset_formula_witness :
  (snd (translation (Dom.transform_of (snd (SuperParallax.animate Example.at100)) 3%nat))
   == - 50)%Q.
Proof.
  assert (Hact : SuperParallax.isActive (fst Example.at100) = true)
    by (vm_compute; reflexivity).
  assert (Hls : SuperParallax.layers (fst Example.at100) !! 2%nat = Some (fst Example.added))
    by (vm_compute; reflexivity).
  assert (Hlen : length (SuperParallax.layers (fst Example.at100)) = 3%nat)
    by (vm_compute; reflexivity).
  assert (Hlast : registered_last (SuperParallax.layers (fst Example.at100)) 2 (fst Example.added)).
  { split; [exact Hls |]. intros j l' Hj Hl'. apply lookup_lt_Some in Hl'. lia. }
  refine (proj2 (proj2 (proj2 (proj2
    (animate_applies_offset_formula Example.at100 2 (fst Example.added) Hact Hlast))) _ _ _ _ _)).
  - left. reflexivity.
  - reflexivity.
  - reflexivity.
  - vm_compute. reflexivity.
  - vm_compute. reflexivity.
Defined.

(** C3. In the style that a tick of a running controller writes for a
    layer: with the mask ['x'] the vertical component is the scroll part
    alone and the horizontal component is the pointer part; with the mask
    ['y'] the horizontal component is exactly zero and the vertical one is
    the scroll part plus the pointer part; with ['both'] both pointer parts
    are there.  The pointer's [y] enters the vertical component with the
    masks ['y'] and ['both'] and with no other: for any other mask the tick
    writes the same vertical component whatever the pointer's [y] and its
    target are. *)
Theorem axis_mask_selects_contributions
    (s : SuperParallax.State) (i : nat) (l : SuperParallax.Layer) :
  SuperParallax.isActive (fst s) = true ->
  registered_last (SuperParallax.layers (fst s)) i l ->
  let this' := fst (SuperParallax.animate s) in
  let written :=
    translation (Dom.transform_of (snd (SuperParallax.animate s)) (SuperParallax.element l)) in
  let scrollOffset :=
    (SuperParallax.scroll this' * SuperParallax.scrollSpeed l
     * SuperParallax.scrollMultiplier (SuperParallax.options this') * (1 # 2))%Q in
  let mouseOffsetX :=
    (SuperParallax.x (SuperParallax.mouse this') * SuperParallax.mouseSpeed l
     * SuperParallax.mouseMultiplier (SuperParallax.options this') * 50)%Q in
  let mouseOffsetY :=
    (SuperParallax.y (SuperParallax.mouse this') * SuperParallax.mouseSpeed l
     * SuperParallax.mouseMultiplier (SuperParallax.options this') * 50)%Q in
  (SuperParallax.axis l = "x"%string -> written = (mouseOffsetX, (- scrollOffset)%Q))
  /\ (SuperParallax.axis l = "y"%string ->
        written = (0%Q, (- scrollOffset + mouseOffsetY)%Q))
  /\ (SuperParallax.axis l = "both"%string ->
        written = (mouseOffsetX, (- scrollOffset + mouseOffsetY)%Q))
  /\ (SuperParallax.axis l <> "y"%string -> SuperParallax.axis l <> "both"%string ->
      forall py tpy : Q,
        let s2 :=
          (SuperParallax.set_targetMouse
             {| SuperParallax.x := SuperParallax.x (SuperParallax.targetMouse (fst s));
                SuperParallax.y := tpy |}
             (SuperParallax.set_mouse
                {| SuperParallax.x := SuperParallax.x (SuperParallax.mouse (fst s));
                   SuperParallax.y := py |} (fst s)), snd s) in
        snd (translation
               (Dom.transform_of (snd (SuperParallax.animate s2)) (SuperParallax.element l)))
        = snd written).
Proof.
  intros Hact Hlast. cbv zeta.
  split; [| split; [| split]].
  - intros H. rewrite (animate_writes_layerTransform s i l Hact Hlast).
    by apply layerTransform_x.
  - intros H. rewrite (animate_writes_layerTransform s i l Hact Hlast).
    by apply layerTransform_y.
  - intros H. rewrite (animate_writes_layerTransform s i l Hact Hlast).
    by apply layerTransform_both.
  - intros Hy Hboth py tpy.
    exact (animate_other_ignores_pointer_y s i l py tpy Hact Hlast Hy Hboth).
Qed.

Lemma axis_mask_selects_contributions_witness :
  let written :=
    translation (Dom.transform_of (snd (SuperParallax.animate Example.pointed)) 1%nat) in
  (fst written == 5 # 2)%Q
  /\ (snd written == - 100)%Q
  /\ (SuperParallax.y (SuperParallax.mouse (fst (SuperParallax.animate Example.pointed)))
      == - (1 # 20))%Q.
Proof.
  cbv zeta.
  assert (Hact : SuperParallax.isActive (fst Example.pointed) = true)
    by (vm_compute; reflexivity).
  assert (Hls : SuperParallax.layers (fst Example.pointed) !! 0%nat
                = Some (SuperParallax.discover Example.browser0 1%nat))
    by (vm_compute; reflexivity).
  assert (Hlast : registered_last (SuperParallax.layers (fst Example.pointed)) 0
                    (SuperParallax.discover Example.browser0 1%nat)).
  { split; [exact Hls |]. intros j l' Hj Hl'.
    destruct j as [|[|[|j]]]; [lia | | |]; vm_compute in Hl'; try discriminate Hl';
      injection Hl' as <-; intros H; vm_compute in H; discriminate H. }
  pose proof (proj1 (axis_mask_selects_contributions Example.pointed 0
                      (SuperParallax.discover Example.browser0 1%nat) Hact Hlast) eq_refl) as Hw.
  cbv zeta in Hw. simpl (SuperParallax.element _) in Hw. rewrite Hw.
  cbn [fst snd]. split; [vm_compute; reflexivity |]. split; vm_compute; reflexivity.
Defined.

(** ** Convergence of the smoothing filter *)

Section Convergence.
Import Js Dom SuperParallax.
Local Open Scope Q_scope.

Lemma Qpower_succ_nat (q : Q) (n : nat) : q ^ Z.of_nat (S n) == q * q ^ Z.of_nat n.
Proof.
  rewrite Nat2Z.inj_succ, <- Z.add_1_l.
  rewrite Qpower_plus' by lia. rewrite Qpower_1_r. reflexivity.
Qed.

(** The decay factor is non-negative and at most [1 / (1 + n k)]. *)
Lemma decay_bound (k : Q) (n : nat) :
  0 < k -> k <= 1 ->
  0 <= (1 - k) ^ Z.of_nat n
  /\ (1 - k) ^ Z.of_nat n * (1 + inject_Z (Z.of_nat n) * k) <= 1.
Proof.
  intros Hpos Hle. induction n as [|n [IH0 IH1]].
  - change (Z.of_nat 0) with 0%Z. change (inject_Z 0) with 0. simpl. split; lra.
  - rewrite Qpower_succ_nat.
    assert (Hn : 0 <= inject_Z (Z.of_nat n)).
    { change 0 with (inject_Z 0). rewrite <- Zle_Qle. lia. }
    assert (HS : inject_Z (Z.of_nat (S n)) == inject_Z (Z.of_nat n) + 1).
    { rewrite Nat2Z.inj_succ. unfold Z.succ. rewrite inject_Z_plus. reflexivity. }
    rewrite HS.
    set (r := (1 - k) ^ Z.of_nat n) in *. set (m := inject_Z (Z.of_nat n)) in *.
    split; [nra |].
    assert (Hstep : (1 - k) * (1 + (m + 1) * k) <= 1 + m * k) by nra.
    assert (Hr : (1 - k) * (1 + (m + 1) * k) * r <= (1 + m * k) * r)
      by (apply Qmult_le_compat_r; assumption).
    lra.
Qed.

(** A geometric sequence gets below any positive bound. *)
Lemma geometric_decay (r c delta : Q) :
  0 < r -> r <= 1 -> 0 < delta ->
  exists N : nat, forall n : nat, (N <= n)%nat -> (1 - r) ^ Z.of_nat n * c < delta.
Proof.
  intros Hr0 Hr1 Hdelta.
  destruct (Qlt_le_dec 0 c) as [Hc | Hc].
  - destruct (Qarchimedean (c / (r * delta))) as [p Hp].
    assert (Hrd : 0 < r * delta) by nra.
    assert (Hcp : c < inject_Z (Z.pos p) * (r * delta)).
    { assert (Hc' : c == c / (r * delta) * (r * delta)) by (field; lra).
      rewrite Hc' at 1. apply Qmult_lt_compat_r; [exact Hrd | exact Hp]. }
    exists (Pos.to_nat p). intros n Hn.
    destruct (decay_bound r n Hr0 Hr1) as [Hg0 Hg1].
    assert (Hpn : inject_Z (Z.pos p) <= inject_Z (Z.of_nat n)).
    { rewrite <- Zle_Qle. lia. }
    set (g := (1 - r) ^ Z.of_nat n) in *. set (m := inject_Z (Z.of_nat n)) in *.
    set (q := inject_Z (Z.pos p)) in *.
    assert (Hq : 0 < q) by (unfold q, inject_Z; reflexivity).
    assert (Hm : 0 < 1 + m * r) by nra.
    assert (H1 : g * c * (1 + m * r) <= c).
    { assert (g * (1 + m * r) * c <= 1 * c) by (apply Qmult_le_compat_r; lra). lra. }
    assert (H2 : c < delta * (1 + m * r)) by nra.
    apply (Qmult_lt_r _ _ (1 + m * r) Hm). lra.
  - exists 0%nat. intros n _.
    destruct (decay_bound r n Hr0 Hr1) as [Hg0 _].
    set (g := (1 - r) ^ Z.of_nat n) in *. nra.
Qed.

Lemma Qabs_bound (x y : Q) : Qabs x <= y -> - y <= x /\ x <= y.
Proof. intros H. apply Qabs_Qle_condition in H. exact H. Qed.

Lemma Qabs_of_bound (x y : Q) : - y <= x -> x <= y -> Qabs x <= y.
Proof. intros H1 H2. apply Qabs_Qle_condition. split; assumption. Qed.

Lemma scale_bound (x X c : Q) :
  - X <= x -> x <= X -> 0 <= c -> - (X * c) <= x * c /\ x * c <= X * c.
Proof. intros H1 H2 Hc. split; nra. Qed.

Section Step.
Variables (rnd : Q -> Q) (u eta Omega : Q).
Hypothesis Hrnd : standard_model rnd u eta Omega.
Hypothesis Hu0 : 0 <= u.
Hypothesis Hu1 : u <= 1.
Hypothesis Heta : 0 <= eta.

(** One [lerp] in rounded arithmetic: the three rounding errors are carried
    through [start + (end - start) * factor]. *)
Lemma lerp_rounded_step (x t k E M : Q) :
  0 < k -> k <= 1 -> Qabs t <= M -> Qabs (t - x) <= E -> M + 3 * E + 3 * eta <= Omega ->
  Qabs (t - Rounded.lerp rnd x t k) <= (1 - rate u k) * Qabs (t - x) + drift u eta k M.
Proof.
  intros Hk0 Hk1 HM HE HO.
  unfold Rounded.lerp, Rounded.add, Rounded.mul, Rounded.sub.
  set (d := t - x) in *.
  set (e := Qabs d) in *.
  assert (He0 : 0 <= e) by apply Qabs_nonneg.
  assert (HM0 : 0 <= M) by (pose proof (Qabs_nonneg t); lra).
  destruct (Qabs_bound d e (Qle_refl _)) as [Hd1 Hd2].
  assert (Ha : Qabs (rnd d - d) <= u * e + eta) by (apply Hrnd; fold e; lra).
  set (a := rnd d) in *.
  apply Qabs_bound in Ha. destruct Ha as [Ha1 Ha2].
  set (ue := u * e) in *.
  assert (Hue0 : 0 <= ue) by (unfold ue; nra).
  assert (Hue1 : ue <= e) by (unfold ue; nra).
  set (A := e + ue + eta).
  assert (HaA : - A <= a /\ a <= A) by (unfold A; lra).
  destruct (scale_bound a A k (proj1 HaA) (proj2 HaA)) as [Hp1 Hp2]; [lra |].
  assert (HAk : A * k <= A) by (unfold A; nra).
  assert (Hpabs : Qabs (a * k) <= A) by (apply Qabs_of_bound; lra).
  assert (Hb : Qabs (rnd (a * k) - a * k) <= u * Qabs (a * k) + eta).
  { apply Hrnd. unfold A in Hpabs. lra. }
  set (b := rnd (a * k)) in *.
  assert (HuA : u * Qabs (a * k) <= u * A) by (pose proof (Qabs_nonneg (a * k)); nra).
  apply Qabs_bound in Hb. destruct Hb as [Hb1 Hb2].
  set (uA := u * A) in *.
  set (D := e - e * k + (ue + eta) * k + uA + eta).
  assert (Hdk : - (e * (1 - k)) <= d * (1 - k) /\ d * (1 - k) <= e * (1 - k)).
  { apply scale_bound; lra. }
  assert (Hak : - ((ue + eta) * k) <= (a - d) * k /\ (a - d) * k <= (ue + eta) * k).
  { apply scale_bound; lra. }
  assert (Hdb : - D <= d - b /\ d - b <= D).
  { unfold D.
    assert (Heq : d - b == d * (1 - k) - (a - d) * k - (b - a * k)) by ring.
    rewrite Heq. lra. }
  assert (Hy : x + b == t - (d - b)) by (unfold d; ring).
  assert (Ht : - M <= t /\ t <= M) by (apply Qabs_bound; exact HM).
  assert (HD0 : 0 <= D) by lra.
  assert (HDbound : D <= 3 * E + 3 * eta).
  { unfold D, uA, A.
    assert (u * (e + ue + eta) <= e + ue + eta) by nra.
    assert (e * k <= e) by nra. assert (0 <= e * k) by nra.
    assert ((ue + eta) * k <= ue + eta) by nra.
    nra. }
  assert (Hyabs : Qabs (x + b) <= M + D) by (apply Qabs_of_bound; lra).
  assert (Hg : Qabs (rnd (x + b) - (x + b)) <= u * Qabs (x + b) + eta).
  { apply Hrnd. lra. }
  assert (HuY : u * Qabs (x + b) <= u * M + u * D) by (pose proof (Qabs_nonneg (x + b)); nra).
  apply Qabs_bound in Hg. destruct Hg as [Hg1 Hg2].
  assert (Hgoal : (1 - rate u k) * e + drift u eta k M == (1 + u) * D + u * M + eta).
  { unfold rate, drift, D, uA, A, ue. ring. }
  rewrite Hgoal. apply Qabs_of_bound; lra.
Qed.

Lemma rate_le_1 (k : Q) : 0 < k -> k <= 1 -> rate u k <= 1.
Proof. intros Hk0 Hk1. unfold rate. nra. Qed.

(** The distance after [n] rounded steps. *)
Lemma chase_rounded_bound (x t k E M : Q) (n : nat) :
  0 < k -> k <= 1 -> 0 < rate u k ->
  Qabs t <= M -> Qabs (t - x) <= E -> tolerance u eta k M <= E ->
  M + 3 * E + 3 * eta <= Omega ->
  Qabs (t - chase rnd t k n x) <= E
  /\ Qabs (t - chase rnd t k n x) - tolerance u eta k M
     <= (1 - rate u k) ^ Z.of_nat n * (Qabs (t - x) - tolerance u eta k M).
Proof.
  intros Hk0 Hk1 Hr HM HE HT HO. unfold chase.
  pose proof (rate_le_1 k Hk0 Hk1) as Hr1.
  assert (Hdrift : drift u eta k M == tolerance u eta k M * rate u k).
  { unfold tolerance. field. lra. }
  induction n as [|n [IH1 IH2]].
  - simpl. split; [exact HE |]. lra.
  - simpl Nat.iter. set (xn := Nat.iter n (fun c => Rounded.lerp rnd c t k) x) in *.
    pose proof (lerp_rounded_step xn t k E M Hk0 Hk1 HM IH1 HO) as Hstep.
    rewrite Hdrift in Hstep. rewrite Qpower_succ_nat.
    set (e' := Qabs (t - Rounded.lerp rnd xn t k)) in *. set (en := Qabs (t - xn)) in *.
    set (T := tolerance u eta k M) in *. set (r := rate u k) in *.
    set (g := (1 - r) ^ Z.of_nat n) in *. set (e0 := Qabs (t - x)) in *.
    split; [nra |].
    assert (H1 : (1 - r) * (en - T) <= (1 - r) * (g * (e0 - T))) by nra.
    lra.
Qed.

(** Below any bound above the tolerance from some tick on. *)
Lemma chase_rounded_converges (x t k E M eps : Q) :
  0 < k -> k <= 1 -> 0 < rate u k ->
  Qabs t <= M -> Qabs (t - x) <= E -> tolerance u eta k M <= E ->
  M + 3 * E + 3 * eta <= Omega ->
  tolerance u eta k M < eps ->
  exists N : nat, forall n : nat, (N <= n)%nat -> Qabs (t - chase rnd t k n x) < eps.
Proof.
  intros Hk0 Hk1 Hr HM HE HT HO Heps.
  destruct (geometric_decay (rate u k) (Qabs (t - x) - tolerance u eta k M)
              (eps - tolerance u eta k M) Hr (rate_le_1 k Hk0 Hk1)) as [N HN]; [lra |].
  exists N. intros n Hn.
  destruct (chase_rounded_bound x t k E M n Hk0 Hk1 Hr HM HE HT HO) as [_ Hb].
  specialize (HN n Hn). lra.
Qed.
End Step.

(** The instance after a rounded tick of a running controller. *)
Lemma rounded_animate_active (rnd : Q -> Q) (this : t) (b : Browser) :
  isActive this = true ->
  let this' := fst (Rounded.animate rnd (this, b)) in
  scroll this' = Rounded.lerp rnd (scroll this) (targetScroll this) (smoothing (options this))
  /\ x (mouse this')
     = Rounded.lerp rnd (x (mouse this)) (x (targetMouse this)) (smoothing (options this))
  /\ y (mouse this')
     = Rounded.lerp rnd (y (mouse this)) (y (targetMouse this)) (smoothing (options this))
  /\ targetScroll this' = targetScroll this
  /\ targetMouse this' = targetMouse this
  /\ options this' = options this
  /\ isActive this' = true.
Proof.
  intros Hact. cbv zeta. unfold Rounded.animate. rewrite Hact. cbn [negb]. cbv zeta.
  unfold requestAnimationFrame. cbn [fst]. repeat split; try reflexivity. exact Hact.
Qed.

(** Rounded ticks of a running controller, with no event in between, move
    each smoothed scalar as [chase] does and leave the targets, the options
    and the activity alone. *)
Lemma rounded_iter_animate (rnd : Q -> Q) (s : State) (n : nat) :
  isActive (fst s) = true ->
  let this := fst s in
  let k := smoothing (options this) in
  let this' := fst (Nat.iter n (Rounded.animate rnd) s) in
  isActive this' = true
  /\ options this' = options this
  /\ targetScroll this' = targetScroll this
  /\ targetMouse this' = targetMouse this
  /\ scroll this' = chase rnd (targetScroll this) k n (scroll this)
  /\ x (mouse this') = chase rnd (x (targetMouse this)) k n (x (mouse this))
  /\ y (mouse this') = chase rnd (y (targetMouse this)) k n (y (mouse this)).
Proof.
  intros Hact. cbv zeta. induction n as [|n IH].
  - simpl. repeat split; auto.
  - destruct IH as (Ha & Ho & Hts & Htm & Hs & Hx & Hy).
    simpl Nat.iter. destruct (Nat.iter n (Rounded.animate rnd) s) as [this' b'].
    cbn [fst] in Ha, Ho, Hts, Htm, Hs, Hx, Hy.
    destruct (rounded_animate_active rnd this' b' Ha)
      as (Hs' & Hx' & Hy' & Hts' & Htm' & Ho' & Ha').
    rewrite Ha', Ho', Hts', Htm', Hs', Hx', Hy'.
    rewrite Ho, Hts, Htm, Hs, Hx, Hy. unfold chase. simpl Nat.iter.
    repeat split; reflexivity.
Qed.

(** With the rounding left out, the rounded tick is the tick of
    [SuperParallax]. *)
Lemma unrounded_animate (s : State) : Rounded.animate (fun x => x) s = animate s.
Proof. destruct s as [this b]. reflexivity. Qed.

(** A rounding that chops a fixed fraction off every result is within the
    standard model. *)
Lemma chopping_is_standard (u eta Omega : Q) :
  0 <= u -> 0 <= eta -> standard_model (fun x => x - x * u) u eta Omega.
Proof.
  intros Hu Heta x _.
  assert (E : x - x * u - x == - (x * u)) by ring.
  rewrite E, Qabs_opp, Qabs_Qmult, (Qabs_pos u Hu).
  pose proof (Qabs_nonneg x). nra.
Qed.
End Convergence.

Section Doubles.
Import PrimFloat FloatOps FloatAxioms SpecFloat.

(** A double that is neither NaN nor infinite is a zero or a finite number. *)
Lemma finite_cases (x : float) :
  is_finite x = true ->
  (exists s, Prim2SF x = S754_zero s) \/ (exists s m e, Prim2SF x = S754_finite s m e).
Proof.
  unfold is_finite, is_nan, is_infinity. rewrite !eqb_spec, abs_spec.
  replace (Prim2SF infinity) with (S754_infinity false) by (vm_compute; reflexivity).
  destruct (Prim2SF x) as [s | s | | s m e]; simpl.
  - intros _. left. eauto.
  - destruct s; simpl; discriminate.
  - discriminate.
  - intros _. right. eauto.
Qed.

Lemma SFeqb_refl_finite (s : bool) (m : positive) (e : Z) :
  SFeqb (S754_finite s m e) (S754_finite s m e) = true.
Proof.
  unfold SFeqb, SFcompare. rewrite Z.compare_refl, Pos.compare_cont_refl.
  destruct s; reflexivity.
Qed.

(** In doubles, [lerp] with the factor 0 returns its first argument when
    that and the difference are finite. *)
Lemma lerp_factor_zero (c t : float) :
  is_finite c = true -> is_finite (t - c) = true ->
  eqb (Binary64.lerp c t 0) c = true.
Proof.
  intros Hc Hd. unfold Binary64.lerp. rewrite eqb_spec, add_spec, mul_spec.
  replace (Prim2SF 0) with (S754_zero false) by (vm_compute; reflexivity).
  destruct (finite_cases _ Hc) as [[sc Ec] | (sc & mc & ec & Ec)];
    destruct (finite_cases _ Hd) as [[sd Ed] | (sd & md & ed & Ed)];
    rewrite Ec, Ed; simpl.
  - destruct sc, sd; reflexivity.
  - destruct sc, sd; reflexivity.
  - apply SFeqb_refl_finite.
  - apply SFeqb_refl_finite.
Qed.

(** Once a step returns its argument, every later step does. *)
Lemma chase64_fixed (target k x : float) (m : nat) :
  Binary64.lerp x target k = x -> chase64 target k m x = x.
Proof.
  intros Hfix. unfold chase64. induction m as [|m IH]; [reflexivity |].
  simpl Nat.iter. rewrite IH. exact Hfix.
Qed.

Lemma chase64_add (target k x : float) (m n : nat) :
  chase64 target k (m + n) x = chase64 target k m (chase64 target k n x).
Proof. unfold chase64. apply Nat.iter_add. Qed.
End Doubles.

(** C8, as the code has it.  The ticks of a running controller whose targets
    do not move, in floating-point arithmetic: every operation of [lerp] is
    rounded, with a relative error of at most [u] and, for tiny results, an
    absolute error of at most [eta], as long as no result exceeds [Omega].
    With the smoothing factor [k] in (0, 1] and large enough against [u]
    for [rate u k] to be positive, the distance of every smoothed scalar to
    its target, less the tolerance, shrinks by the factor [1 - rate u k] at
    least at every tick; so for every bound above the tolerance there is a
    tick from which all three distances stay below it.  [M] bounds the
    magnitude of the targets and [E] the initial distances.  In exact
    arithmetic, [u = eta = 0], the tolerance is 0 and [rate u k] is [k]. *)
Theorem smoothing_converges_up_to_rounding
    (rnd : Q -> Q) (u eta Omega M E : Q) (s : SuperParallax.State) :
  standard_model rnd u eta Omega ->
  (0 <= u)%Q -> (u <= 1)%Q -> (0 <= eta)%Q ->
  SuperParallax.isActive (fst s) = true ->
  let this := fst s in
  let k := SuperParallax.smoothing (SuperParallax.options this) in
  let tick n := fst (Nat.iter n (Rounded.animate rnd) s) in
  let d_scroll c := Qabs (SuperParallax.targetScroll this - SuperParallax.scroll c) in
  let d_x c :=
    Qabs (SuperParallax.x (SuperParallax.targetMouse this) - SuperParallax.x (SuperParallax.mouse c)) in
  let d_y c :=
    Qabs (SuperParallax.y (SuperParallax.targetMouse this) - SuperParallax.y (SuperParallax.mouse c)) in
  let T := tolerance u eta k M in
  (0 < k)%Q -> (k <= 1)%Q -> (0 < rate u k)%Q ->
  (Qabs (SuperParallax.targetScroll this) <= M)%Q ->
  (Qabs (SuperParallax.x (SuperParallax.targetMouse this)) <= M)%Q ->
  (Qabs (SuperParallax.y (SuperParallax.targetMouse this)) <= M)%Q ->
  (d_scroll this <= E)%Q -> (d_x this <= E)%Q -> (d_y this <= E)%Q ->
  (T <= E)%Q ->
  (M + 3 * E + 3 * eta <= Omega)%Q ->
  (forall n : nat,
      (d_scroll (tick n) - T <= (1 - rate u k) ^ Z.of_nat n * (d_scroll this - T))%Q
      /\ (d_x (tick n) - T <= (1 - rate u k) ^ Z.of_nat n * (d_x this - T))%Q
      /\ (d_y (tick n) - T <= (1 - rate u k) ^ Z.of_nat n * (d_y this - T))%Q)
  /\ (forall eps : Q, (T < eps)%Q ->
      exists N : nat, forall n : nat, (N <= n)%nat ->
        (d_scroll (tick n) < eps)%Q /\ (d_x (tick n) < eps)%Q /\ (d_y (tick n) < eps)%Q).
Proof.
  intros Hrnd Hu0 Hu1 Heta Hact. cbv zeta.
  intros Hk0 Hk1 Hr HMs HMx HMy HEs HEx HEy HT HO. split.
  - intros n. destruct (rounded_iter_animate rnd s n Hact) as (_ & _ & _ & _ & Hs & Hx & Hy).
    rewrite Hs, Hx, Hy.
    split; [| split];
      eapply (chase_rounded_bound rnd u eta Omega Hrnd Hu0 Hu1 Heta); eassumption.
  - intros eps Heps.
    destruct (chase_rounded_converges rnd u eta Omega Hrnd Hu0 Hu1 Heta
                (SuperParallax.scroll (fst s)) _ _ E M eps Hk0 Hk1 Hr HMs HEs HT HO Heps)
      as [N1 H1].
    destruct (chase_rounded_converges rnd u eta Omega Hrnd Hu0 Hu1 Heta
                (SuperParallax.x (SuperParallax.mouse (fst s))) _ _ E M eps
                Hk0 Hk1 Hr HMx HEx HT HO Heps) as [N2 H2].
    destruct (chase_rounded_converges rnd u eta Omega Hrnd Hu0 Hu1 Heta
                (SuperParallax.y (SuperParallax.mouse (fst s))) _ _ E M eps
                Hk0 Hk1 Hr HMy HEy HT HO Heps) as [N3 H3].
    exists (N1 + N2 + N3)%nat. intros n Hn.
    destruct (rounded_iter_animate rnd s n Hact) as (_ & _ & _ & _ & Hs & Hx & Hy).
    rewrite Hs, Hx, Hy.
    split; [apply H1; lia |]. split; [apply H2; lia | apply H3; lia].
Qed.

Lemma smoothing_converges_up_to_rounding_witness :
  exists N : nat, forall n : nat, (N <= n)%nat ->
    (Qabs (100 - SuperParallax.scroll
                   (fst (Nat.iter n
                           (Rounded.animate (fun x => x - x * (1 # 9007199254740992))%Q)
                           Example.jump)))
     < 1 # 1000000000000)%Q.
Proof.
  set (u := (1 # 9007199254740992)%Q).
  assert (Hu0 : (0 <= u)%Q) by (intros H; discriminate H).
  assert (Hu1 : (u <= 1)%Q) by (intros H; discriminate H).
  assert (Heta : (0 <= 2 ^ (-1075))%Q) by (intros H; discriminate H).
  destruct (smoothing_converges_up_to_rounding (fun x => x - x * u)%Q u (2 ^ (-1075))%Q
              (2 ^ 1023)%Q 100 100 Example.jump
              (chopping_is_standard u _ _ Hu0 Heta) Hu0 Hu1 Heta eq_refl)
    as [_ Hconv].
  - reflexivity.
  - intros H; discriminate H.
  - vm_compute. reflexivity.
  - intros H; discriminate H.
  - intros H; discriminate H.
  - intros H; discriminate H.
  - intros H; discriminate H.
  - intros H; discriminate H.
  - intros H; discriminate H.
  - vm_compute. intros H; discriminate H.
  - vm_compute. intros H; discriminate H.
  - destruct (Hconv (1 # 1000000000000)%Q) as [N HN]; [vm_compute; reflexivity |].
    exists N. intros n Hn. exact (proj1 (HN n Hn)).
Defined.

Section Stall.
Import PrimFloat.

(** C8, as it is stated, fails in doubles.  With the smoothing factor 0.1
    the scalar that starts at 0 and chases 100 is, after 400 ticks, at a
    double that [lerp] returns unchanged: it stays there for ever, more than
    [1e-14] short of the target, and no tick brings it within [1e-14].  With
    the factor [1e-17] the scalar that starts at 1 and chases 2 never
    moves. *)
Lemma smoothing_stalls_in_binary64 :
  let x := chase64 100 0.1 400 0 in
  Binary64.lerp x 100 0.1 = x
  /\ (forall n, (400 <= n)%nat -> chase64 100 0.1 n 0 = x)
  /\ ltb 1e-14 (100 - x) = true
  /\ ~ (exists N : nat, forall n : nat, (N <= n)%nat ->
          ltb (abs (chase64 100 0.1 n 0 - 100)) 1e-14 = true)
  /\ (forall n, chase64 2 1e-17 n 1 = 1%float).
Proof.
  cbv zeta.
  assert (Hfix : Binary64.lerp (chase64 100 0.1 400 0) 100 0.1 = chase64 100 0.1 400 0)
    by (vm_compute; reflexivity).
  assert (Hstay : forall n, (400 <= n)%nat -> chase64 100 0.1 n 0 = chase64 100 0.1 400 0).
  { intros n Hn. replace n with ((n - 400) + 400)%nat by lia.
    rewrite chase64_add. apply chase64_fixed. exact Hfix. }
  split; [exact Hfix |]. split; [exact Hstay |]. split; [vm_compute; reflexivity |].
  split.
  - intros [N HN]. specialize (HN (N + 400)%nat ltac:(lia)).
    rewrite Hstay in HN by lia. vm_compute in HN. discriminate HN.
  - intros n. apply chase64_fixed. vm_compute. reflexivity.
Qed.
End Stall.

(** ** The layer registry *)

Section Registry.
Import Js Dom SuperParallax.

Lemma findIndex_none {A} (p : A -> bool) (l : list A) :
  existsb p l = false -> findIndex p l = (-1)%Z.
Proof.
  induction l as [|a l IH]; simpl; [reflexivity |].
  destruct (p a); simpl; [discriminate |]. intros H. rewrite (IH H). reflexivity.
Qed.

Lemma findIndex_last {A} (p : A -> bool) (l : list A) (a : A) :
  existsb p l = false -> p a = true -> findIndex p (l ++ [a]) = Z.of_nat (length l).
Proof.
  intros Hl Ha. induction l as [|a0 l IH]; simpl in *.
  - rewrite Ha. reflexivity.
  - destruct (p a0); simpl in Hl; [discriminate |]. rewrite (IH Hl).
    destruct (Z.eqb_spec (Z.of_nat (length l)) (-1)); lia.
Qed.

Lemma splice1_last {A} (l : list A) (a : A) : splice1 (Z.of_nat (length l)) (l ++ [a]) = l.
Proof.
  unfold splice1. rewrite Nat2Z.id.
  induction l as [|a0 l IH]; simpl; [reflexivity |]. f_equal. exact IH.
Qed.

(** [removeLayer] never writes to the browser: no style is touched. *)
Lemma removeLayer_browser (v : Value) (s : State) : snd (removeLayer v s) = snd s.
Proof.
  destruct s as [this b]. unfold removeLayer.
  destruct (negb _); reflexivity.
Qed.

Lemma removeLayer_absent (v : Value) (s : State) :
  existsb (fun l => strict_eq (element l) v) (layers (fst s)) = false ->
  removeLayer v s = s.
Proof.
  destruct s as [this b]. simpl. intros H. unfold removeLayer.
  rewrite (findIndex_none _ _ H). reflexivity.
Qed.

Lemma addLayer_pushes (el : Element) (d ss ms : option Q) (s : State) :
  layers (fst (snd (addLayer el d ss ms s))) = layers (fst s) ++ [fst (addLayer el d ss ms s)]
  /\ element (fst (addLayer el d ss ms s)) = el
  /\ snd (snd (addLayer el d ss ms s)) = snd s.
Proof. destruct s as [this b]. simpl. auto. Qed.

Lemma addLayer_removeLayer_element (el : Element) (d ss ms : option Q) (s : State) :
  registered el (layers (fst s)) = false ->
  removeLayer (VElement el) (snd (addLayer el d ss ms s)) = s.
Proof.
  destruct s as [this b]. simpl. intros Hfree. unfold removeLayer. simpl.
  rewrite findIndex_last; [| exact Hfree | simpl; apply Nat.eqb_refl].
  destruct (Z.eqb_spec (Z.of_nat (length (layers this))) (-1)) as [Hneg | _]; [lia |].
  simpl. rewrite splice1_last. destruct this; reflexivity.
Qed.

Lemma removeLayer_handle_noop (v : Layer) (s : State) : removeLayer (VLayer v) s = s.
Proof.
  apply removeLayer_absent. induction (layers (fst s)); simpl; auto.
Qed.
End Registry.

(** C4, as the code has it.  [addLayer] returns the layer it appended, and
    removal is keyed by the element: for an element that has no layer yet,
    [addLayer(element, ...)] followed at once by [removeLayer(element)] gives
    back the state before [addLayer], registry and every style included.
    [removeLayer] leaves the state alone when no layer is attached to its
    argument, and that is the case for the object [addLayer] returned. *)
Theorem addLayer_then_removeLayer_roundtrip
    (el : Dom.Element) (d ss ms : option Q) (s : SuperParallax.State) :
  registered el (SuperParallax.layers (fst s)) = false ->
  let handle := fst (SuperParallax.addLayer el d ss ms s) in
  let s1 := snd (SuperParallax.addLayer el d ss ms s) in
  SuperParallax.layers (fst s1) = SuperParallax.layers (fst s) ++ [handle]
  /\ SuperParallax.element handle = el
  /\ snd s1 = snd s
  /\ SuperParallax.removeLayer (SuperParallax.VElement el) s1 = s
  /\ SuperParallax.removeLayer (SuperParallax.VLayer handle) s1 = s1
  /\ (forall v : SuperParallax.Value,
        existsb (fun l => SuperParallax.strict_eq (SuperParallax.element l) v)
          (SuperParallax.layers (fst s)) = false ->
        SuperParallax.removeLayer v s = s).
Proof.
  intros Hfree. cbv zeta.
  destruct (addLayer_pushes el d ss ms s) as (Hpush & Hel & Hb).
  split; [exact Hpush |]. split; [exact Hel |]. split; [exact Hb |].
  split; [by apply addLayer_removeLayer_element |].
  split; [apply removeLayer_handle_noop |].
  intros v Hv. by apply removeLayer_absent.
Qed.

Lemma addLayer_then_removeLayer_roundtrip_witness :
  SuperParallax.removeLayer (SuperParallax.VElement 3%nat) (snd Example.added)
  = Example.running2d.
Proof.
  assert (Hfree : registered 3%nat (SuperParallax.layers (fst Example.running2d)) = false)
    by (vm_compute; reflexivity).
  exact (proj1 (proj2 (proj2 (proj2
    (addLayer_then_removeLayer_roundtrip 3%nat (Some 1%Q) (Some 1%Q) (Some 0%Q)
       Example.running2d Hfree))))).
Defined.

(** C4, as it is stated, fails: [removeLayer] called with the handle that
    [addLayer] returned removes nothing, so the registry keeps the new
    layer and differs from the registry before [addLayer]. *)
Lemma removeLayer_on_returned_handle_keeps_layer :
  let handle := fst Example.added in
  let s1 := snd Example.added in
  SuperParallax.layers (fst (SuperParallax.removeLayer (SuperParallax.VLayer handle) s1))
    = SuperParallax.layers (fst Example.running2d) ++ [handle]
  /\ SuperParallax.layers (fst (SuperParallax.removeLayer (SuperParallax.VLayer handle) s1))
     <> SuperParallax.layers (fst Example.running2d).
Proof.
  cbv zeta. rewrite removeLayer_handle_noop.
  assert (H : SuperParallax.layers (fst (snd Example.added))
              = SuperParallax.layers (fst Example.running2d) ++ [fst Example.added])
    by apply addLayer_pushes.
  split; [exact H |]. rewrite H. intros Heq.
  apply (f_equal length) in Heq. rewrite length_app in Heq. simpl in Heq. lia.
Qed.

(** A layer added for an element that already has one: [removeLayer] then
    takes out the earlier layer, not the one just added. *)
Example removeLayer_takes_first_layer_of_element :
  let s1 := snd (SuperParallax.addLayer 1%nat None None None Example.running2d) in
  SuperParallax.element
    <$> SuperParallax.layers (fst (SuperParallax.removeLayer (SuperParallax.VElement 1%nat) s1))
  = [2%nat; 1%nat].
Proof. vm_compute. reflexivity. Qed.

(** A layer removed after a tick: its element keeps the offset of that
    tick, no style is written back. *)
Example removeLayer_leaves_offset_in_place :
  let s := SuperParallax.removeLayer (SuperParallax.VElement 3%nat) Example.at100 in
  SuperParallax.element <$> SuperParallax.layers (fst s) = [1%nat; 2%nat]
  /\ Dom.transform_of (snd s) 3%nat = Dom.transform_of (snd Example.at100) 3%nat
  /\ (snd (translation (Dom.transform_of (snd s) 3%nat)) == - 50)%Q.
Proof. cbv zeta. split; [| split]; vm_compute; reflexivity. Qed.

(** ** Layer discovery *)

Section Discovery.
Import Js Dom.
Local Open Scope Q_scope.

Lemma or_default_NaN (d : Q) : or_default NaN d = d.
Proof. reflexivity. Qed.

Lemma or_default_nonzero (q d : Q) : ~ q == 0 -> or_default (Num q) d = q.
Proof.
  intros Hq. unfold or_default, truthy.
  destruct (Qeq_bool q 0) eqn:E; [| reflexivity].
  apply Qeq_bool_iff in E. contradiction.
Qed.

Lemma or_default_zero (q d : Q) : q == 0 -> or_default (Num q) d = d.
Proof.
  intros Hq. unfold or_default, truthy.
  apply Qeq_bool_iff in Hq. rewrite Hq. reflexivity.
Qed.

(** What discovery does in the 2D variant: the defaults apply to an attribute
    that is not set or not numeric, a numeral other than zero is used as it
    is, and a numeral that is zero is replaced by the default. *)
Lemma discover_coefficients (b : Browser) (el : Element) :
  let attrs := markup (document b) el in
  let l := SuperParallax.discover b el in
  (data_parallax_depth attrs = None -> SuperParallax.depth l = 1)
  /\ (data_parallax_scroll attrs = None -> SuperParallax.scrollSpeed l = SuperParallax.depth l)
  /\ (data_parallax_mouse attrs = None -> SuperParallax.mouseSpeed l = SuperParallax.depth l)
  /\ (forall q, data_parallax_depth attrs = Some (Numeral q) -> ~ q == 0 ->
        SuperParallax.depth l = q)
  /\ (forall q, data_parallax_scroll attrs = Some (Numeral q) -> ~ q == 0 ->
        SuperParallax.scrollSpeed l = q)
  /\ (forall q, data_parallax_mouse attrs = Some (Numeral q) -> ~ q == 0 ->
        SuperParallax.mouseSpeed l = q)
  /\ (forall q, data_parallax_scroll attrs = Some (Numeral q) -> q == 0 ->
        SuperParallax.scrollSpeed l = SuperParallax.depth l)
  /\ (forall q, data_parallax_mouse attrs = Some (Numeral q) -> q == 0 ->
        SuperParallax.mouseSpeed l = SuperParallax.depth l)
  /\ (forall q, data_parallax_depth attrs = Some (Numeral q) -> q == 0 ->
        SuperParallax.depth l = 1).
Proof.
  cbv zeta. unfold SuperParallax.discover. simpl.
  repeat split; try (intros ->; reflexivity);
    intros q -> Hq; simpl;
    first [by apply or_default_nonzero | by apply or_default_zero].
Qed.

(** What discovery does in the 3D variant: one layer is pushed for the
    element, with the depth defaulting to 0 and the speeds to the depth. *)
Lemma createLayer_coefficients (s : SuperParallax3D.State) (el : Element) :
  let attrs := markup (document (SuperParallax3D.browser (snd s))) el in
  exists l,
    SuperParallax3D.layers (fst (SuperParallax3D.createLayer s el))
      = SuperParallax3D.layers (fst s) ++ [l]
    /\ SuperParallax3D.element l = el
    /\ SuperParallax3D.depth l = or_default (parseFloat (data_parallax_depth attrs)) 0
    /\ SuperParallax3D.scrollSpeed l
       = or_default (parseFloat (data_parallax_scroll attrs)) (SuperParallax3D.depth l)
    /\ SuperParallax3D.mouseSpeed l
       = or_default (parseFloat (data_parallax_mouse attrs)) (SuperParallax3D.depth l).
Proof.
  destruct s as [this w]. cbv zeta. unfold SuperParallax3D.createLayer. simpl.
  destruct (img (markup (document (SuperParallax3D.browser w)) el)); simpl;
    eexists; repeat split; reflexivity.
Qed.
End Discovery.

(** C5, at an input where the code departs from it: the element carries
    [data-parallax-depth="2"] and [data-parallax-scroll="0"], and the layer
    discovered for it has the scroll speed 2, the depth, in the 2D variant
    and in the 3D variant alike; the specified value 0 is not used. *)
Theorem discovery_replaces_zero_speed_by_depth :
  Dom.data_parallax_depth (Dom.markup Example.page 1%nat) = Some (Dom.Numeral 2)
  /\ Dom.data_parallax_scroll (Dom.markup Example.page 1%nat) = Some (Dom.Numeral 0)
  /\ SuperParallax.scrollSpeed (SuperParallax.discover Example.browser0 1%nat) = 2%Q
  /\ SuperParallax3D.scrollSpeed <$> SuperParallax3D.layers (fst Example.running3d) !! 0%nat
     = Some 2%Q.
Proof. split; [| split; [| split]]; vm_compute; reflexivity. Qed.

(** ** Construction *)

(** C9. Construction throws exactly when the container cannot be resolved
    and, in the 3D variant, also when Three.js is not defined or cannot
    create its WebGL context; the error is the result of the constructor,
    nothing is retried and no state comes back.  In every other case
    construction returns a controller. *)
Theorem construction_fails_exactly_when_unresolved :
  (forall (c : Dom.ContainerArg) (o : SuperParallax.PartialOptions) (b : Dom.Browser),
      (Dom.resolve b c = None ->
       SuperParallax.new c o b = inl (Js.Error "Container element not found"))
      /\ (Dom.resolve b c <> None -> exists s, SuperParallax.new c o b = inr s))
  /\ (forall (c : Dom.ContainerArg) (o : SuperParallax3D.PartialOptions)
             (w : SuperParallax3D.World),
        let b := SuperParallax3D.browser w in
        (Dom.THREE_defined (Dom.document b) = false ->
         SuperParallax3D.new c o w
         = inl (Js.Error "Three.js is required. Include it before SuperParallax3D."))
        /\ (Dom.THREE_defined (Dom.document b) = true -> Dom.resolve b c = None ->
            SuperParallax3D.new c o w = inl (Js.Error "Container element not found"))
        /\ (Dom.THREE_defined (Dom.document b) = true -> Dom.resolve b c <> None ->
            Dom.webgl_available (Dom.document b) = false ->
            SuperParallax3D.new c o w = inl (Js.Error "Error creating WebGL context."))
        /\ (Dom.THREE_defined (Dom.document b) = true -> Dom.resolve b c <> None ->
            Dom.webgl_available (Dom.document b) = true ->
            exists s, SuperParallax3D.new c o w = inr s)).
Proof.
  split.
  - intros c o b. unfold SuperParallax.new. split.
    + intros ->. reflexivity.
    + intros Hres. destruct (Dom.resolve b c) as [el|]; [| contradiction]. eauto.
  - intros c o w. cbv zeta. unfold SuperParallax3D.new. split; [| split; [| split]].
    + intros ->. reflexivity.
    + intros -> ->. reflexivity.
    + intros -> Hres ->. simpl.
      destruct (Dom.resolve (SuperParallax3D.browser w) c) as [el|]; [| contradiction].
      reflexivity.
    + intros -> Hres ->. simpl.
      destruct (Dom.resolve (SuperParallax3D.browser w) c) as [el|]; [| contradiction]. eauto.
Qed.

Lemma construction_fails_exactly_when_unresolved_witness :
  SuperParallax.new (Dom.Selector "#missing") SuperParallax.no_options Example.browser0
    = inl (Js.Error "Container element not found")
  /\ SuperParallax3D.new (Dom.Ref None) SuperParallax3D.no_options Example.world0
    = inl (Js.Error "Container element not found")
  /\ (exists s,
        SuperParallax3D.new (Dom.Selector ".parallax-container") SuperParallax3D.no_options
          Example.world0 = inr s).
Proof.
  split; [| split].
  - apply (proj1 construction_fails_exactly_when_unresolved). reflexivity.
  - apply (proj2 construction_fails_exactly_when_unresolved); reflexivity.
  - apply (proj2 construction_fails_exactly_when_unresolved);
      [reflexivity | discriminate | reflexivity].
Defined.

(** ** Destruction *)

Section Destroy2D.
Import Js Dom SuperParallax.

Lemma truthy_str_false (s : string) : truthy_str s = false -> s = ""%string.
Proof.
  unfold truthy_str. destruct (String.eqb_spec s ""); [auto | discriminate].
Qed.

Lemma resetTransform_style (b : Browser) (layer : Layer) :
  style_transform (resetTransform b layer)
  = <[element layer := Verbatim (initialTransform layer)]> (style_transform b).
Proof.
  unfold resetTransform. destruct (truthy_str (initialTransform layer)) eqn:E; simpl.
  - reflexivity.
  - apply truthy_str_false in E. rewrite E. reflexivity.
Qed.

Lemma resetTransform_rest (b : Browser) (layer : Layer) :
  listeners (resetTransform b layer) = listeners b
  /\ frames (resetTransform b layer) = frames b.
Proof. unfold resetTransform. destruct (truthy_str _); auto. Qed.

Lemma stop_keeps (s : State) :
  layers (fst (stop s)) = layers (fst s)
  /\ container (fst (stop s)) = container (fst s)
  /\ listeners (snd (stop s)) = listeners (snd s)
  /\ style_transform (snd (stop s)) = style_transform (snd s).
Proof.
  destruct s as [this b]. unfold stop. simpl.
  destruct (animationFrameId this); simpl; auto.
Qed.

Lemma unregistered_spec (c : t) (ls : list Listener) (l : Listener) :
  l ∈ unregistered c ls ->
  l ≠ on_scroll /\ l ≠ on_mousemove c /\ l ≠ on_mouseleave c /\ l ≠ on_resize.
Proof.
  unfold unregistered. rewrite !list_elem_of_filter. tauto.
Qed.

Lemma destroy_spec (s : State) :
  let s' := destroy s in
  isActive (fst s') = false
  /\ animationFrameId (fst s') = None
  /\ layers (fst s') = []
  /\ frames (snd s') = frames (snd (stop s))
  /\ listeners (snd s') = unregistered (fst s) (listeners (snd s))
  /\ forall i l, registered_last (layers (fst s)) i l ->
       transform_of (snd s') (element l) = Verbatim (initialTransform l).
Proof.
  cbv zeta. destruct (stop_inactive s) as [Hact Hid].
  destruct (stop_keeps s) as (Hlay & Hcont & Hlis & Hsty).
  unfold destroy. destruct (stop s) as [this b]. destruct s as [this0 b0].
  simpl in *. split; [exact Hact |]. split; [exact Hid |]. split; [reflexivity |].
  split; [| split].
  - rewrite (foldl_preserves frames resetTransform) by (intros; apply resetTransform_rest).
    reflexivity.
  - rewrite (foldl_preserves listeners resetTransform) by (intros; apply resetTransform_rest).
    simpl. unfold unregistered, on_mousemove, on_mouseleave. rewrite Hlis, Hcont. reflexivity.
  - intros i l [Hi Hlast]. unfold transform_of.
    rewrite (foldl_style_last resetTransform element (fun l => Verbatim (initialTransform l))
               (layers this) _ i l); [reflexivity | apply resetTransform_style | |].
    + rewrite Hlay. exact Hi.
    + rewrite Hlay. exact Hlast.
Qed.

(** Layers on pairwise different elements are each the last of their
    element. *)
Lemma distinct_registered_last (ls : list Layer) (i : nat) (l : Layer) :
  NoDup (element <$> ls) -> ls !! i = Some l -> registered_last ls i l.
Proof.
  intros Hnd Hi. split; [exact Hi |]. intros j l' Hj Hl' Heq.
  assert (Hij : i = j); [| lia].
  apply (NoDup_lookup (element <$> ls) i j (element l)); [exact Hnd | |].
  - rewrite list_lookup_fmap, Hi. reflexivity.
  - rewrite list_lookup_fmap, Hl'. simpl. by rewrite Heq.
Qed.
End Destroy2D.

Section Destroy3D.
Import Js Dom SuperParallax3D.

Lemma dispose_twice (m : Mesh) : dispose (dispose m) = dispose m.
Proof. reflexivity. Qed.

Lemma dispose_position (m : Mesh) : position (dispose m) = position m.
Proof. reflexivity. Qed.

Lemma stop3d_keeps (s : State) :
  layers (fst (stop s)) = layers (fst s)
  /\ container (fst (stop s)) = container (fst s)
  /\ scene (fst (stop s)) = scene (fst s)
  /\ listeners (browser (snd (stop s))) = listeners (browser (snd s))
  /\ meshes (snd (stop s)) = meshes (snd s).
Proof.
  destruct s as [this w]. unfold stop. simpl.
  destruct (animationFrameId this); simpl; auto.
Qed.

(** The loop of [destroy] leaves alone a mesh that belongs to no layer. *)
Lemma removeMesh_loop_other (ls : list Layer) (this : t) (w : World) (id : MeshId) :
  id ∉ (mesh <$> ls) ->
  meshes (snd (foldl removeMesh (this, w) ls)) !! id = meshes w !! id.
Proof.
  induction ls as [|a ls IH] using rev_ind; intros Hnot; [reflexivity |].
  rewrite foldl_app. simpl. rewrite fmap_app in Hnot.
  assert (Hls : id ∉ (mesh <$> ls)) by (intros H; apply Hnot, elem_of_app; by left).
  assert (Ha : mesh a ≠ id).
  { intros Heq. apply Hnot, elem_of_app. right. simpl.
    apply list_elem_of_singleton. by symmetry. }
  specialize (IH Hls). destruct (foldl removeMesh (this, w) ls) as [this1 w1].
  unfold removeMesh. simpl in *. rewrite lookup_alter_ne by exact Ha. exact IH.
Qed.

(** What the loop of [destroy] has done once it has gone through [ls]. *)
Lemma removeMesh_loop (ls : list Layer) (this : t) (w : World) :
  let s' := foldl removeMesh (this, w) ls in
  (isActive (fst s') = isActive this
   /\ animationFrameId (fst s') = animationFrameId this
   /\ container (fst s') = container this
   /\ renderer (fst s') = renderer this
   /\ listeners (browser (snd s')) = listeners (browser w)
   /\ frames (browser (snd s')) = frames (browser w)
   /\ appended (browser (snd s')) = appended (browser w))
  /\ (forall l, l ∈ ls -> style_visibility (browser (snd s')) !! element l = Some ""%string)
  /\ (forall id, id ∈ scene (fst s') -> id ∈ scene this /\ id ∉ (mesh <$> ls))
  /\ (forall id, id ∈ (mesh <$> ls) -> meshes (snd s') !! id = dispose <$> meshes w !! id).
Proof.
  cbv zeta. induction ls as [|a ls IH] using rev_ind.
  - simpl. split; [repeat split; reflexivity |]. split; [| split].
    + intros l Hl. by apply elem_of_nil in Hl.
    + intros id Hid. split; [exact Hid |]. simpl. apply not_elem_of_nil.
    + intros id Hid. by apply elem_of_nil in Hid.
  - rewrite foldl_app. simpl.
    pose proof (removeMesh_loop_other ls this w (mesh a)) as Hother.
    destruct (foldl removeMesh (this, w) ls) as [this1 w1]. simpl in IH, Hother.
    destruct IH as ((Ha & Hf & Hc & Hr & Hli & Hfr & Hap) & Hvis & Hsc & Hme).
    unfold removeMesh. simpl. split; [repeat split; assumption |]. split; [| split].
    + intros l Hl. apply elem_of_app in Hl as [Hl | Hl].
      * destruct (decide (element a = element l)) as [-> | Hne].
        -- apply lookup_insert_eq.
        -- rewrite lookup_insert_ne by exact Hne. by apply Hvis.
      * apply list_elem_of_singleton in Hl as ->. apply lookup_insert_eq.
    + intros id Hid. apply list_elem_of_filter in Hid as [Hne Hid].
      destruct (Hsc id Hid) as [Hin Hnot]. split; [exact Hin |].
      rewrite fmap_app. intros Hmem. apply elem_of_app in Hmem as [Hmem | Hmem].
      * contradiction.
      * simpl in Hmem. apply list_elem_of_singleton in Hmem. contradiction.
    + intros id Hid. rewrite fmap_app in Hid.
      destruct (decide (mesh a = id)) as [<- | Hne].
      * rewrite lookup_alter_eq.
        destruct (decide (mesh a ∈ (mesh <$> ls))) as [Hold | Hnew].
        -- rewrite (Hme _ Hold). destruct (meshes w !! mesh a); reflexivity.
        -- rewrite (Hother Hnew). reflexivity.
      * rewrite lookup_alter_ne by exact Hne. apply Hme.
        apply elem_of_app in Hid as [Hid | Hid]; [exact Hid |].
        simpl in Hid. apply list_elem_of_singleton in Hid. by subst.
Qed.

Lemma unregistered3d_spec (c : t) (ls : list Listener) (l : Listener) :
  l ∈ unregistered3d c ls -> l ≠ on_scroll /\ l ≠ on_mousemove c /\ l ≠ on_resize.
Proof.
  unfold unregistered3d. rewrite !list_elem_of_filter. tauto.
Qed.

Lemma stop3d_keeps_canvas (s : State) :
  renderer (fst (stop s)) = renderer (fst s)
  /\ appended (browser (snd (stop s))) = appended (browser (snd s)).
Proof.
  destruct s as [this w]. unfold stop. simpl.
  destruct (animationFrameId this); simpl; auto.
Qed.

Lemma destroy3d_spec (s : State) :
  let s' := after (destroy s) in
  let canvas := (container (fst s), domElement (renderer (fst s))) in
  isActive (fst s') = false
  /\ animationFrameId (fst s') = None
  /\ renderer_disposed (renderer (fst s')) = true
  /\ frames (browser (snd s')) = frames (browser (snd (stop s)))
  /\ listeners (browser (snd s')) = unregistered3d (fst s) (listeners (browser (snd s)))
  /\ (forall l, l ∈ layers (fst s) ->
        style_visibility (browser (snd s')) !! element l = Some ""%string
        /\ (mesh l ∉ scene (fst s'))
        /\ meshes (snd s') !! mesh l = dispose <$> meshes (snd s) !! mesh l)
  /\ container (fst s') = container (fst s)
  /\ domElement (renderer (fst s')) = domElement (renderer (fst s))
  /\ (canvas ∈ appended (browser (snd s)) ->
      destroy s = Returns s' /\ layers (fst s') = []
      /\ (canvas ∉ appended (browser (snd s'))))
  /\ (canvas ∉ appended (browser (snd s)) ->
      destroy s = Throws NotFoundError s' /\ layers (fst s') = layers (fst s)
      /\ appended (browser (snd s')) = appended (browser (snd s))).
Proof.
  cbv zeta. destruct (stop3d_inactive s) as [Hact Hid].
  destruct (stop3d_keeps s) as (Hlay & Hcont & Hscene & Hlis & Hmesh).
  destruct (stop3d_keeps_canvas s) as (Hren & Happ).
  unfold destroy. destruct (stop s) as [this w]. destruct s as [this0 w0].
  simpl in *.
  pose proof (removeMesh_loop (layers this) this
    (set_browser (removeEventListener on_resize)
       (set_browser (removeEventListener (on_mousemove this))
          (set_browser (removeEventListener on_scroll) w)))) as Hloop.
  pose proof (foldl_preserves (fun s : State => layers (fst s)) removeMesh (layers this)
    (this, set_browser (removeEventListener on_resize)
       (set_browser (removeEventListener (on_mousemove this))
          (set_browser (removeEventListener on_scroll) w)))
    (fun s a => match s with (t0, w0) => eq_refl end)) as Hkeep.
  cbv zeta in Hloop.
  destruct (foldl removeMesh _ (layers this)) as [this1 w1]. simpl in Hloop, Hkeep |- *.
  destruct Hloop as ((Ha & Hf & Hc & Hr & Hli & Hfr & Hap) & Hvis & Hsc & Hme).
  rewrite Hc, Hr, Hap, Hcont, Hren, Happ.
  assert (Hrest :
    forall l, l ∈ layers this0 ->
      style_visibility (browser w1) !! element l = Some ""%string
      /\ (mesh l ∉ scene this1)
      /\ meshes w1 !! mesh l = dispose <$> meshes w0 !! mesh l).
  { intros l Hl. rewrite <- Hlay in Hl. split; [by apply Hvis |]. split.
    - intros Hin. destruct (Hsc _ Hin) as [_ Hnot]. apply Hnot.
      apply list_elem_of_fmap. eauto.
    - rewrite Hme, Hmesh; [reflexivity |]. apply list_elem_of_fmap. eauto. }
  assert (Hlisten : listeners (browser w1) = unregistered3d this0 (listeners (browser w0))).
  { rewrite Hli. unfold unregistered3d, on_mousemove. rewrite Hlis, Hcont. reflexivity. }
  case_bool_decide as Hchild; simpl.
  - split; [congruence |]. split; [congruence |]. split; [reflexivity |].
    split; [exact Hfr |]. split; [exact Hlisten |]. split; [exact Hrest |].
    split; [congruence |]. split; [congruence |]. split.
    + intros _. split; [reflexivity |]. split; [reflexivity |].
      intros Hin. apply list_elem_of_filter in Hin as [Hne _]. by apply Hne.
    + intros Hnot. contradiction.
  - split; [congruence |]. split; [congruence |]. split; [reflexivity |].
    split; [exact Hfr |]. split; [exact Hlisten |]. split; [exact Hrest |].
    split; [congruence |]. split; [congruence |]. split.
    + intros Hin. contradiction.
    + intros _. split; [reflexivity |]. split; congruence.
Qed.
End Destroy3D.

(** C6, as the code has it.  In both variants [destroy()] leaves the
    controller idle with no frame handle, cancels the frame it held and
    removes the registrations of the controller's own listeners.  2D: the
    registry is emptied, and the element of a layer gets the initial
    transform captured for the layer registered last on that element, so
    with layers on pairwise different elements every layer gets its own
    back.  3D: for every layer the element's visibility is reset to [''],
    the mesh is out of the scene and disposed, and the renderer is disposed;
    the position of the mesh is left as the last tick set it.  When the
    canvas is a child of the container, as it is after construction,
    [destroy()] then returns with the canvas removed and the registry
    emptied, and a second [destroy()] throws; when the canvas is not a child
    of the container, [destroy()] throws a [NotFoundError] at [removeChild]
    and the registry keeps its layers. *)
Theorem destroy_releases_everything :
  (forall s : SuperParallax.State,
      let s' := SuperParallax.destroy s in
      SuperParallax.isActive (fst s') = false
      /\ SuperParallax.animationFrameId (fst s') = None
      /\ (forall id, SuperParallax.animationFrameId (fst s) = Some id ->
            id ∉ Dom.frames (snd s'))
      /\ (forall l, l ∈ Dom.listeners (snd s') ->
            l <> SuperParallax.on_scroll /\ l <> SuperParallax.on_mousemove (fst s)
            /\ l <> SuperParallax.on_mouseleave (fst s) /\ l <> SuperParallax.on_resize)
      /\ SuperParallax.layers (fst s') = []
      /\ (forall i l, registered_last (SuperParallax.layers (fst s)) i l ->
            Dom.transform_of (snd s') (SuperParallax.element l)
            = Dom.Verbatim (SuperParallax.initialTransform l))
      /\ (NoDup (SuperParallax.element <$> SuperParallax.layers (fst s)) ->
          forall l, l ∈ SuperParallax.layers (fst s) ->
            Dom.transform_of (snd s') (SuperParallax.element l)
            = Dom.Verbatim (SuperParallax.initialTransform l)))
  /\ (forall s : SuperParallax3D.State,
      let s' := SuperParallax3D.after (SuperParallax3D.destroy s) in
      let canvas :=
        (SuperParallax3D.container (fst s),
         SuperParallax3D.domElement (SuperParallax3D.renderer (fst s))) in
      SuperParallax3D.isActive (fst s') = false
      /\ SuperParallax3D.animationFrameId (fst s') = None
      /\ (forall id, SuperParallax3D.animationFrameId (fst s) = Some id ->
            id ∉ Dom.frames (SuperParallax3D.browser (snd s')))
      /\ (forall l, l ∈ Dom.listeners (SuperParallax3D.browser (snd s')) ->
            l <> SuperParallax3D.on_scroll /\ l <> SuperParallax3D.on_mousemove (fst s)
            /\ l <> SuperParallax3D.on_resize)
      /\ SuperParallax3D.renderer_disposed (SuperParallax3D.renderer (fst s')) = true
      /\ (forall l, l ∈ SuperParallax3D.layers (fst s) ->
            Dom.style_visibility (SuperParallax3D.browser (snd s')) !! SuperParallax3D.element l
              = Some ""%string
            /\ (SuperParallax3D.mesh l ∉ SuperParallax3D.scene (fst s'))
            /\ SuperParallax3D.meshes (snd s') !! SuperParallax3D.mesh l
               = SuperParallax3D.dispose <$> SuperParallax3D.meshes (snd s) !! SuperParallax3D.mesh l
            /\ SuperParallax3D.position <$> SuperParallax3D.meshes (snd s') !! SuperParallax3D.mesh l
               = SuperParallax3D.position <$> SuperParallax3D.meshes (snd s) !! SuperParallax3D.mesh l)
      /\ (canvas ∈ Dom.appended (SuperParallax3D.browser (snd s)) ->
          SuperParallax3D.destroy s = SuperParallax3D.Returns s'
          /\ SuperParallax3D.layers (fst s') = []
          /\ (canvas ∉ Dom.appended (SuperParallax3D.browser (snd s')))
          /\ SuperParallax3D.destroy s'
             = SuperParallax3D.Throws Dom.NotFoundError
                 (SuperParallax3D.after (SuperParallax3D.destroy s')))
      /\ (canvas ∉ Dom.appended (SuperParallax3D.browser (snd s)) ->
          SuperParallax3D.destroy s = SuperParallax3D.Throws Dom.NotFoundError s'
          /\ SuperParallax3D.layers (fst s') = SuperParallax3D.layers (fst s))).
Proof.
  split.
  - intros s. cbv zeta.
    destruct (destroy_spec s) as (Hact & Hid & Hlay & Hfr & Hlis & Hsty).
    split; [exact Hact |]. split; [exact Hid |]. split; [| split; [| split; [| split]]].
    + intros id Hheld. rewrite Hfr. by apply stop2d_cancels.
    + intros l Hl. rewrite Hlis in Hl. by apply unregistered_spec in Hl.
    + exact Hlay.
    + exact Hsty.
    + intros Hnd l Hl. apply list_elem_of_lookup in Hl as [i Hi].
      apply (Hsty i). by apply distinct_registered_last.
  - intros s. cbv zeta.
    destruct (destroy3d_spec s)
      as (Hact & Hid & Hren & Hfr & Hlis & Hl & Hcont & Hdom & Hret & Hthrow).
    split; [exact Hact |]. split; [exact Hid |].
    split; [| split; [| split; [| split; [| split]]]].
    + intros id Hheld. rewrite Hfr. by apply stop3d_cancels.
    + intros l Hin. rewrite Hlis in Hin. by apply unregistered3d_spec in Hin.
    + exact Hren.
    + intros l Hin. destruct (Hl l Hin) as (Hv & Hs & Hm).
      split; [exact Hv |]. split; [exact Hs |]. split; [exact Hm |].
      rewrite Hm. destruct (SuperParallax3D.meshes (snd s) !! SuperParallax3D.mesh l); reflexivity.
    + intros Hchild. destruct (Hret Hchild) as (Hr1 & Hr2 & Hr3).
      split; [exact Hr1 |]. split; [exact Hr2 |]. split; [exact Hr3 |].
      destruct (destroy3d_spec (SuperParallax3D.after (SuperParallax3D.destroy s)))
        as (_ & _ & _ & _ & _ & _ & _ & _ & _ & Hagain).
      apply Hagain. rewrite Hcont, Hdom. exact Hr3.
    + intros Hnot. destruct (Hthrow Hnot) as (Ht1 & Ht2 & _). split; assumption.
Qed.

Lemma destroy_releases_everything_witness :
  Dom.transform_of (snd (SuperParallax.destroy Example.at100)) 1%nat = Dom.Verbatim ""
  /\ Dom.transform_of (snd (SuperParallax.destroy Example.at100)) 2%nat
     = Dom.Verbatim "matrix(1, 0, 0, 1, 0, 8)"
  /\ SuperParallax.layers (fst (SuperParallax.destroy Example.at100)) = []
  /\ SuperParallax3D.layers
       (fst (SuperParallax3D.after (SuperParallax3D.destroy Example.scrolled3d))) = []
  /\ SuperParallax3D.destroy (SuperParallax3D.after (SuperParallax3D.destroy Example.scrolled3d))
     = SuperParallax3D.Throws Dom.NotFoundError
         (SuperParallax3D.after
            (SuperParallax3D.destroy
               (SuperParallax3D.after (SuperParallax3D.destroy Example.scrolled3d)))).
Proof.
  pose proof (proj1 destroy_releases_everything Example.at100) as H. cbv zeta in H.
  destruct H as (_ & _ & _ & _ & Hlay & _ & Hall).
  assert (Hnd : NoDup (SuperParallax.element <$> SuperParallax.layers (fst Example.at100))).
  { apply (bool_decide_eq_true_1
             (NoDup (SuperParallax.element <$> SuperParallax.layers (fst Example.at100)))).
    vm_compute. reflexivity. }
  assert (H1 : SuperParallax.discover Example.browser0 1%nat
               ∈ SuperParallax.layers (fst Example.at100)).
  { apply list_elem_of_lookup. exists 0%nat. vm_compute. reflexivity. }
  assert (H2 : SuperParallax.discover Example.browser0 2%nat
               ∈ SuperParallax.layers (fst Example.at100)).
  { apply list_elem_of_lookup. exists 1%nat. vm_compute. reflexivity. }
  split; [exact (Hall Hnd _ H1) |]. split; [exact (Hall Hnd _ H2) |]. split; [exact Hlay |].
  pose proof (proj2 destroy_releases_everything Example.scrolled3d) as H3. cbv zeta in H3.
  destruct H3 as (_ & _ & _ & _ & _ & _ & Hret & _).
  assert (Hchild :
    (SuperParallax3D.container (fst Example.scrolled3d),
     SuperParallax3D.domElement (SuperParallax3D.renderer (fst Example.scrolled3d)))
    ∈ Dom.appended (SuperParallax3D.browser (snd Example.scrolled3d))).
  { apply (list_elem_of_lookup_2 _ 0%nat). vm_compute. reflexivity. }
  destruct (Hret Hchild) as (_ & Hempty & _ & Hagain).
  split; [exact Hempty | exact Hagain].
Defined.

(** C6, as it is stated, fails in the 3D variant: after a [destroy()] that
    returns, the mesh of a layer is where the last tick put it, not at the
    layer's initial position.  Here the page is scrolled to 100, the first
    layer has the scroll speed 2 and its initial height is 0; its mesh is one
    unit lower before [destroy()] and after it. *)
Lemma destroy3d_leaves_mesh_displaced :
  let s := Example.scrolled3d in
  let s' := SuperParallax3D.after (SuperParallax3D.destroy s) in
  SuperParallax3D.destroy s = SuperParallax3D.Returns s'
  /\ exists l m,
      SuperParallax3D.layers (fst s) !! 0%nat = Some l
      /\ SuperParallax3D.meshes (snd s') !! SuperParallax3D.mesh l = Some m
      /\ (SuperParallax3D.y (SuperParallax3D.initialPosition l) == 0)%Q
      /\ (SuperParallax3D.y (SuperParallax3D.position m) == - 1)%Q
      /\ ~ (SuperParallax3D.y (SuperParallax3D.position m)
            == SuperParallax3D.y (SuperParallax3D.initialPosition l))%Q.
Proof.
  cbv zeta. split; [vm_compute; reflexivity |]. eexists. eexists.
  split; [vm_compute; reflexivity |]. split; [vm_compute; reflexivity |].
  split; [vm_compute; reflexivity |]. split; [vm_compute; reflexivity |].
  vm_compute. discriminate.
Qed.

(** Two layers on one element: [destroy()] leaves the element with the
    transform captured for the second layer, which is the transform the
    element had while the first layer was being animated. *)
Example destroy_with_two_layers_on_one_element :
  let s := snd (SuperParallax.addLayer 2%nat None None None Example.running2d) in
  SuperParallax.initialTransform <$> SuperParallax.layers (fst s)
    = [""; "matrix(1, 0, 0, 1, 0, 8)"; "matrix(1, 0, 0, 1, 0, 0)"]%string
  /\ Dom.transform_of (snd (SuperParallax.destroy s)) 2%nat
     = Dom.Verbatim "matrix(1, 0, 0, 1, 0, 0)".
Proof. split; vm_compute; reflexivity. Qed.

(** * Further properties of the controllers *)

(** ** Smoothing: bounds of one step *)

(** X1. One tick of a running controller in floating-point arithmetic, every
    operation of [lerp] rounded with a relative error of at most [u] and an
    absolute error of at most [eta] while no result exceeds [Omega]: with
    the smoothing factor [k] in (0, 1], the distance of each smoothed scalar
    to its target after the tick is at most [1 - rate u k] times the distance
    before it, plus [drift u eta k M].  The tick may miss
    [current + (target - current) * k], and with [k = 1] the target itself,
    by that much only.  [M] bounds the magnitude of the targets and [E] the
    distances before the tick. *)
Theorem tick_contracts_up_to_rounding
    (rnd : Q -> Q) (u eta Omega M E : Q) (s : SuperParallax.State) :
  standard_model rnd u eta Omega ->
  (0 <= u)%Q -> (u <= 1)%Q -> (0 <= eta)%Q ->
  SuperParallax.isActive (fst s) = true ->
  let this := fst s in
  let this' := fst (Rounded.animate rnd s) in
  let k := SuperParallax.smoothing (SuperParallax.options this) in
  let d_scroll c := Qabs (SuperParallax.targetScroll this - SuperParallax.scroll c) in
  let d_x c :=
    Qabs (SuperParallax.x (SuperParallax.targetMouse this) - SuperParallax.x (SuperParallax.mouse c)) in
  let d_y c :=
    Qabs (SuperParallax.y (SuperParallax.targetMouse this) - SuperParallax.y (SuperParallax.mouse c)) in
  (0 < k)%Q -> (k <= 1)%Q ->
  (Qabs (SuperParallax.targetScroll this) <= M)%Q ->
  (Qabs (SuperParallax.x (SuperParallax.targetMouse this)) <= M)%Q ->
  (Qabs (SuperParallax.y (SuperParallax.targetMouse this)) <= M)%Q ->
  (d_scroll this <= E)%Q -> (d_x this <= E)%Q -> (d_y this <= E)%Q ->
  (M + 3 * E + 3 * eta <= Omega)%Q ->
  (d_scroll this' <= (1 - rate u k) * d_scroll this + drift u eta k M)%Q
  /\ (d_x this' <= (1 - rate u k) * d_x this + drift u eta k M)%Q
  /\ (d_y this' <= (1 - rate u k) * d_y this + drift u eta k M)%Q.
Proof.
  intros Hrnd Hu0 Hu1 Heta Hact. cbv zeta.
  intros Hk0 Hk1 HMs HMx HMy HEs HEx HEy HO.
  destruct s as [this b]. cbn [fst] in *.
  destruct (rounded_animate_active rnd this b Hact) as (Hs & Hx & Hy & _).
  rewrite Hs, Hx, Hy.
  split; [| split];
    eapply (lerp_rounded_step rnd u eta Omega Hrnd Hu0 Hu1 Heta); eassumption.
Qed.

Lemma tick_contracts_up_to_rounding_witness :
  (Qabs (100 - SuperParallax.scroll
                 (fst (Rounded.animate (fun x => x - x * (1 # 9007199254740992))%Q
                         Example.jump)))
   <= (1 - rate (1 # 9007199254740992) (1 # 10)) * Qabs (100 - 0)
      + drift (1 # 9007199254740992) (2 ^ (-1075)) (1 # 10) 100)%Q.
Proof.
  set (u := (1 # 9007199254740992)%Q).
  assert (Hu0 : (0 <= u)%Q) by (intros H; discriminate H).
  assert (Hu1 : (u <= 1)%Q) by (intros H; discriminate H).
  assert (Heta : (0 <= 2 ^ (-1075))%Q) by (intros H; discriminate H).
  refine (proj1 (tick_contracts_up_to_rounding (fun x => x - x * u)%Q u (2 ^ (-1075))%Q
                   (2 ^ 1023)%Q 100 100 Example.jump
                   (chopping_is_standard u _ _ Hu0 Heta) Hu0 Hu1 Heta eq_refl
                   _ _ _ _ _ _ _ _ _)).
  - reflexivity.
  - intros H; discriminate H.
  - intros H; discriminate H.
  - intros H; discriminate H.
  - intros H; discriminate H.
  - intros H; discriminate H.
  - intros H; discriminate H.
  - intros H; discriminate H.
  - vm_compute. intros H; discriminate H.
Defined.

Section Extremes.
Import PrimFloat.

(** X2. The two ends of the range of the factor, in doubles.  With the
    factor 0, [lerp] returns its first argument whenever that and the
    difference of the two are finite (as a number: the sign of a zero may
    differ).  With the factor 1 it returns [start + (end - start)] rounded,
    which need not be [end]: [lerp(123.4, 0.1, 1)] is below [0.1], and
    [lerp(100, 0.3, 1)] is not [0.3]. *)
Theorem lerp_at_the_ends_of_the_range :
  (forall c t : float,
      is_finite c = true -> is_finite (t - c) = true ->
      eqb (Binary64.lerp c t 0) c = true)
  /\ ltb (Binary64.lerp 123.4 0.1 1) 0.1 = true
  /\ eqb (Binary64.lerp 100 0.3 1) 0.3 = false.
Proof.
  split; [exact lerp_factor_zero |]. split; vm_compute; reflexivity.
Qed.

Lemma lerp_at_the_ends_of_the_range_witness :
  eqb (Binary64.lerp 0.3 100 0) 0.3 = true.
Proof.
  apply (proj1 lerp_at_the_ends_of_the_range); vm_compute; reflexivity.
Defined.
End Extremes.

(** ** Starting the loop *)

Section Start2D.
Import Js Dom SuperParallax.
Local Open Scope Q_scope.

Lemma start_running (s : State) : isActive (fst s) = true -> start s = s.
Proof. destruct s as [this b]. simpl. intros H. unfold start. rewrite H. reflexivity. Qed.

Lemma start_activates (s : State) : isActive (fst (start s)) = true.
Proof.
  destruct s as [this b]. unfold start.
  destruct (isActive this) eqn:Hact; [exact Hact |].
  match goal with |- context [animate (?c, b)] =>
    destruct (animate_active c b eq_refl) as (_ & _ & _ & _ & _ & _ & _ & Ha)
  end.
  exact Ha.
Qed.

(** [start()] on an idle controller, field by field. *)
Lemma start_idle (this : t) (b : Browser) :
  isActive this = false ->
  let s' := start (this, b) in
  isActive (fst s') = true
  /\ targetScroll (fst s') = scroll_position b
  /\ scroll (fst s') = lerp (scroll_position b) (scroll_position b) (smoothing (options this))
  /\ mouse (fst s') =
       {| x := lerp (x (mouse this)) (x (targetMouse this)) (smoothing (options this));
          y := lerp (y (mouse this)) (y (targetMouse this)) (smoothing (options this)) |}
  /\ targetMouse (fst s') = targetMouse this
  /\ options (fst s') = options this
  /\ layers (fst s') = layers this
  /\ container (fst s') = container this
  /\ bounds (fst s') = bounds this
  /\ animationFrameId (fst s') = Some (nextFrame b)
  /\ frames (snd s') = {[nextFrame b]} ∪ frames b.
Proof.
  intros Hidle. cbv zeta. unfold start. rewrite Hidle.
  match goal with |- context [animate (?c, b)] =>
    destruct (animate_active c b eq_refl) as (Hs & Hm & Hts & Htm & Ho & Hl & Hc & Ha);
    destruct (animate_frames c b eq_refl) as (Hf & Hid)
  end.
  rewrite Hs, Hm, Hts, Htm, Ho, Hl, Hc, Ha, Hid, Hf. simpl.
  repeat split; reflexivity.
Qed.
End Start2D.

(** X3. [start()] does nothing on a controller that is running, so calling
    it twice is calling it once: no second frame is requested and the
    smoothed state is not reseeded. *)
Theorem start_is_idempotent (s : SuperParallax.State) :
  (SuperParallax.isActive (fst s) = true -> SuperParallax.start s = s)
  /\ SuperParallax.start (SuperParallax.start s) = SuperParallax.start s.
Proof.
  split; [apply start_running |]. apply start_running, start_activates.
Qed.

Lemma start_is_idempotent_witness :
  SuperParallax.start Example.running2d = Example.running2d.
Proof.
  apply (proj1 (start_is_idempotent Example.running2d)).
  vm_compute. reflexivity.
Defined.

(** X4. [start()] on an idle controller reads the page's scroll position into
    the scroll target and seeds the smoothed scroll with it, so the first
    tick, which [start()] runs at once, finds no distance to cover: whatever
    the smoothing, the smoothed scroll equals the scroll position.  The
    controller is then active and holds the handle of the one frame it
    requested. *)
Theorem start_seeds_scroll (s : SuperParallax.State) :
  SuperParallax.isActive (fst s) = false ->
  let s' := SuperParallax.start s in
  SuperParallax.isActive (fst s') = true
  /\ SuperParallax.targetScroll (fst s') = Dom.scroll_position (snd s)
  /\ (SuperParallax.scroll (fst s') == Dom.scroll_position (snd s))%Q
  /\ SuperParallax.animationFrameId (fst s') = Some (Dom.nextFrame (snd s))
  /\ Dom.frames (snd s') = {[Dom.nextFrame (snd s)]} ∪ Dom.frames (snd s).
Proof.
  destruct s as [this b]. simpl. intros Hidle.
  destruct (start_idle this b Hidle) as (Ha & Hts & Hs & _ & _ & _ & _ & _ & _ & Hid & Hf).
  split; [exact Ha |]. split; [exact Hts |]. split; [| split; [exact Hid | exact Hf]].
  rewrite Hs. unfold SuperParallax.lerp. ring.
Qed.

Lemma start_seeds_scroll_witness :
  (SuperParallax.scroll
     (fst (SuperParallax.start
             (SuperParallax.scrolled 100 (SuperParallax.stop Example.running2d)))) == 100)%Q.
Proof.
  assert (Hidle : SuperParallax.isActive
            (fst (SuperParallax.scrolled 100 (SuperParallax.stop Example.running2d))) = false)
    by (vm_compute; reflexivity).
  assert (Hpos : Dom.scroll_position
            (snd (SuperParallax.scrolled 100 (SuperParallax.stop Example.running2d))) = 100%Q)
    by (vm_compute; reflexivity).
  rewrite <- Hpos at 2.
  exact (proj1 (proj2 (proj2 (start_seeds_scroll _ Hidle)))).
Defined.

(** ** Input sampling *)

Section Sampling2D.
Import Js Dom SuperParallax.
Local Open Scope Q_scope.

Lemma div_defined (a b : Q) : ~ b == 0 -> div a b = Some (a / b).
Proof.
  intros Hb. unfold div. destruct (Qeq_bool b 0) eqn:E; [| reflexivity].
  apply Qeq_bool_iff in E. contradiction.
Qed.

Lemma unit_fraction (a w : Q) : 0 < w -> 0 <= a -> a <= w -> 0 <= a / w /\ a / w <= 1.
Proof.
  intros Hw H0 H1. split.
  - apply Qle_shift_div_l; [exact Hw | lra].
  - apply Qle_shift_div_r; [exact Hw | lra].
Qed.

Lemma handleMouseMove_writes (e : MouseEvent) (s s' : State) :
  handleMouseMove e s = Some s' ->
  snd s' = snd s
  /\ same_but_targets (fst s) (fst s')
  /\ targetScroll (fst s') = targetScroll (fst s)
  /\ bounds (fst s') = Some (effective_bounds s).
Proof.
  destruct s as [this b]. unfold handleMouseMove, effective_bounds, same_but_targets. simpl.
  destruct (bounds this) as [r|] eqn:Hb; simpl.
  - rewrite Hb. destruct (centerMouse (options this));
      repeat (match goal with |- context [div ?a ?c] => destruct (div a c) end);
      intros H; try discriminate H; injection H as <-; simpl; rewrite ?Hb; repeat split; reflexivity.
  - destruct (centerMouse (options this));
      repeat (match goal with |- context [div ?a ?c] => destruct (div a c) end);
      intros H; try discriminate H; injection H as <-; simpl; repeat split; reflexivity.
Qed.

Lemma handleMouseMove_centered (e : MouseEvent) (s : State) :
  centerMouse (options (fst s)) = true ->
  0 < rect_width (effective_bounds s) -> 0 < rect_height (effective_bounds s) ->
  exists s',
    handleMouseMove e s = Some s'
    /\ x (targetMouse (fst s'))
       = ((clientX e - rect_left (effective_bounds s)) / rect_width (effective_bounds s)
          - (1 # 2)) * 2
    /\ y (targetMouse (fst s'))
       = ((clientY e - rect_top (effective_bounds s)) / rect_height (effective_bounds s)
          - (1 # 2)) * 2.
Proof.
  destruct s as [this b]. unfold handleMouseMove, effective_bounds. simpl.
  intros Hc Hw Hh.
  destruct (bounds this) as [r|] eqn:Hb; simpl in *; rewrite ?Hb, Hc;
    rewrite !div_defined by lra; eexists; repeat split; reflexivity.
Qed.

Lemma handleMouseMove_absolute (e : MouseEvent) (s : State) :
  centerMouse (options (fst s)) = false ->
  exists s',
    handleMouseMove e s = Some s'
    /\ x (targetMouse (fst s')) = clientX e - rect_left (effective_bounds s)
    /\ y (targetMouse (fst s')) = clientY e - rect_top (effective_bounds s).
Proof.
  destruct s as [this b]. unfold handleMouseMove, effective_bounds. simpl.
  intros Hc.
  destruct (bounds this) as [r|] eqn:Hb; simpl in *; rewrite ?Hb, Hc;
    eexists; repeat split; reflexivity.
Qed.
End Sampling2D.

(** X5. The input handlers write targets and nothing a tick has produced:
    after [handleScroll], [handleMouseLeave] or [handleMouseMove] the browser
    is untouched and the smoothed scroll and pointer, the layers, the
    options, the activity and the frame handle are the same.  [handleScroll]
    sets the scroll target to the page's scroll position, [handleMouseLeave]
    puts the pointer target at the origin, and [handleMouseMove] caches the
    rectangle it measured against. *)
Theorem handlers_write_targets_only :
  (forall s : SuperParallax.State,
      snd (SuperParallax.handleScroll s) = snd s
      /\ same_but_targets (fst s) (fst (SuperParallax.handleScroll s))
      /\ SuperParallax.targetScroll (fst (SuperParallax.handleScroll s)) = Dom.scroll_position (snd s)
      /\ SuperParallax.targetMouse (fst (SuperParallax.handleScroll s))
         = SuperParallax.targetMouse (fst s))
  /\ (forall s : SuperParallax.State,
      snd (SuperParallax.handleMouseLeave s) = snd s
      /\ same_but_targets (fst s) (fst (SuperParallax.handleMouseLeave s))
      /\ SuperParallax.targetMouse (fst (SuperParallax.handleMouseLeave s))
         = {| SuperParallax.x := 0; SuperParallax.y := 0 |}
      /\ SuperParallax.targetScroll (fst (SuperParallax.handleMouseLeave s))
         = SuperParallax.targetScroll (fst s))
  /\ (forall (e : SuperParallax.MouseEvent) (s s' : SuperParallax.State),
      SuperParallax.handleMouseMove e s = Some s' ->
      snd s' = snd s
      /\ same_but_targets (fst s) (fst s')
      /\ SuperParallax.targetScroll (fst s') = SuperParallax.targetScroll (fst s)
      /\ SuperParallax.bounds (fst s') = Some (effective_bounds s)).
Proof.
  split; [| split].
  - intros [this b]. unfold same_but_targets. simpl. repeat split; reflexivity.
  - intros [this b]. unfold same_but_targets. simpl. repeat split; reflexivity.
  - apply handleMouseMove_writes.
Qed.

Lemma handlers_write_targets_only_witness :
  exists s',
    SuperParallax.handleMouseMove
      {| SuperParallax.clientX := 400; SuperParallax.clientY := 150 |} Example.running2d = Some s'
    /\ snd s' = snd Example.running2d.
Proof.
  assert (Hc : SuperParallax.centerMouse (SuperParallax.options (fst Example.running2d)) = true)
    by (vm_compute; reflexivity).
  assert (Hr : effective_bounds Example.running2d
               = {| Dom.rect_left := 0; Dom.rect_top := 0;
                    Dom.rect_width := 800; Dom.rect_height := 600 |})
    by (vm_compute; reflexivity).
  assert (Hw : (0 < Dom.rect_width (effective_bounds Example.running2d))%Q)
    by (rewrite Hr; reflexivity).
  assert (Hh : (0 < Dom.rect_height (effective_bounds Example.running2d))%Q)
    by (rewrite Hr; reflexivity).
  destruct (handleMouseMove_centered
              {| SuperParallax.clientX := 400; SuperParallax.clientY := 150 |}
              Example.running2d Hc Hw Hh) as (s' & Hs' & _).
  exists s'. split; [exact Hs' |].
  exact (proj1 (proj2 (proj2 handlers_write_targets_only) _ _ _ Hs')).
Defined.

(** X6. [handleMouseMove] measures the pointer against the cached bounds (the
    container's rectangle when none is cached).  With [centerMouse] and a
    rectangle of positive width and height the target is
    [((client - origin) / extent - 0.5) * 2] on each axis, which is 0 at the
    centre and stays within [-1, 1] for a pointer inside the rectangle;
    without [centerMouse] the target is the offset from the rectangle's
    corner. *)
Theorem handleMouseMove_normalizes (e : SuperParallax.MouseEvent) (s : SuperParallax.State) :
  let r := effective_bounds s in
  let cx := (SuperParallax.clientX e - Dom.rect_left r)%Q in
  let cy := (SuperParallax.clientY e - Dom.rect_top r)%Q in
  (SuperParallax.centerMouse (SuperParallax.options (fst s)) = true ->
   (0 < Dom.rect_width r)%Q -> (0 < Dom.rect_height r)%Q ->
   exists s',
     SuperParallax.handleMouseMove e s = Some s'
     /\ (SuperParallax.x (SuperParallax.targetMouse (fst s')) == 2 * cx / Dom.rect_width r - 1)%Q
     /\ (SuperParallax.y (SuperParallax.targetMouse (fst s')) == 2 * cy / Dom.rect_height r - 1)%Q
     /\ ((0 <= cx)%Q -> (cx <= Dom.rect_width r)%Q ->
         (- 1 <= SuperParallax.x (SuperParallax.targetMouse (fst s')))%Q
         /\ (SuperParallax.x (SuperParallax.targetMouse (fst s')) <= 1)%Q)
     /\ ((0 <= cy)%Q -> (cy <= Dom.rect_height r)%Q ->
         (- 1 <= SuperParallax.y (SuperParallax.targetMouse (fst s')))%Q
         /\ (SuperParallax.y (SuperParallax.targetMouse (fst s')) <= 1)%Q))
  /\ (SuperParallax.centerMouse (SuperParallax.options (fst s)) = false ->
      exists s',
        SuperParallax.handleMouseMove e s = Some s'
        /\ SuperParallax.x (SuperParallax.targetMouse (fst s')) = cx
        /\ SuperParallax.y (SuperParallax.targetMouse (fst s')) = cy).
Proof.
  cbv zeta. split.
  - intros Hc Hw Hh.
    destruct (handleMouseMove_centered e s Hc Hw Hh) as (s' & Hs' & Hx & Hy).
    exists s'. split; [exact Hs' |]. rewrite Hx, Hy.
    split; [field; lra |]. split; [field; lra |]. split.
    + intros H0 H1. destruct (unit_fraction _ _ Hw H0 H1). split; lra.
    + intros H0 H1. destruct (unit_fraction _ _ Hh H0 H1). split; lra.
  - apply handleMouseMove_absolute.
Qed.

Lemma handleMouseMove_normalizes_witness :
  exists s',
    SuperParallax.handleMouseMove
      {| SuperParallax.clientX := 400; SuperParallax.clientY := 150 |} Example.running2d = Some s'
    /\ (SuperParallax.x (SuperParallax.targetMouse (fst s')) == 0)%Q
    /\ (SuperParallax.y (SuperParallax.targetMouse (fst s')) == - (1 # 2))%Q.
Proof.
  assert (Hc : SuperParallax.centerMouse (SuperParallax.options (fst Example.running2d)) = true)
    by (vm_compute; reflexivity).
  assert (Hr : effective_bounds Example.running2d
               = {| Dom.rect_left := 0; Dom.rect_top := 0;
                    Dom.rect_width := 800; Dom.rect_height := 600 |})
    by (vm_compute; reflexivity).
  assert (Hw : (0 < Dom.rect_width (effective_bounds Example.running2d))%Q)
    by (rewrite Hr; reflexivity).
  assert (Hh : (0 < Dom.rect_height (effective_bounds Example.running2d))%Q)
    by (rewrite Hr; reflexivity).
  destruct (proj1 (handleMouseMove_normalizes
              {| SuperParallax.clientX := 400; SuperParallax.clientY := 150 |}
              Example.running2d) Hc Hw Hh) as (s' & Hs' & Hx & Hy & _).
  exists s'. split; [exact Hs' |]. rewrite Hx, Hy, Hr. simpl. split; reflexivity.
Defined.

(** ** Options *)

Section Options2D.
Import Js Dom SuperParallax.

Lemma default_overlay {A} (d : A) (a b : option A) :
  default (default d a) b = default d (b ∪ a).
Proof. destruct a, b; reflexivity. Qed.

Lemma spread_overlay (o : Options) (p1 p2 : PartialOptions) :
  spread (spread o p1) p2 = spread o (overlay p1 p2).
Proof.
  unfold spread, overlay. simpl. rewrite !default_overlay. reflexivity.
Qed.

Lemma spread_nothing (o : Options) : spread o no_options = o.
Proof. destruct o. reflexivity. Qed.
End Options2D.

(** X7. [setOptions] lays the given keys over the current options and leaves
    the other keys alone: after the call each of the five options is the
    given value when the key is given and the value it had otherwise, and
    nothing else of the instance changes.  Two calls in a row are one call
    with the second object laid over the first, and a call with no key
    changes nothing.  The browser is untouched (in particular the
    [mouseleave] listener is neither added nor removed when
    [resetOnMouseLeave] changes), and the next tick smooths with the
    smoothing of the merged options. *)
Theorem setOptions_merges (s : SuperParallax.State) (p1 p2 : SuperParallax.PartialOptions) :
  let o := SuperParallax.options (fst s) in
  let o' := SuperParallax.options (fst (SuperParallax.setOptions p1 s)) in
  (SuperParallax.scrollMultiplier o'
   = default (SuperParallax.scrollMultiplier o) (SuperParallax.opt_scrollMultiplier p1)
   /\ SuperParallax.mouseMultiplier o'
      = default (SuperParallax.mouseMultiplier o) (SuperParallax.opt_mouseMultiplier p1)
   /\ SuperParallax.smoothing o'
      = default (SuperParallax.smoothing o) (SuperParallax.opt_smoothing p1)
   /\ SuperParallax.centerMouse o'
      = default (SuperParallax.centerMouse o) (SuperParallax.opt_centerMouse p1)
   /\ SuperParallax.resetOnMouseLeave o'
      = default (SuperParallax.resetOnMouseLeave o) (SuperParallax.opt_resetOnMouseLeave p1))
  /\ fst (SuperParallax.setOptions p1 s) = SuperParallax.set_options o' (fst s)
  /\ snd (SuperParallax.setOptions p1 s) = snd s
  /\ SuperParallax.setOptions p2 (SuperParallax.setOptions p1 s)
     = SuperParallax.setOptions (overlay p1 p2) s
  /\ SuperParallax.setOptions SuperParallax.no_options s = s
  /\ (SuperParallax.isActive (fst s) = true ->
      SuperParallax.scroll (fst (SuperParallax.animate (SuperParallax.setOptions p1 s)))
      = (SuperParallax.scroll (fst s)
         + (SuperParallax.targetScroll (fst s) - SuperParallax.scroll (fst s))
           * default (SuperParallax.smoothing (SuperParallax.options (fst s)))
               (SuperParallax.opt_smoothing p1))%Q).
Proof.
  destruct s as [this b]. cbv zeta. simpl.
  split; [repeat split; reflexivity |]. split; [reflexivity |]. split; [reflexivity |].
  split; [| split].
  - unfold SuperParallax.setOptions. simpl. rewrite spread_overlay. reflexivity.
  - unfold SuperParallax.setOptions. rewrite spread_nothing. destruct this; reflexivity.
  - intros Hact. unfold SuperParallax.setOptions.
    match goal with |- context [SuperParallax.animate (?c, b)] =>
      destruct (animate_active c b Hact) as (Hs & _)
    end.
    rewrite Hs. reflexivity.
Qed.

Lemma setOptions_merges_witness :
  let p :=
    {| SuperParallax.opt_scrollMultiplier := Some 2%Q;
       SuperParallax.opt_mouseMultiplier := None;
       SuperParallax.opt_smoothing := Some (1 # 2)%Q;
       SuperParallax.opt_centerMouse := Some false;
       SuperParallax.opt_resetOnMouseLeave := None |} in
  SuperParallax.options (fst (SuperParallax.setOptions p Example.jump))
  = {| SuperParallax.scrollMultiplier := 2; SuperParallax.mouseMultiplier := 1 # 2;
       SuperParallax.smoothing := 1 # 2; SuperParallax.centerMouse := false;
       SuperParallax.resetOnMouseLeave := true |}
  /\ SuperParallax.scroll (fst (SuperParallax.animate (SuperParallax.setOptions p Example.jump)))
     = (0 + (100 - 0) * (1 # 2))%Q.
Proof.
  cbv zeta.
  destruct (setOptions_merges Example.jump
    {| SuperParallax.opt_scrollMultiplier := Some 2%Q;
       SuperParallax.opt_mouseMultiplier := None;
       SuperParallax.opt_smoothing := Some (1 # 2)%Q;
       SuperParallax.opt_centerMouse := Some false;
       SuperParallax.opt_resetOnMouseLeave := None |} SuperParallax.no_options)
    as ((H1 & H2 & H3 & H4 & H5) & _ & _ & _ & _ & Htick).
  split; [| exact (Htick eq_refl)].
  cbv zeta in H1, H2, H3, H4, H5.
  destruct (SuperParallax.options (fst (SuperParallax.setOptions _ Example.jump)))
    as [sm mm k cm rl].
  simpl in H1, H2, H3, H4, H5. subst. reflexivity.
Defined.

(** ** Construction of the 2D controller *)

Section Construct2D.
Import Js Dom SuperParallax.
Local Open Scope Q_scope.

(** What a tick leaves alone in the browser. *)
Lemma animate_browser_rest (s : State) :
  document (snd (animate s)) = document (snd s)
  /\ listeners (snd (animate s)) = listeners (snd s)
  /\ warnings (snd (animate s)) = warnings (snd s)
  /\ style_position (snd (animate s)) = style_position (snd s)
  /\ style_overflow (snd (animate s)) = style_overflow (snd s)
  /\ style_visibility (snd (animate s)) = style_visibility (snd s)
  /\ appended (snd (animate s)) = appended (snd s)
  /\ pageYOffset (snd (animate s)) = pageYOffset (snd s)
  /\ scrollTop (snd (animate s)) = scrollTop (snd s).
Proof.
  destruct s as [this b]. unfold animate.
  destruct (isActive this); simpl; [| repeat split; reflexivity].
  match goal with |- context [foldl ?g b ?l] =>
    rewrite (foldl_preserves document g l b), (foldl_preserves listeners g l b),
      (foldl_preserves warnings g l b), (foldl_preserves style_position g l b),
      (foldl_preserves style_overflow g l b), (foldl_preserves style_visibility g l b),
      (foldl_preserves appended g l b), (foldl_preserves pageYOffset g l b),
      (foldl_preserves scrollTop g l b) by reflexivity
  end.
  repeat split; reflexivity.
Qed.

Lemma new_unfold (c : ContainerArg) (o : PartialOptions) (b : Browser) (el : Element) :
  resolve b c = Some el -> new c o b = inr (start (prepared el o b)).
Proof. intros H. unfold new. rewrite H. reflexivity. Qed.

Lemma prepared_fields (el : Element) (o : PartialOptions) (b : Browser) :
  let s := prepared el o b in
  isActive (fst s) = false
  /\ layers (fst s) = map (discover b) (querySelectorAll (document b) el)
  /\ container (fst s) = el
  /\ options (fst s) = spread default_options o
  /\ bounds (fst s) = Some (getBoundingClientRect (document b) el)
  /\ mouse (fst s) = {| x := 0; y := 0 |}
  /\ targetMouse (fst s) = {| x := 0; y := 0 |}
  /\ nextFrame (snd s) = nextFrame b
  /\ frames (snd s) = frames b
  /\ scroll_position (snd s) = scroll_position b
  /\ style_transform (snd s) = style_transform b.
Proof.
  cbv zeta. unfold prepared. simpl.
  repeat match goal with |- context [if ?c then _ else _] => destruct c end;
    simpl; repeat split; reflexivity.
Qed.
End Construct2D.

Section Construct2DFacts.
Import Js Dom SuperParallax.
Local Open Scope Q_scope.

Lemma discover_element (b : Browser) (els : list Element) :
  element <$> map (discover b) els = els.
Proof. induction els as [|e els IH]; simpl; [reflexivity |]. f_equal. exact IH. Qed.

(** What [start()] leaves alone in the browser. *)
Lemma start_browser_rest (s : State) :
  document (snd (start s)) = document (snd s)
  /\ listeners (snd (start s)) = listeners (snd s)
  /\ warnings (snd (start s)) = warnings (snd s)
  /\ style_position (snd (start s)) = style_position (snd s)
  /\ style_overflow (snd (start s)) = style_overflow (snd s).
Proof.
  destruct s as [this b]. unfold start.
  destruct (isActive this); [repeat split; reflexivity |].
  match goal with |- context [animate ?s0] =>
    destruct (animate_browser_rest s0) as (Hd & Hl & Hw & Hp & Ho & _)
  end.
  rewrite Hd, Hl, Hw, Hp, Ho. repeat split; reflexivity.
Qed.

(** Membership after [addEventListener]. *)
Lemma addEventListener_spec (l x : Listener) (b : Browser) :
  x ∈ listeners (addEventListener l b) <-> x = l \/ x ∈ listeners b.
Proof.
  unfold addEventListener. simpl. case_bool_decide as Hin.
  - split; [auto |]. intros [-> | H]; assumption.
  - rewrite elem_of_app, list_elem_of_singleton. tauto.
Qed.

Lemma addEventListener_NoDup (l : Listener) (b : Browser) :
  NoDup (listeners b) -> NoDup (listeners (addEventListener l b)).
Proof.
  intros Hnd. unfold addEventListener. simpl. case_bool_decide as Hin; [exact Hnd |].
  apply NoDup_app. split; [exact Hnd |]. split.
  - intros x Hx Hx'. apply list_elem_of_singleton in Hx'. by subst.
  - apply NoDup_singleton.
Qed.

Lemma addEventListeners_spec (s : State) (x : Listener) :
  x ∈ listeners (snd (addEventListeners s)) <->
  x ∈ listeners (snd s) \/ x = on_scroll \/ x = on_mousemove (fst s) \/ x = on_resize
  \/ (resetOnMouseLeave (options (fst s)) = true /\ x = on_mouseleave (fst s)).
Proof.
  destruct s as [this b]. unfold addEventListeners. simpl.
  destruct (resetOnMouseLeave (options this)); split.
  - intros H. repeat (apply addEventListener_spec in H; destruct H as [-> | H]; [tauto |]). tauto.
  - intros [H | [-> | [-> | [-> | [_ ->]]]]];
      repeat first [assumption | apply addEventListener_spec; first [left; reflexivity | right]].
  - intros H. repeat (apply addEventListener_spec in H; destruct H as [-> | H]; [tauto |]). tauto.
  - intros [H | [-> | [-> | [-> | [Hf _]]]]]; try discriminate Hf;
      repeat first [assumption | apply addEventListener_spec; first [left; reflexivity | right]].
Qed.

Lemma addEventListeners_NoDup (s : State) :
  NoDup (listeners (snd s)) -> NoDup (listeners (snd (addEventListeners s))).
Proof.
  destruct s as [this b]. unfold addEventListeners. simpl. intros Hnd.
  destruct (resetOnMouseLeave (options this)); repeat apply addEventListener_NoDup; exact Hnd.
Qed.

Lemma start_prepared_fields (el : Element) (o : PartialOptions) (b : Browser) :
  container (fst (start (prepared el o b))) = el
  /\ options (fst (start (prepared el o b))) = spread default_options o.
Proof.
  destruct (prepared_fields el o b) as (Hidle & _ & Hcont & Hopt & _).
  destruct (prepared el o b) as [this b']. simpl in *.
  destruct (start_idle this b' Hidle) as (_ & _ & _ & _ & _ & Ho & _ & Hc & _).
  rewrite Hc, Ho. auto.
Qed.
End Construct2DFacts.

Lemma new_fields
    (c : Dom.ContainerArg) (o : SuperParallax.PartialOptions) (b : Dom.Browser) (el : Dom.Element) :
  Dom.resolve b c = Some el ->
  exists s,
    SuperParallax.new c o b = inr s
    /\ SuperParallax.layers (fst s)
       = map (SuperParallax.discover b) (Dom.querySelectorAll (Dom.document b) el)
    /\ SuperParallax.element <$> SuperParallax.layers (fst s)
       = Dom.querySelectorAll (Dom.document b) el
    /\ SuperParallax.container (fst s) = el
    /\ SuperParallax.options (fst s) = SuperParallax.spread SuperParallax.default_options o
    /\ SuperParallax.bounds (fst s) = Some (Dom.getBoundingClientRect (Dom.document b) el)
    /\ SuperParallax.isActive (fst s) = true
    /\ SuperParallax.targetScroll (fst s) = Dom.scroll_position b
    /\ (SuperParallax.scroll (fst s) == Dom.scroll_position b)%Q
    /\ SuperParallax.animationFrameId (fst s) = Some (Dom.nextFrame b)
    /\ Dom.frames (snd s) = {[Dom.nextFrame b]} ∪ Dom.frames b.
Proof.
  intros Hres. exists (SuperParallax.start (prepared el o b)).
  split; [by apply new_unfold |].
  destruct (prepared_fields el o b) as
    (Hidle & Hlay & Hcont & Hopt & Hbnd & _ & _ & Hnext & Hfr & Hpos & _).
  destruct (prepared el o b) as [this b']. simpl in *.
  destruct (start_idle this b' Hidle) as
    (Ha & Hts & Hs & _ & _ & Ho & Hl & Hc & Hb & Hid & Hf).
  rewrite Hl, Hc, Ho, Hb, Ha, Hts, Hs, Hid, Hf, Hlay, Hcont, Hopt, Hbnd, Hnext, Hfr, Hpos.
  repeat split; try reflexivity.
  - apply discover_element.
  - unfold SuperParallax.lerp. ring.
Qed.

(** X8. When the container resolves, the 2D constructor returns a running
    controller: one layer per element that [querySelectorAll] found, in
    document order, read from the markup as it was before construction; the
    options are the defaults under the given ones; the bounds are cached;
    the scroll target and the smoothed scroll are at the page's scroll
    position; and exactly one frame has been requested, whose handle the
    controller holds. *)
Theorem new_returns_running_controller
    (c : Dom.ContainerArg) (o : SuperParallax.PartialOptions) (b : Dom.Browser) (el : Dom.Element) :
  Dom.resolve b c = Some el ->
  exists s,
    SuperParallax.new c o b = inr s
    /\ SuperParallax.layers (fst s)
       = map (SuperParallax.discover b) (Dom.querySelectorAll (Dom.document b) el)
    /\ SuperParallax.element <$> SuperParallax.layers (fst s)
       = Dom.querySelectorAll (Dom.document b) el
    /\ SuperParallax.container (fst s) = el
    /\ SuperParallax.options (fst s) = SuperParallax.spread SuperParallax.default_options o
    /\ SuperParallax.bounds (fst s) = Some (Dom.getBoundingClientRect (Dom.document b) el)
    /\ SuperParallax.isActive (fst s) = true
    /\ SuperParallax.targetScroll (fst s) = Dom.scroll_position b
    /\ (SuperParallax.scroll (fst s) == Dom.scroll_position b)%Q
    /\ SuperParallax.animationFrameId (fst s) = Some (Dom.nextFrame b)
    /\ Dom.frames (snd s) = {[Dom.nextFrame b]} ∪ Dom.frames b.
Proof. exact (new_fields c o b el). Qed.

Lemma new_returns_running_controller_witness :
  exists s,
    SuperParallax.new (Dom.Selector ".parallax-container") SuperParallax.no_options
      Example.browser0 = inr s
    /\ SuperParallax.element <$> SuperParallax.layers (fst s) = [1%nat; 2%nat].
Proof.
  destruct (new_returns_running_controller (Dom.Selector ".parallax-container")
              SuperParallax.no_options Example.browser0 0%nat eq_refl)
    as (s & Hnew & _ & Hel & _).
  exists s. split; [exact Hnew | exact Hel].
Defined.

Lemma new_browser_fields
    (c : Dom.ContainerArg) (o : SuperParallax.PartialOptions) (b : Dom.Browser) (el : Dom.Element) :
  Dom.resolve b c = Some el ->
  exists s,
    SuperParallax.new c o b = inr s
    /\ Dom.warnings (snd s)
       = match Dom.querySelectorAll (Dom.document b) el with
         | [] => Dom.warnings b
                 ++ ["No parallax layers found. Add data-parallax-layer attribute to elements."%string]
         | _ :: _ => Dom.warnings b
         end
    /\ Dom.style_position (snd s) !! el
       = Some (Js.or_str (default ""%string (Dom.style_position b !! el)) "relative")
    /\ Dom.style_overflow (snd s) !! el
       = Some (Js.or_str (default ""%string (Dom.style_overflow b !! el)) "hidden").
Proof.
  intros Hres. exists (SuperParallax.start (prepared el o b)).
  split; [by apply new_unfold |].
  destruct (start_browser_rest (prepared el o b)) as (_ & _ & Hw & Hp & Ho).
  rewrite Hw, Hp, Ho. unfold prepared. simpl.
  destruct (Dom.querySelectorAll (Dom.document b) el) as [|e els]; simpl;
    repeat match goal with |- context [if ?c then _ else _] => destruct c end; simpl;
    rewrite !lookup_insert_eq; repeat split; reflexivity.
Qed.

(** X9. Construction warns, and goes on, when it finds no layer: the console
    gets the one warning exactly when [querySelectorAll] returned nothing,
    and the controller is built either way.  The container's inline
    [position] and [overflow] are kept when they are set and become
    ['relative'] and ['hidden'] when they are empty. *)
Theorem new_warns_and_styles_container
    (c : Dom.ContainerArg) (o : SuperParallax.PartialOptions) (b : Dom.Browser) (el : Dom.Element) :
  Dom.resolve b c = Some el ->
  exists s,
    SuperParallax.new c o b = inr s
    /\ Dom.warnings (snd s)
       = match Dom.querySelectorAll (Dom.document b) el with
         | [] => Dom.warnings b
                 ++ ["No parallax layers found. Add data-parallax-layer attribute to elements."%string]
         | _ :: _ => Dom.warnings b
         end
    /\ Dom.style_position (snd s) !! el
       = Some (Js.or_str (default ""%string (Dom.style_position b !! el)) "relative")
    /\ Dom.style_overflow (snd s) !! el
       = Some (Js.or_str (default ""%string (Dom.style_overflow b !! el)) "hidden").
Proof. exact (new_browser_fields c o b el). Qed.

Lemma new_warns_and_styles_container_witness :
  exists s,
    SuperParallax.new (Dom.Ref (Some 7%nat)) SuperParallax.no_options Example.browser0 = inr s
    /\ Dom.warnings (snd s)
       = ["No parallax layers found. Add data-parallax-layer attribute to elements."%string]
    /\ Dom.style_position (snd s) !! 7%nat = Some "relative"%string.
Proof.
  destruct (new_warns_and_styles_container (Dom.Ref (Some 7%nat)) SuperParallax.no_options
              Example.browser0 7%nat eq_refl) as (s & Hnew & Hw & Hp & _).
  exists s. split; [exact Hnew |]. split; [exact Hw | exact Hp].
Defined.

Lemma new_listeners
    (c : Dom.ContainerArg) (o : SuperParallax.PartialOptions) (b : Dom.Browser) (el : Dom.Element) :
  Dom.resolve b c = Some el ->
  exists s,
    SuperParallax.new c o b = inr s
    /\ (forall x,
          x ∈ Dom.listeners (snd s) <->
          x ∈ Dom.listeners b \/ x = SuperParallax.on_scroll
          \/ x = SuperParallax.on_mousemove (fst s) \/ x = SuperParallax.on_resize
          \/ (SuperParallax.resetOnMouseLeave (SuperParallax.options (fst s)) = true
              /\ x = SuperParallax.on_mouseleave (fst s)))
    /\ (NoDup (Dom.listeners b) -> NoDup (Dom.listeners (snd s))).
Proof.
  intros Hres. exists (SuperParallax.start (prepared el o b)).
  split; [by apply new_unfold |].
  destruct (start_prepared_fields el o b) as (Hc & Ho).
  destruct (start_browser_rest (prepared el o b)) as (_ & Hl & _).
  rewrite Hl. unfold SuperParallax.on_mousemove, SuperParallax.on_mouseleave. rewrite Hc, Ho.
  unfold prepared. split.
  - intros x. rewrite addEventListeners_spec. simpl.
    repeat match goal with |- context [if ?c then _ else _] => destruct c end; simpl; tauto.
  - intros Hnd. apply addEventListeners_NoDup. simpl.
    repeat match goal with |- context [if ?c then _ else _] => destruct c end; simpl; exact Hnd.
Qed.

(** X10. After construction the listeners of the page are those it had plus
    the controller's own: [scroll] and [resize] on the window and
    [mousemove] on the container always, [mouseleave] on the container only
    when [resetOnMouseLeave] is set.  No registration is made twice. *)
Theorem new_registers_listeners
    (c : Dom.ContainerArg) (o : SuperParallax.PartialOptions) (b : Dom.Browser) (el : Dom.Element) :
  Dom.resolve b c = Some el ->
  exists s,
    SuperParallax.new c o b = inr s
    /\ (forall x,
          x ∈ Dom.listeners (snd s) <->
          x ∈ Dom.listeners b \/ x = SuperParallax.on_scroll
          \/ x = SuperParallax.on_mousemove (fst s) \/ x = SuperParallax.on_resize
          \/ (SuperParallax.resetOnMouseLeave (SuperParallax.options (fst s)) = true
              /\ x = SuperParallax.on_mouseleave (fst s)))
    /\ (NoDup (Dom.listeners b) -> NoDup (Dom.listeners (snd s))).
Proof. exact (new_listeners c o b el). Qed.

Lemma new_registers_listeners_witness :
  exists s,
    SuperParallax.new (Dom.Selector ".parallax-container") SuperParallax.no_options
      Example.browser0 = inr s
    /\ SuperParallax.on_scroll ∈ Dom.listeners (snd s)
    /\ NoDup (Dom.listeners (snd s)).
Proof.
  destruct (new_registers_listeners (Dom.Selector ".parallax-container")
              SuperParallax.no_options Example.browser0 0%nat eq_refl)
    as (s & Hnew & Hmem & Hnd).
  exists s. split; [exact Hnew |]. split.
  - apply Hmem. right. left. reflexivity.
  - apply Hnd. apply NoDup_nil_2.
Defined.

Section FirstRender.
Import Js Dom SuperParallax.
Local Open Scope Q_scope.

(** The offset in a style written by a tick, for any mask. *)
Lemma layerTransform_translation (this : t) (l : Layer) :
  translation (layerTransform this l)
  = (if String.eqb (axis l) "both" || String.eqb (axis l) "x"
     then x (mouse this) * mouseSpeed l * mouseMultiplier (options this) * 50
     else 0,
     if String.eqb (axis l) "both" || String.eqb (axis l) "y"
     then - (scroll this * scrollSpeed l * scrollMultiplier (options this) * (1 # 2))
          + y (mouse this) * mouseSpeed l * mouseMultiplier (options this) * 50
     else if String.eqb (axis l) "x"
     then - (scroll this * scrollSpeed l * scrollMultiplier (options this) * (1 # 2))
     else 0).
Proof.
  unfold layerTransform. destruct (truthy_str (initialTransform l)); reflexivity.
Qed.

Lemma start_idle_unfold (this : t) (b : Browser) :
  isActive this = false ->
  start (this, b)
  = animate (set_scroll (scroll_position b)
               (set_targetScroll (scroll_position b) (set_isActive true this)), b).
Proof. intros H. unfold start. rewrite H. reflexivity. Qed.

Lemma first_render (el : Element) (o : PartialOptions) (b : Browser) (e : Element) :
  NoDup (querySelectorAll (document b) el) ->
  e ∈ querySelectorAll (document b) el ->
  let s := start (prepared el o b) in
  let l := discover b e in
  transform_of (snd s) e = layerTransform (fst s) l
  /\ x (mouse (fst s)) == 0 /\ y (mouse (fst s)) == 0
  /\ scroll (fst s) == scroll_position b
  /\ options (fst s) = spread default_options o.
Proof.
  intros Hnd He. cbv zeta.
  destruct (prepared_fields el o b) as
    (Hidle & Hlay & _ & Hopt & _ & Hm & Htm & _ & _ & Hpos & _).
  destruct (prepared el o b) as [this b']. simpl in *.
  rewrite (start_idle_unfold this b' Hidle).
  set (seeded := set_scroll (scroll_position b')
                   (set_targetScroll (scroll_position b') (set_isActive true this))).
  apply list_elem_of_lookup in He as [i Hi].
  assert (Hreg : registered_last (layers (fst (seeded, b'))) i (discover b e)).
  { simpl. rewrite Hlay. apply distinct_registered_last.
    - rewrite discover_element. exact Hnd.
    - rewrite list_lookup_fmap, Hi. reflexivity. }
  pose proof (animate_writes_layerTransform (seeded, b') i (discover b e) eq_refl Hreg) as Hw.
  simpl in Hw. split; [exact Hw |].
  destruct (animate_active seeded b' eq_refl) as (Hs & Hmo & _ & _ & Ho & _).
  rewrite Hs, Hmo, Ho. simpl. rewrite Hm, Htm, Hpos, Hopt. simpl. unfold lerp.
  repeat split; try reflexivity; ring.
Qed.
End FirstRender.

(** X11. The constructor draws once before it returns: [start()] runs the
    first tick at once.  For a container whose layer elements are pairwise
    different, every element already carries its layer's offset for the
    page's scroll position: no horizontal offset, since the pointer starts
    at the origin, and for the masks ['both'], ['x'] and ['y'] the vertical
    offset [-(scrollPosition * scrollSpeed * scrollMultiplier * 0.5)]. *)
Theorem new_draws_first_frame
    (c : Dom.ContainerArg) (o : SuperParallax.PartialOptions) (b : Dom.Browser)
    (el e : Dom.Element) :
  Dom.resolve b c = Some el ->
  NoDup (Dom.querySelectorAll (Dom.document b) el) ->
  e ∈ Dom.querySelectorAll (Dom.document b) el ->
  exists s,
    SuperParallax.new c o b = inr s
    /\ let l := SuperParallax.discover b e in
       let written := translation (Dom.transform_of (snd s) e) in
       (fst written == 0)%Q
       /\ (SuperParallax.axis l = "both"%string \/ SuperParallax.axis l = "x"%string
           \/ SuperParallax.axis l = "y"%string ->
           (snd written
            == - (Dom.scroll_position b * SuperParallax.scrollSpeed l
                  * SuperParallax.scrollMultiplier
                      (SuperParallax.spread SuperParallax.default_options o) * (1 # 2)))%Q).
Proof.
  intros Hres Hnd He. exists (SuperParallax.start (prepared el o b)).
  split; [by apply new_unfold |]. cbv zeta.
  destruct (first_render el o b e Hnd He) as (Hw & Hx & Hy & Hs & Ho).
  rewrite Hw, layerTransform_translation, Ho. cbn [fst snd]. split.
  - destruct (_ || _); [rewrite Hx; ring | reflexivity].
  - intros [Ha | [Ha | Ha]]; rewrite Ha; cbn [String.eqb Ascii.eqb Bool.eqb orb];
      rewrite ?Hy, Hs; ring.
Qed.

Lemma new_draws_first_frame_witness :
  exists s,
    SuperParallax.new (Dom.Selector ".parallax-container") SuperParallax.no_options
      {| Dom.document := Example.page; Dom.pageYOffset := 100; Dom.scrollTop := 100;
         Dom.style_transform := ∅; Dom.style_position := ∅; Dom.style_overflow := ∅;
         Dom.style_visibility := ∅; Dom.appended := []; Dom.listeners := [];
         Dom.frames := ∅; Dom.nextFrame := 1%positive; Dom.warnings := [] |} = inr s
    /\ (snd (translation (Dom.transform_of (snd s) 2%nat)) == - 50)%Q.
Proof.
  set (b := {| Dom.document := Example.page; Dom.pageYOffset := 100; Dom.scrollTop := 100;
               Dom.style_transform := ∅; Dom.style_position := ∅; Dom.style_overflow := ∅;
               Dom.style_visibility := ∅; Dom.appended := []; Dom.listeners := [];
               Dom.frames := ∅; Dom.nextFrame := 1%positive; Dom.warnings := [] |}).
  assert (Hnd : NoDup (Dom.querySelectorAll (Dom.document b) 0%nat)).
  { apply (bool_decide_eq_true_1 (NoDup (Dom.querySelectorAll (Dom.document b) 0%nat))).
    vm_compute. reflexivity. }
  assert (He : 2%nat ∈ Dom.querySelectorAll (Dom.document b) 0%nat).
  { apply list_elem_of_lookup. exists 1%nat. reflexivity. }
  destruct (new_draws_first_frame (Dom.Selector ".parallax-container") SuperParallax.no_options
              b 0%nat 2%nat eq_refl Hnd He) as (s & Hnew & _ & Hy).
  exists s. split; [exact Hnew |].
  rewrite (Hy (or_introl eq_refl)). vm_compute. reflexivity.
Defined.

(** ** From construction to destruction *)

Section Lifecycle2D.
Import Js Dom SuperParallax.

Lemma unregistered_iff (c : t) (ls : list Listener) (l : Listener) :
  l ∈ unregistered c ls <->
  l ∈ ls /\ l ≠ on_scroll /\ l ≠ on_mousemove c /\ l ≠ on_mouseleave c /\ l ≠ on_resize.
Proof. unfold unregistered. rewrite !list_elem_of_filter. tauto. Qed.

Lemma stop_frames (s : State) (id : positive) :
  animationFrameId (fst s) = Some id ->
  frames (snd (stop s)) = frames (snd s) ∖ {[id]}.
Proof.
  destruct s as [this b]. simpl. intros Hid. unfold stop. simpl. rewrite Hid. reflexivity.
Qed.

(** What [destroy()] leaves alone in the browser. *)
Lemma destroy_browser_rest (s : State) :
  document (snd (destroy s)) = document (snd s)
  /\ warnings (snd (destroy s)) = warnings (snd s)
  /\ style_position (snd (destroy s)) = style_position (snd s)
  /\ style_overflow (snd (destroy s)) = style_overflow (snd s)
  /\ nextFrame (snd (destroy s)) = nextFrame (snd s).
Proof.
  assert (Hreset : forall b layer,
    document (resetTransform b layer) = document b
    /\ warnings (resetTransform b layer) = warnings b
    /\ style_position (resetTransform b layer) = style_position b
    /\ style_overflow (resetTransform b layer) = style_overflow b
    /\ nextFrame (resetTransform b layer) = nextFrame b).
  { intros b layer. unfold resetTransform. destruct (truthy_str _); repeat split; reflexivity. }
  destruct s as [this b]. unfold destroy, stop. simpl.
  destruct (animationFrameId this); simpl;
    rewrite (foldl_preserves document resetTransform), (foldl_preserves warnings resetTransform),
      (foldl_preserves style_position resetTransform),
      (foldl_preserves style_overflow resetTransform),
      (foldl_preserves nextFrame resetTransform) by (intros; apply Hreset);
    repeat split; reflexivity.
Qed.
End Lifecycle2D.

(** X12. Construction followed by [destroy()], for a container whose layer
    elements are pairwise different.  The registry is empty, the controller
    idle, the frame the constructor requested is cancelled, and the page's
    listeners are those it had before, less any that equal the controller's
    own four.  Every layer element is left with the transform that was
    computed for it at construction as its inline transform (the empty text
    when that was ['none']), and the container keeps the [position] and
    [overflow] the constructor gave it. *)
Theorem new_then_destroy
    (c : Dom.ContainerArg) (o : SuperParallax.PartialOptions) (b : Dom.Browser) (el : Dom.Element) :
  Dom.resolve b c = Some el ->
  NoDup (Dom.querySelectorAll (Dom.document b) el) ->
  exists s,
    SuperParallax.new c o b = inr s
    /\ let s' := SuperParallax.destroy s in
       SuperParallax.layers (fst s') = []
       /\ SuperParallax.isActive (fst s') = false
       /\ Dom.frames (snd s') = Dom.frames b ∖ {[Dom.nextFrame b]}
       /\ (forall x,
             x ∈ Dom.listeners (snd s') <->
             x ∈ Dom.listeners b
             /\ x <> SuperParallax.on_scroll /\ x <> SuperParallax.on_mousemove (fst s)
             /\ x <> SuperParallax.on_mouseleave (fst s) /\ x <> SuperParallax.on_resize)
       /\ (forall e, e ∈ Dom.querySelectorAll (Dom.document b) el ->
             Dom.transform_of (snd s') e = Dom.Verbatim (SuperParallax.getInitialTransform b e))
       /\ Dom.style_position (snd s') !! el
          = Some (Js.or_str (default ""%string (Dom.style_position b !! el)) "relative")
       /\ Dom.style_overflow (snd s') !! el
          = Some (Js.or_str (default ""%string (Dom.style_overflow b !! el)) "hidden").
Proof.
  intros Hres Hnd.
  destruct (new_fields c o b el Hres)
    as (s & Hnew & Hlay & Hels & _ & _ & _ & _ & _ & _ & Hid & Hfr).
  destruct (new_browser_fields c o b el Hres) as (s1 & Hnew1 & _ & Hpos & Hov).
  destruct (new_listeners c o b el Hres) as (s2 & Hnew2 & Hmem & _).
  assert (s1 = s) by congruence. assert (s2 = s) by congruence. subst s1 s2.
  exists s. split; [exact Hnew |]. cbv zeta.
  destruct (destroy_spec s) as (Hact & _ & Hempty & Hfr' & Hlis & Hsty).
  destruct (destroy_browser_rest s) as (_ & _ & Hp & Ho & _).
  split; [exact Hempty |]. split; [exact Hact |]. split; [| split; [| split; [| split]]].
  - rewrite Hfr', (stop_frames s _ Hid), Hfr. set_solver.
  - intros x. rewrite Hlis, unregistered_iff, Hmem. intuition congruence.
  - intros e He. apply list_elem_of_lookup in He as [i Hi].
    assert (Hreg : registered_last (SuperParallax.layers (fst s)) i (SuperParallax.discover b e)).
    { apply distinct_registered_last.
      - rewrite Hels. exact Hnd.
      - rewrite Hlay, list_lookup_fmap, Hi. reflexivity. }
    exact (Hsty i _ Hreg).
  - rewrite Hp. exact Hpos.
  - rewrite Ho. exact Hov.
Qed.

Lemma new_then_destroy_witness :
  exists s,
    SuperParallax.new (Dom.Selector ".parallax-container") SuperParallax.no_options
      Example.browser0 = inr s
    /\ Dom.transform_of (snd (SuperParallax.destroy s)) 2%nat
       = Dom.Verbatim "matrix(1, 0, 0, 1, 0, 8)"
    /\ Dom.frames (snd (SuperParallax.destroy s)) = ∅.
Proof.
  assert (Hnd : NoDup (Dom.querySelectorAll (Dom.document Example.browser0) 0%nat)).
  { apply (bool_decide_eq_true_1
             (NoDup (Dom.querySelectorAll (Dom.document Example.browser0) 0%nat))).
    vm_compute. reflexivity. }
  destruct (new_then_destroy (Dom.Selector ".parallax-container") SuperParallax.no_options
              Example.browser0 0%nat eq_refl Hnd) as (s & Hnew & _ & _ & Hfr & _ & Hsty & _).
  exists s. split; [exact Hnew |]. split.
  - apply Hsty. apply list_elem_of_lookup. exists 1%nat. reflexivity.
  - rewrite Hfr. reflexivity.
Defined.

Section Destroy2DTwice.
Import Js Dom SuperParallax.

Lemma filter_id {A} (P : A -> Prop) `{!forall x, Decision (P x)} (l : list A) :
  (forall x, x ∈ l -> P x) -> filter P l = l.
Proof.
  induction l as [|a l IH]; intros Hall; [reflexivity |].
  rewrite filter_cons_True by (apply Hall; left).
  f_equal. apply IH. intros x Hx. apply Hall. by right.
Qed.

Lemma removeEventListener_absent (l : Listener) (b : Browser) :
  l ∉ listeners b -> removeEventListener l b = b.
Proof.
  intros Hl. unfold removeEventListener, set_listeners.
  rewrite filter_id; [destruct b; reflexivity |].
  intros x Hx ->. contradiction.
Qed.

Lemma removeEventListeners_absent (c : t) (b : Browser) :
  on_scroll ∉ listeners b -> on_mousemove c ∉ listeners b ->
  on_mouseleave c ∉ listeners b -> on_resize ∉ listeners b ->
  removeEventListeners (c, b) = (c, b).
Proof.
  intros H1 H2 H3 H4. unfold removeEventListeners.
  rewrite (removeEventListener_absent on_scroll b H1).
  rewrite (removeEventListener_absent (on_mousemove c) b H2).
  rewrite (removeEventListener_absent (on_mouseleave c) b H3).
  rewrite (removeEventListener_absent on_resize b H4). reflexivity.
Qed.

Lemma destroy_container (s : State) : container (fst (destroy s)) = container (fst s).
Proof.
  destruct s as [this b]. unfold destroy, stop. simpl.
  destruct (animationFrameId this); reflexivity.
Qed.

Lemma destroy_twice (s : State) : destroy (destroy s) = destroy s.
Proof.
  destruct (destroy_spec s) as (Hact & Hid & Hlay & _ & Hlis & _).
  pose proof (destroy_container s) as Hcont.
  destruct (destroy s) as [this1 b1]. simpl in *.
  assert (Hfour : forall l, l ∈ listeners b1 ->
            l ≠ on_scroll /\ l ≠ on_mousemove this1 /\ l ≠ on_mouseleave this1 /\ l ≠ on_resize).
  { intros l Hl. rewrite Hlis in Hl. apply unregistered_spec in Hl.
    unfold on_mousemove, on_mouseleave in *. rewrite Hcont. exact Hl. }
  unfold destroy, stop. simpl. rewrite Hid.
  assert (Hrm : removeEventListeners (set_isActive false this1, b1)
                = (set_isActive false this1, b1)).
  { apply removeEventListeners_absent; intros Hin; apply Hfour in Hin;
      unfold on_mousemove, on_mouseleave in *; simpl in *; tauto. }
  rewrite Hrm. simpl. rewrite Hlay. simpl.
  destruct this1; simpl in *; subst; reflexivity.
Qed.

(** A loop that writes one style per item leaves the style of a key that no
    item has. *)
Lemma foldl_style_other {A} (g : Browser -> A -> Browser) (key : A -> Element) (val : A -> css)
    (l : list A) (b : Browser) (e : Element) :
  (forall b a, style_transform (g b a) = <[key a := val a]> (style_transform b)) ->
  (forall a, a ∈ l -> key a <> e) ->
  style_transform (foldl g b l) !! e = style_transform b !! e.
Proof.
  intros Hg. revert b. induction l as [|a l IH]; intros b Hne; [reflexivity |].
  simpl. rewrite IH by (intros a' Ha'; apply Hne; by right).
  rewrite Hg. apply lookup_insert_ne. apply Hne. left.
Qed.

Lemma animate_style_other (s : State) (e : Element) :
  (forall l, l ∈ layers (fst s) -> element l <> e) ->
  style_transform (snd (animate s)) !! e = style_transform (snd s) !! e.
Proof.
  destruct s as [this b]. simpl. intros Hne. unfold animate.
  destruct (isActive this); [| reflexivity]. simpl.
  match goal with |- context [foldl ?g b ?ls] =>
    match g with
    | (fun b0 layer => set_style_transform (insert (element layer) (layerTransform ?c layer)) b0) =>
        exact (foldl_style_other g element (layerTransform c) ls b e
                 (fun _ _ => eq_refl) Hne)
    end
  end.
Qed.
End Destroy2DTwice.

(** X13. [destroy()] can be called again: a second call changes nothing.
    The registry is already empty, the loop already stopped and the
    listeners already gone. *)
Theorem destroy_is_idempotent (s : SuperParallax.State) :
  SuperParallax.destroy (SuperParallax.destroy s) = SuperParallax.destroy s.
Proof. apply destroy_twice. Qed.

(** X14. A tick writes the transform of the elements that have a layer and
    of no other: the inline transform of an element without a layer is the
    same after [animate], and so are every [position], [overflow] and
    [visibility], the listeners and the console. *)
Theorem animate_writes_layer_elements_only (s : SuperParallax.State) (e : Dom.Element) :
  (forall l, l ∈ SuperParallax.layers (fst s) -> SuperParallax.element l <> e) ->
  Dom.style_transform (snd (SuperParallax.animate s)) !! e = Dom.style_transform (snd s) !! e
  /\ Dom.listeners (snd (SuperParallax.animate s)) = Dom.listeners (snd s)
  /\ Dom.warnings (snd (SuperParallax.animate s)) = Dom.warnings (snd s)
  /\ Dom.style_position (snd (SuperParallax.animate s)) = Dom.style_position (snd s)
  /\ Dom.style_overflow (snd (SuperParallax.animate s)) = Dom.style_overflow (snd s)
  /\ Dom.style_visibility (snd (SuperParallax.animate s)) = Dom.style_visibility (snd s).
Proof.
  intros Hne. split; [by apply animate_style_other |].
  destruct (animate_browser_rest s) as (_ & Hl & Hw & Hp & Ho & Hv & _). auto.
Qed.

Lemma animate_writes_layer_elements_only_witness :
  Dom.style_transform (snd (SuperParallax.animate Example.running2d)) !! 0%nat
  = Dom.style_transform (snd Example.running2d) !! 0%nat.
Proof.
  assert (Hls : SuperParallax.element <$> SuperParallax.layers (fst Example.running2d)
                = [1%nat; 2%nat]) by (vm_compute; reflexivity).
  assert (Hne : forall l, l ∈ SuperParallax.layers (fst Example.running2d) ->
                 SuperParallax.element l <> 0%nat).
  { intros l Hl Heq.
    assert (Hin : 0%nat ∈ SuperParallax.element <$> SuperParallax.layers (fst Example.running2d))
      by (apply list_elem_of_fmap; exists l; auto).
    rewrite Hls in Hin.
    apply elem_of_cons in Hin as [Hin | Hin]; [discriminate Hin |].
    apply elem_of_cons in Hin as [Hin | Hin]; [discriminate Hin |].
    by apply elem_of_nil in Hin. }
  exact (proj1 (animate_writes_layer_elements_only Example.running2d 0%nat Hne)).
Defined.

(** ** Restarting, and the loop that keeps going *)

Section Loop2DMore.
Import Js Dom SuperParallax.

Lemma animate_layers (s : State) : layers (fst (animate s)) = layers (fst s).
Proof.
  destruct s as [this b]. destruct (isActive this) eqn:Hact.
  - by destruct (animate_active this b Hact) as (_ & _ & _ & _ & _ & Hl & _).
  - rewrite animate2d_idle by exact Hact. reflexivity.
Qed.

Lemma iter_animate_layers (s : State) (n : nat) :
  layers (fst (Nat.iter n animate s)) = layers (fst s).
Proof.
  induction n as [|n IH]; [reflexivity |]. simpl Nat.iter. by rewrite animate_layers.
Qed.

Lemma iter_animate_style_other (s : State) (n : nat) (e : Element) :
  (forall l, l ∈ layers (fst s) -> element l <> e) ->
  style_transform (snd (Nat.iter n animate s)) !! e = style_transform (snd s) !! e.
Proof.
  intros Hne. induction n as [|n IH]; [reflexivity |]. simpl Nat.iter.
  rewrite animate_style_other; [exact IH |]. rewrite iter_animate_layers. exact Hne.
Qed.

(** A running controller holds the handle of a frame. *)
Lemma reachable_holds_frame (s : State) :
  reachable s -> isActive (fst s) = true -> is_Some (animationFrameId (fst s)).
Proof.
  induction 1 as [c o b s Hfr Hnew | s _ IH | s _ IH | s _ IH | s el d ss ms _ IH | s v _ IH
                 | s o _ IH | s _ IH | s top _ IH | s _ IH | s e s' _ IH Hmove | s _ IH
                 | s id _ IH]; intros Hact.
  - destruct (resolve b c) as [el|] eqn:Hres;
      [| unfold new in Hnew; rewrite Hres in Hnew; discriminate].
    destruct (new_fields c o b el Hres) as (s0 & Hnew0 & Hrest).
    assert (s0 = s) by congruence. subst s0.
    destruct Hrest as (_ & _ & _ & _ & _ & _ & _ & _ & Hid & _). rewrite Hid. eauto.
  - destruct s as [this b]. destruct (isActive this) eqn:Ha.
    + rewrite start_running by exact Ha. by apply IH.
    + destruct (start_idle this b Ha) as (_ & _ & _ & _ & _ & _ & _ & _ & _ & Hid & _).
      rewrite Hid. eauto.
  - destruct (stop_inactive s) as [Ha _]. congruence.
  - destruct (destroy_spec s) as (Ha & _). congruence.
  - destruct s as [this b]. by apply IH.
  - destruct s as [this b]. unfold removeLayer in *. destruct (negb _); by apply IH.
  - destruct s as [this b]. by apply IH.
  - destruct s as [this b]. by apply IH.
  - destruct s as [this b]. by apply IH.
  - destruct s as [this b]. by apply IH.
  - destruct (handleMouseMove_writes e s s' Hmove) as (_ & Hsame & _).
    destruct Hsame as (_ & _ & _ & _ & _ & Hid & Ha). rewrite Hid. apply IH. congruence.
  - destruct s as [this b]. by apply IH.
  - destruct s as [this b]. unfold frame in *. case_bool_decide as Hin; [| by apply IH].
    destruct (isActive this) eqn:Ha.
    + match goal with |- context [animate (this, ?b0)] =>
        destruct (animate_frames this b0 Ha) as (_ & Hid)
      end.
      rewrite Hid. eauto.
    + rewrite animate2d_idle in Hact by exact Ha. simpl in Hact. congruence.
Qed.
End Loop2DMore.

(** X15. A destroyed controller can be started again: [start()] makes it
    active and requests a frame as on any idle controller.  It then runs
    with the empty registry and without its listeners: the tick writes no
    style and nothing was registered again. *)
Theorem start_after_destroy (s : SuperParallax.State) :
  let d := SuperParallax.destroy s in
  let s' := SuperParallax.start d in
  SuperParallax.isActive (fst s') = true
  /\ SuperParallax.layers (fst s') = []
  /\ SuperParallax.animationFrameId (fst s') = Some (Dom.nextFrame (snd d))
  /\ Dom.frames (snd s') = {[Dom.nextFrame (snd d)]} ∪ Dom.frames (snd d)
  /\ Dom.style_transform (snd s') = Dom.style_transform (snd d)
  /\ Dom.listeners (snd s') = Dom.listeners (snd d).
Proof.
  cbv zeta. destruct (destroy_spec s) as (Hidle & _ & Hlay & _).
  destruct (start_browser_rest (SuperParallax.destroy s)) as (_ & Hlis & _).
  destruct (SuperParallax.destroy s) as [this b]. simpl in *.
  destruct (start_idle this b Hidle) as (Ha & _ & _ & _ & _ & _ & Hl & _ & _ & Hid & Hf).
  rewrite Ha, Hl, Hid, Hf, Hlay, Hlis. repeat split; try reflexivity.
  apply map_eq. intros e. rewrite (start_idle_unfold this b Hidle).
  apply animate_style_other. simpl. rewrite Hlay. intros l Hl'. by apply elem_of_nil in Hl'.
Qed.

(** X16. The loop does not end by itself.  A controller that was built by the
    constructor and driven through its methods, its handlers and the
    browser's frames has, while it is active, exactly one frame pending, the
    one whose handle it holds; when the browser runs that frame the
    controller is still active and exactly one new frame is pending. *)
Theorem running_loop_keeps_one_frame_pending (s : SuperParallax.State) :
  SuperParallax.reachable s ->
  SuperParallax.isActive (fst s) = true ->
  exists id,
    SuperParallax.animationFrameId (fst s) = Some id
    /\ Dom.frames (snd s) = {[id]}
    /\ let s' := SuperParallax.frame id s in
       SuperParallax.isActive (fst s') = true
       /\ SuperParallax.animationFrameId (fst s') = Some (Dom.nextFrame (snd s))
       /\ Dom.frames (snd s') = {[Dom.nextFrame (snd s)]}.
Proof.
  intros Hreach Hact.
  destruct (reachable_holds_frame s Hreach Hact) as [id Hid].
  destruct (reachable_loop_inv s Hreach) as [Hfr _].
  rewrite Hid in Hfr. simpl in Hfr.
  exists id. split; [exact Hid |]. split; [exact Hfr |]. cbv zeta.
  destruct s as [this b]. simpl in *. unfold SuperParallax.frame.
  rewrite bool_decide_eq_true_2 by (rewrite Hfr; by apply elem_of_singleton).
  match goal with |- context [SuperParallax.animate (this, ?b0)] =>
    destruct (animate_active this b0 Hact) as (_ & _ & _ & _ & _ & _ & _ & Ha);
    destruct (animate_frames this b0 Hact) as (Hf & Hid')
  end.
  rewrite Ha, Hid', Hf. simpl. rewrite Hfr, difference_diag_L.
  repeat split; try reflexivity. apply (right_id_L ∅ (∪)).
Qed.

Lemma running_loop_keeps_one_frame_pending_witness :
  exists id,
    SuperParallax.animationFrameId (fst Example.running2d) = Some id
    /\ Dom.frames (snd Example.running2d) = {[id]}.
Proof.
  assert (Hact : SuperParallax.isActive (fst Example.running2d) = true)
    by (vm_compute; reflexivity).
  destruct (running_loop_keeps_one_frame_pending Example.running2d running2d_reachable Hact)
    as (id & Hid & Hfr & _).
  exists id. split; [exact Hid | exact Hfr].
Defined.

(** ** Adding and removing layers while the loop runs *)

Section RegistryMore.
Import Js Dom SuperParallax.

Lemma findIndex_first {A} (p : A -> bool) (pre post : list A) (a : A) :
  existsb p pre = false -> p a = true ->
  findIndex p (pre ++ a :: post) = Z.of_nat (length pre).
Proof.
  intros Hpre Ha. induction pre as [|a0 pre IH]; simpl in *.
  - rewrite Ha. reflexivity.
  - destruct (p a0); simpl in Hpre; [discriminate |]. rewrite (IH Hpre).
    destruct (Z.eqb_spec (Z.of_nat (length pre)) (-1)); lia.
Qed.

Lemma splice1_middle {A} (pre post : list A) (a : A) :
  splice1 (Z.of_nat (length pre)) (pre ++ a :: post) = pre ++ post.
Proof.
  unfold splice1. rewrite Nat2Z.id.
  induction pre as [|a0 pre IH]; simpl; [reflexivity |]. f_equal. exact IH.
Qed.

Lemma removeLayer_first (el : Element) (s : State) (pre post : list Layer) (l : Layer) :
  layers (fst s) = pre ++ l :: post ->
  element l = el ->
  registered el pre = false ->
  removeLayer (VElement el) s = (set_layers (pre ++ post) (fst s), snd s).
Proof.
  destruct s as [this b]. simpl. intros Hl Hel Hpre. unfold removeLayer. rewrite Hl.
  rewrite (findIndex_first _ pre post l); [| exact Hpre | simpl; rewrite Hel; apply Nat.eqb_refl].
  destruct (Z.eqb_spec (Z.of_nat (length pre)) (-1)) as [Hneg | _]; [lia |].
  simpl. rewrite splice1_middle. reflexivity.
Qed.

Lemma registered_false (el : Element) (ls : list Layer) :
  registered el ls = false -> forall l, l ∈ ls -> element l <> el.
Proof.
  unfold registered. intros H l Hl Heq.
  assert (Ht : existsb (fun l => Nat.eqb (element l) el) ls = true); [| congruence].
  apply existsb_exists. exists l. split; [by apply list_elem_of_In |].
  rewrite Heq. apply Nat.eqb_refl.
Qed.

Lemma registered_app (el : Element) (l1 l2 : list Layer) :
  registered el (l1 ++ l2) = registered el l1 || registered el l2.
Proof. unfold registered. apply existsb_app. Qed.
End RegistryMore.

(** X17. [removeLayer(element)] takes out one layer, the first that is
    attached to the element: the layers before and after it stay, in their
    order, also those after it that are attached to the same element, and
    nothing else of the state changes. *)
Theorem removeLayer_removes_first_match
    (el : Dom.Element) (s : SuperParallax.State)
    (pre post : list SuperParallax.Layer) (l : SuperParallax.Layer) :
  SuperParallax.layers (fst s) = pre ++ l :: post ->
  SuperParallax.element l = el ->
  registered el pre = false ->
  let s' := SuperParallax.removeLayer (SuperParallax.VElement el) s in
  s' = (SuperParallax.set_layers (pre ++ post) (fst s), snd s)
  /\ SuperParallax.layers (fst s') = pre ++ post
  /\ registered el (SuperParallax.layers (fst s')) = registered el post.
Proof.
  intros Hl Hel Hpre. cbv zeta. rewrite (removeLayer_first el s pre post l Hl Hel Hpre).
  simpl. rewrite registered_app, Hpre. repeat split; reflexivity.
Qed.

Lemma removeLayer_removes_first_match_witness :
  SuperParallax.element
    <$> SuperParallax.layers
          (fst (SuperParallax.removeLayer (SuperParallax.VElement 2%nat) Example.at100))
  = [1%nat; 3%nat].
Proof.
  assert (Hl : SuperParallax.layers (fst Example.at100)
               = [SuperParallax.discover Example.browser0 1%nat]
                 ++ SuperParallax.discover Example.browser0 2%nat :: [fst Example.added])
    by (vm_compute; reflexivity).
  rewrite (proj1 (proj2 (removeLayer_removes_first_match 2%nat Example.at100 _ _ _ Hl
                           eq_refl eq_refl))).
  vm_compute. reflexivity.
Defined.

(** X18. A layer added while the loop runs is drawn by the next tick, and its
    write is the one that stays on its element even when the element already
    had a layer.  It has the mask ['both']; an omitted depth is 1, an omitted
    speed is the depth, and a speed that is given is kept, zero included. *)
Theorem addLayer_is_drawn_by_next_tick
    (el : Dom.Element) (d ss ms : option Q) (s : SuperParallax.State) :
  SuperParallax.isActive (fst s) = true ->
  let l := fst (SuperParallax.addLayer el d ss ms s) in
  let s1 := SuperParallax.animate (snd (SuperParallax.addLayer el d ss ms s)) in
  SuperParallax.depth l = default 1%Q d
  /\ SuperParallax.scrollSpeed l = default (default 1%Q d) ss
  /\ SuperParallax.mouseSpeed l = default (default 1%Q d) ms
  /\ SuperParallax.axis l = "both"%string
  /\ SuperParallax.initialTransform l = SuperParallax.getInitialTransform (snd s) el
  /\ Dom.transform_of (snd s1) el = SuperParallax.layerTransform (fst s1) l
  /\ translation (Dom.transform_of (snd s1) el)
     = ((SuperParallax.x (SuperParallax.mouse (fst s1)) * default (default 1 d) ms
         * SuperParallax.mouseMultiplier (SuperParallax.options (fst s1)) * 50)%Q,
        (- (SuperParallax.scroll (fst s1) * default (default 1 d) ss
            * SuperParallax.scrollMultiplier (SuperParallax.options (fst s1)) * (1 # 2))
         + SuperParallax.y (SuperParallax.mouse (fst s1)) * default (default 1 d) ms
           * SuperParallax.mouseMultiplier (SuperParallax.options (fst s1)) * 50)%Q).
Proof.
  intros Hact. cbv zeta.
  destruct (addLayer_pushes el d ss ms s) as (Hpush & Hel & _).
  assert (Hreg : registered_last
            (SuperParallax.layers (fst (snd (SuperParallax.addLayer el d ss ms s))))
            (length (SuperParallax.layers (fst s))) (fst (SuperParallax.addLayer el d ss ms s))).
  { rewrite Hpush. split.
    - rewrite lookup_app_r, Nat.sub_diag by lia. reflexivity.
    - intros j l' Hj Hl'. apply lookup_lt_Some in Hl'. rewrite length_app in Hl'.
      simpl in Hl'. lia. }
  assert (Hact1 : SuperParallax.isActive (fst (snd (SuperParallax.addLayer el d ss ms s))) = true)
    by (destruct s; exact Hact).
  pose proof (animate_writes_layerTransform _ _ _ Hact1 Hreg) as Hw. rewrite Hel in Hw.
  rewrite Hw, layerTransform_both by (destruct s; reflexivity).
  destruct s as [this b]. simpl. repeat split; reflexivity.
Qed.

Lemma addLayer_is_drawn_by_next_tick_witness :
  SuperParallax.scrollSpeed (fst (SuperParallax.addLayer 1%nat (Some 3%Q) (Some 0%Q) None
                                    Example.running2d)) = 0%Q
  /\ SuperParallax.mouseSpeed (fst (SuperParallax.addLayer 1%nat (Some 3%Q) (Some 0%Q) None
                                      Example.running2d)) = 3%Q.
Proof.
  assert (Hact : SuperParallax.isActive (fst Example.running2d) = true)
    by (vm_compute; reflexivity).
  destruct (addLayer_is_drawn_by_next_tick 1%nat (Some 3%Q) (Some 0%Q) None
              Example.running2d Hact) as (_ & Hss & Hms & _).
  split; [exact Hss | exact Hms].
Defined.

(** X19. Once the only layer of an element is removed, no tick writes that
    element's style again: after [removeLayer(element)] and any number of
    ticks the element's inline transform is what it was when the layer was
    removed, the last offset included. *)
Theorem removed_layer_is_no_longer_drawn
    (el : Dom.Element) (s : SuperParallax.State)
    (pre post : list SuperParallax.Layer) (l : SuperParallax.Layer) (n : nat) :
  SuperParallax.layers (fst s) = pre ++ l :: post ->
  SuperParallax.element l = el ->
  registered el pre = false ->
  registered el post = false ->
  Dom.transform_of
    (snd (Nat.iter n SuperParallax.animate
            (SuperParallax.removeLayer (SuperParallax.VElement el) s))) el
  = Dom.transform_of (snd s) el.
Proof.
  intros Hl Hel Hpre Hpost.
  rewrite (removeLayer_first el s pre post l Hl Hel Hpre).
  unfold Dom.transform_of. rewrite iter_animate_style_other; [reflexivity |].
  simpl. apply registered_false. rewrite registered_app, Hpre, Hpost. reflexivity.
Qed.

Lemma removed_layer_is_no_longer_drawn_witness :
  Dom.transform_of
    (snd (Nat.iter 3 SuperParallax.animate
            (SuperParallax.removeLayer (SuperParallax.VElement 3%nat) Example.at100))) 3%nat
  = Dom.transform_of (snd Example.at100) 3%nat.
Proof.
  assert (Hl : SuperParallax.layers (fst Example.at100)
               = [SuperParallax.discover Example.browser0 1%nat;
                  SuperParallax.discover Example.browser0 2%nat]
                 ++ fst Example.added :: [])
    by (vm_compute; reflexivity).
  exact (removed_layer_is_no_longer_drawn 3%nat Example.at100 _ _ _ 3 Hl eq_refl eq_refl eq_refl).
Defined.

(** ** The 3D controller: colours, meshes and the camera *)

Section Colours.
Import Js Dom SuperParallax3D.
Local Open Scope Q_scope.

Lemma floor_index (r : Q) : 0 <= r -> r < 1 -> (0 <= Qfloor (r * 5) < 5)%Z.
Proof.
  intros H0 H1. split.
  - change 0%Z with (Qfloor 0). apply Qfloor_resp_le. lra.
  - rewrite Zlt_Qlt. apply Qle_lt_trans with (r * 5); [apply Qfloor_le |].
    change (inject_Z 5) with 5. lra.
Qed.

Lemma getRandomColor_spec (w : World) :
  0 <= random w (random_calls w) -> random w (random_calls w) < 1 ->
  fst (getRandomColor w) ∈ colors
  /\ random_calls (snd (getRandomColor w)) = S (random_calls w)
  /\ browser (snd (getRandomColor w)) = browser w
  /\ meshes (snd (getRandomColor w)) = meshes w
  /\ nextMesh (snd (getRandomColor w)) = nextMesh w.
Proof.
  intros H0 H1. unfold getRandomColor. cbn [fst snd].
  split; [| repeat split; reflexivity].
  destruct (floor_index _ H0 H1) as [Hlo Hhi].
  set (i := Z.to_nat (Qfloor (random w (random_calls w) * 5))).
  assert (Hidx : (i < 5)%nat) by (unfold i; lia).
  clearbody i.
  destruct i as [|[|[|[|[|n]]]]];
    [apply (list_elem_of_lookup_2 _ 0%nat) | apply (list_elem_of_lookup_2 _ 1%nat)
    | apply (list_elem_of_lookup_2 _ 2%nat) | apply (list_elem_of_lookup_2 _ 3%nat)
    | apply (list_elem_of_lookup_2 _ 4%nat) | lia]; reflexivity.
Qed.
End Colours.

(** X20. For a random number in [0, 1), as [Math.random] gives, the colour
    [getRandomColor] picks is always one of the five of the palette, never a
    missing entry; the call draws one random number and touches nothing
    else. *)
Theorem getRandomColor_picks_from_palette (w : SuperParallax3D.World) :
  (0 <= SuperParallax3D.random w (SuperParallax3D.random_calls w))%Q ->
  (SuperParallax3D.random w (SuperParallax3D.random_calls w) < 1)%Q ->
  fst (SuperParallax3D.getRandomColor w) ∈ SuperParallax3D.colors
  /\ SuperParallax3D.random_calls (snd (SuperParallax3D.getRandomColor w))
     = S (SuperParallax3D.random_calls w)
  /\ SuperParallax3D.browser (snd (SuperParallax3D.getRandomColor w)) = SuperParallax3D.browser w
  /\ SuperParallax3D.meshes (snd (SuperParallax3D.getRandomColor w)) = SuperParallax3D.meshes w
  /\ SuperParallax3D.nextMesh (snd (SuperParallax3D.getRandomColor w))
     = SuperParallax3D.nextMesh w.
Proof. apply getRandomColor_spec. Qed.

Lemma getRandomColor_picks_from_palette_witness :
  fst (SuperParallax3D.getRandomColor Example.world0) ∈ SuperParallax3D.colors.
Proof.
  apply (getRandomColor_picks_from_palette Example.world0).
  - intros H. discriminate H.
  - reflexivity.
Defined.

Section Meshes.
Import Js Dom SuperParallax3D.
Local Open Scope Q_scope.

(** One round of the loop of [createLayers]. *)
Lemma createLayer_step (this : t) (w : World) (el : Element) :
  let s' := createLayer (this, w) el in
  exists l m,
    layers (fst s') = layers this ++ [l]
    /\ scene (fst s') = scene this ++ [nextMesh w]
    /\ mesh l = nextMesh w
    /\ element l = el
    /\ initialPosition l = {| x := 0; y := 0; z := - depth l * 2 |}
    /\ nextMesh (snd s') = S (nextMesh w)
    /\ meshes (snd s') = <[nextMesh w := m]> (meshes w)
    /\ position m = initialPosition l
    /\ rotation m = {| x := 0; y := 0; z := 0 |}
    /\ style_visibility (browser (snd s')) = <[el := "hidden"%string]> (style_visibility (browser w))
    /\ document (browser (snd s')) = document (browser w)
    /\ container (fst s') = container this.
Proof.
  cbv zeta. unfold createLayer. simpl.
  destruct (img (markup (document (browser w)) el)); simpl;
    rewrite lookup_alter_eq, lookup_insert_eq; simpl;
    eexists; eexists; repeat split; try reflexivity;
    try apply alter_insert_eq; simpl; reflexivity.
Qed.

Lemma createLayers_fold (els : list Element) (this : t) (w : World) :
  let s' := foldl createLayer (this, w) els in
  exists news,
    layers (fst s') = layers this ++ news
    /\ element <$> news = els
    /\ mesh <$> news = seq (nextMesh w) (length els)
    /\ scene (fst s') = scene this ++ seq (nextMesh w) (length els)
    /\ nextMesh (snd s') = (nextMesh w + length els)%nat
    /\ document (browser (snd s')) = document (browser w)
    /\ container (fst s') = container this
    /\ (forall e, e ∈ els -> style_visibility (browser (snd s')) !! e = Some "hidden"%string)
    /\ (forall l, l ∈ news ->
          initialPosition l = {| x := 0; y := 0; z := - depth l * 2 |}
          /\ exists m, meshes (snd s') !! mesh l = Some m
                       /\ position m = initialPosition l
                       /\ rotation m = {| x := 0; y := 0; z := 0 |}).
Proof.
  cbv zeta. induction els as [|e els IH] using rev_ind.
  - exists []. simpl. rewrite !app_nil_r, Nat.add_0_r. repeat split; try reflexivity.
    + intros e He. by apply elem_of_nil in He.
    + by apply elem_of_nil in H.
    + by apply elem_of_nil in H.
  - rewrite foldl_app. cbn [foldl].
    destruct IH as (news & Hlay & Hel & Hmesh & Hscene & Hnext & Hdoc & Hcont & Hvis & Hheap).
    destruct (foldl createLayer (this, w) els) as [this1 w1]. cbn [fst snd] in *.
    destruct (createLayer_step this1 w1 e)
      as (l & m & Hl1 & Hs1 & Hm1 & He1 & Hi1 & Hn1 & Hh1 & Hp1 & Hr1 & Hv1 & Hd1 & Hc1).
    destruct (createLayer (this1, w1) e) as [this2 w2]. cbn [fst snd] in *.
    exists (news ++ [l]). rewrite length_app. simpl. rewrite seq_app. simpl.
    rewrite Hl1, Hs1, Hn1, Hh1, Hv1, Hd1, Hc1, Hlay, Hscene, Hnext, !fmap_app. simpl.
    rewrite Hel, Hmesh, He1, Hm1, Hnext, !app_assoc.
    repeat split; try reflexivity; try assumption.
    + lia.
    + intros e' He'. apply elem_of_app in He' as [He' | He'].
      * destruct (decide (e = e')) as [-> | Hne]; [apply lookup_insert_eq |].
        rewrite lookup_insert_ne by exact Hne. by apply Hvis.
      * apply list_elem_of_singleton in He' as ->. apply lookup_insert_eq.
    + apply elem_of_app in H as [H | H]; [by apply Hheap |].
      apply list_elem_of_singleton in H as ->. exact Hi1.
    + apply elem_of_app in H as [H | H].
      * destruct (Hheap _ H) as (_ & m' & Hm' & Hpos & Hrot).
        exists m'. split; [| split; assumption].
        rewrite lookup_insert_ne; [exact Hm' |].
        assert (Hin : mesh l0 ∈ seq (nextMesh w) (length els)).
        { rewrite <- Hmesh. apply list_elem_of_fmap. eauto. }
        apply elem_of_seq in Hin. lia.
      * apply list_elem_of_singleton in H as ->. exists m.
        rewrite Hm1, Hnext, lookup_insert_eq. auto.
Qed.
(** What the loop of [createLayers] never touches. *)
Lemma createLayers_keeps (els : list Element) (this : t) (w : World) :
  let s' := foldl createLayer (this, w) els in
  (camera (fst s'), renderer (fst s'), options (fst s'), mouse (fst s'),
   targetMouse (fst s'), scroll (fst s'), targetScroll (fst s'), isActive (fst s'),
   animationFrameId (fst s'))
  = (camera this, renderer this, options this, mouse this, targetMouse this, scroll this,
     targetScroll this, isActive this, animationFrameId this)
  /\ (listeners (browser (snd s')), frames (browser (snd s')), nextFrame (browser (snd s')),
      pageYOffset (browser (snd s')), scrollTop (browser (snd s')),
      appended (browser (snd s')))
     = (listeners (browser w), frames (browser w), nextFrame (browser w),
        pageYOffset (browser w), scrollTop (browser w), appended (browser w)).
Proof.
  cbv zeta. split.
  - apply (foldl_preserves
             (fun s : State =>
                (camera (fst s), renderer (fst s), options (fst s), mouse (fst s),
                 targetMouse (fst s), scroll (fst s), targetScroll (fst s), isActive (fst s),
                 animationFrameId (fst s))) createLayer els (this, w)).
    intros [t0 w0] a. unfold createLayer. simpl. destruct (img _); reflexivity.
  - apply (foldl_preserves
             (fun s : State =>
                (listeners (browser (snd s)), frames (browser (snd s)),
                 nextFrame (browser (snd s)), pageYOffset (browser (snd s)),
                 scrollTop (browser (snd s)), appended (browser (snd s))))
             createLayer els (this, w)).
    intros [t0 w0] a. unfold createLayer. simpl. destruct (img _); reflexivity.
Qed.

(** The loop of [animate] leaves alone a mesh that belongs to no layer. *)
Lemma moveMesh_loop_other (f : Layer -> Mesh -> Mesh) (ls : list Layer) (w : World)
    (id : MeshId) :
  id ∉ (mesh <$> ls) ->
  meshes (foldl (fun w layer => set_meshes (alter (f layer) (mesh layer)) w) w ls) !! id
  = meshes w !! id.
Proof.
  revert w. induction ls as [|a ls IH]; intros w Hnot; [reflexivity |].
  cbn [foldl]. rewrite fmap_cons in Hnot. apply not_elem_of_cons in Hnot as [Hne Hnot].
  rewrite (IH _ Hnot). cbn [set_meshes meshes]. apply lookup_alter_ne. by symmetry.
Qed.

(** With one mesh per layer, the loop of [animate] moves the mesh of each
    layer once, by the callback of that layer. *)
Lemma moveMesh_loop (f : Layer -> Mesh -> Mesh) (ls : list Layer) (w : World)
    (l : Layer) (m : Mesh) :
  NoDup (mesh <$> ls) -> l ∈ ls -> meshes w !! mesh l = Some m ->
  meshes (foldl (fun w layer => set_meshes (alter (f layer) (mesh layer)) w) w ls) !! mesh l
  = Some (f l m).
Proof.
  revert w. induction ls as [|a ls IH]; intros w Hnd Hl Hm; [by apply elem_of_nil in Hl |].
  rewrite fmap_cons in Hnd. apply NoDup_cons in Hnd as [Hfresh Hnd].
  cbn [foldl]. apply elem_of_cons in Hl as [-> | Hl].
  - rewrite (moveMesh_loop_other f ls _ (mesh a) Hfresh). cbn [set_meshes meshes].
    rewrite lookup_alter_eq, Hm. reflexivity.
  - apply (IH _ Hnd Hl). cbn [set_meshes meshes].
    rewrite lookup_alter_ne; [exact Hm |].
    intros Heq. apply Hfresh. rewrite Heq. apply list_elem_of_fmap. eauto.
Qed.

Lemma moveMesh_loop_world (f : Layer -> Mesh -> Mesh) (ls : list Layer) (w : World) :
  browser (foldl (fun w layer => set_meshes (alter (f layer) (mesh layer)) w) w ls)
  = browser w.
Proof.
  apply (foldl_preserves browser
           (fun w layer => set_meshes (alter (f layer) (mesh layer)) w) ls w).
  reflexivity.
Qed.

(** One tick of a running 3D controller, seen from a layer and from the
    camera. *)
Lemma animate3d_tick (this : t) (w : World) :
  isActive this = true ->
  NoDup (mesh <$> layers this) ->
  let s' := animate (this, w) in
  scroll (fst s') = lerp (scroll this) (targetScroll this) (smoothing (options this))
  /\ px (mouse (fst s'))
     = lerp (px (mouse this)) (px (targetMouse this)) (smoothing (options this))
  /\ py (mouse (fst s'))
     = lerp (py (mouse this)) (py (targetMouse this)) (smoothing (options this))
  /\ options (fst s') = options this
  /\ layers (fst s') = layers this
  /\ isActive (fst s') = true
  /\ camera_position (camera (fst s'))
     = {| x := px (mouse (fst s')) * mouseMultiplier (options this);
          y := py (mouse (fst s')) * mouseMultiplier (options this);
          z := z (camera_position (camera this)) |}
  /\ camera_lookAt (camera (fst s')) = Some {| x := 0; y := 0; z := 0 |}
  /\ rendered (renderer (fst s')) = S (rendered (renderer this))
  /\ (forall l m, l ∈ layers this -> meshes w !! mesh l = Some m ->
        meshes (snd s') !! mesh l = Some (moveMesh (fst s') l m))
  /\ (forall id, id ∉ (mesh <$> layers this) -> meshes (snd s') !! id = meshes w !! id).
Proof.
  intros Hact Hnd. cbv zeta. unfold animate. rewrite Hact. cbn [negb].
  cbv zeta. unfold requestAnimationFrame.
  do 5 (split; [reflexivity |]). split; [exact Hact |].
  do 3 (split; [reflexivity |]). split.
  - intros l m Hl Hm. cbn [snd set_browser meshes].
    rewrite (moveMesh_loop _ _ w l m Hnd Hl Hm). reflexivity.
  - intros id Hid. cbn [snd set_browser meshes]. apply moveMesh_loop_other. exact Hid.
Qed.
End Meshes.

(** X21. [createLayers] goes through the elements it finds in document
    order and gives each a mesh of its own: the new layers carry the elements
    in that order and the mesh identities are fresh, consecutive and pairwise
    distinct; the scene gets the same meshes, every element found is hidden,
    and each new mesh stands unrotated at [(0, 0, -depth * 2)], which is also
    the layer's recorded initial position. *)
Theorem createLayers_builds_one_mesh_per_element (s : SuperParallax3D.State) :
  let els :=
    Dom.querySelectorAll (Dom.document (SuperParallax3D.browser (snd s)))
      (SuperParallax3D.container (fst s)) in
  let s' := SuperParallax3D.createLayers s in
  exists news,
    SuperParallax3D.layers (fst s') = SuperParallax3D.layers (fst s) ++ news
    /\ SuperParallax3D.element <$> news = els
    /\ SuperParallax3D.mesh <$> news = seq (SuperParallax3D.nextMesh (snd s)) (length els)
    /\ NoDup (SuperParallax3D.mesh <$> news)
    /\ SuperParallax3D.scene (fst s')
       = SuperParallax3D.scene (fst s) ++ (SuperParallax3D.mesh <$> news)
    /\ SuperParallax3D.nextMesh (snd s') = (SuperParallax3D.nextMesh (snd s) + length els)%nat
    /\ (forall e, e ∈ els ->
          Dom.style_visibility (SuperParallax3D.browser (snd s')) !! e = Some "hidden"%string)
    /\ (forall l, l ∈ news ->
          SuperParallax3D.initialPosition l
          = {| SuperParallax3D.x := 0; SuperParallax3D.y := 0;
               SuperParallax3D.z := (- SuperParallax3D.depth l * 2)%Q |}
          /\ exists m, SuperParallax3D.meshes (snd s') !! SuperParallax3D.mesh l = Some m
                       /\ SuperParallax3D.position m = SuperParallax3D.initialPosition l
                       /\ SuperParallax3D.rotation m
                          = {| SuperParallax3D.x := 0; SuperParallax3D.y := 0;
                               SuperParallax3D.z := 0 |}).
Proof.
  destruct s as [this w]. cbv zeta. unfold SuperParallax3D.createLayers. cbn [fst snd].
  destruct (createLayers_fold
              (Dom.querySelectorAll (Dom.document (SuperParallax3D.browser w))
                 (SuperParallax3D.container this)) this w)
    as (news & Hlay & Hel & Hmesh & Hscene & Hnext & _ & _ & Hvis & Hheap).
  exists news. rewrite Hmesh.
  split; [exact Hlay |]. split; [exact Hel |]. split; [reflexivity |].
  split; [apply NoDup_seq |]. split; [exact Hscene |]. split; [exact Hnext |].
  split; [exact Hvis | exact Hheap].
Qed.

(** X22. One tick of a running 3D controller whose layers have a mesh each:
    the mesh of a layer keeps its [x] and [z] and goes to
    [y = initialPosition.y - scroll * scrollSpeed * scrollMultiplier * 0.01];
    it is turned by [mouse.y * 0.05 * depth] about [x] and by
    [mouse.x * 0.05 * depth] about [y]; its geometry and material stay.  The
    camera goes to [mouse * mouseMultiplier] in [x] and [y], keeps its [z] and
    looks at the origin; the scene is rendered once; a mesh that belongs to
    no layer is not touched.  All of it is computed from the smoothed values
    of this tick. *)
Theorem animate3d_places_meshes_and_camera
    (s : SuperParallax3D.State) (l : SuperParallax3D.Layer) (m : SuperParallax3D.Mesh) :
  SuperParallax3D.isActive (fst s) = true ->
  NoDup (SuperParallax3D.mesh <$> SuperParallax3D.layers (fst s)) ->
  l ∈ SuperParallax3D.layers (fst s) ->
  SuperParallax3D.meshes (snd s) !! SuperParallax3D.mesh l = Some m ->
  let s' := SuperParallax3D.animate s in
  let this' := fst s' in
  exists m',
    SuperParallax3D.meshes (snd s') !! SuperParallax3D.mesh l = Some m'
    /\ SuperParallax3D.position m'
       = {| SuperParallax3D.x := SuperParallax3D.x (SuperParallax3D.position m);
            SuperParallax3D.y :=
              (SuperParallax3D.y (SuperParallax3D.initialPosition l)
               - SuperParallax3D.scroll this' * SuperParallax3D.scrollSpeed l
                 * SuperParallax3D.scrollMultiplier (SuperParallax3D.options this')
                 * (1 # 100))%Q;
            SuperParallax3D.z := SuperParallax3D.z (SuperParallax3D.position m) |}
    /\ SuperParallax3D.rotation m'
       = {| SuperParallax3D.x :=
              (SuperParallax3D.py (SuperParallax3D.mouse this') * (1 # 20)
               * SuperParallax3D.depth l)%Q;
            SuperParallax3D.y :=
              (SuperParallax3D.px (SuperParallax3D.mouse this') * (1 # 20)
               * SuperParallax3D.depth l)%Q;
            SuperParallax3D.z := SuperParallax3D.z (SuperParallax3D.rotation m) |}
    /\ SuperParallax3D.geometry_width m' = SuperParallax3D.geometry_width m
    /\ SuperParallax3D.material m' = SuperParallax3D.material m
    /\ SuperParallax3D.camera_position (SuperParallax3D.camera this')
       = {| SuperParallax3D.x :=
              (SuperParallax3D.px (SuperParallax3D.mouse this')
               * SuperParallax3D.mouseMultiplier (SuperParallax3D.options this'))%Q;
            SuperParallax3D.y :=
              (SuperParallax3D.py (SuperParallax3D.mouse this')
               * SuperParallax3D.mouseMultiplier (SuperParallax3D.options this'))%Q;
            SuperParallax3D.z :=
              SuperParallax3D.z (SuperParallax3D.camera_position (SuperParallax3D.camera (fst s))) |}
    /\ SuperParallax3D.camera_lookAt (SuperParallax3D.camera this')
       = Some {| SuperParallax3D.x := 0; SuperParallax3D.y := 0; SuperParallax3D.z := 0 |}
    /\ SuperParallax3D.rendered (SuperParallax3D.renderer this')
       = S (SuperParallax3D.rendered (SuperParallax3D.renderer (fst s)))
    /\ (forall id, id ∉ (SuperParallax3D.mesh <$> SuperParallax3D.layers (fst s)) ->
          SuperParallax3D.meshes (snd s') !! id = SuperParallax3D.meshes (snd s) !! id).
Proof.
  destruct s as [this w]. cbn [fst snd]. intros Hact Hnd Hl Hm. cbv zeta.
  destruct (animate3d_tick this w Hact Hnd)
    as (_ & _ & _ & Hopt & _ & _ & Hcam & Hlook & Hren & Hmesh & Hother).
  exists (SuperParallax3D.moveMesh (fst (SuperParallax3D.animate (this, w))) l m).
  split; [exact (Hmesh l m Hl Hm) |].
  do 4 (split; [reflexivity |]).
  split; [rewrite Hopt; exact Hcam |].
  split; [exact Hlook |]. split; [exact Hren | exact Hother].
Qed.

Lemma animate3d_places_meshes_and_camera_witness :
  exists m',
    SuperParallax3D.meshes (snd (SuperParallax3D.animate Example.scrolled3d)) !! 0%nat = Some m'
    /\ (SuperParallax3D.y (SuperParallax3D.position m') == - 1)%Q
    /\ (SuperParallax3D.z (SuperParallax3D.position m') == - 4)%Q.
Proof.
  destruct (SuperParallax3D.layers (fst Example.scrolled3d) !! 0%nat) as [l|] eqn:Hl;
    [| vm_compute in Hl; discriminate Hl].
  destruct (SuperParallax3D.meshes (snd Example.scrolled3d) !! 0%nat) as [m|] eqn:Hm;
    [| vm_compute in Hm; discriminate Hm].
  assert (Hin : l ∈ SuperParallax3D.layers (fst Example.scrolled3d))
    by (apply (list_elem_of_lookup_2 _ 0%nat); exact Hl).
  vm_compute in Hl. injection Hl as Hl. subst l.
  assert (Hnd : NoDup (SuperParallax3D.mesh <$> SuperParallax3D.layers (fst Example.scrolled3d))).
  { apply (bool_decide_eq_true_1
             (NoDup (SuperParallax3D.mesh <$> SuperParallax3D.layers (fst Example.scrolled3d)))).
    vm_compute. reflexivity. }
  destruct (animate3d_places_meshes_and_camera Example.scrolled3d _ m eq_refl Hnd Hin Hm)
    as (m' & Hm' & Hpos & _).
  exists m'. split; [exact Hm' |]. rewrite Hpos. cbn [SuperParallax3D.y SuperParallax3D.z].
  vm_compute in Hm. injection Hm as Hm. subst m.
  split; vm_compute; reflexivity.
Defined.

Section Camera.
Import Js Dom SuperParallax3D.
Local Open Scope Q_scope.

(** A tick, running or not, keeps the options, the field of view and the
    [z] of the camera. *)
Lemma animate3d_keeps (s : State) :
  options (fst (animate s)) = options (fst s)
  /\ camera_fov (camera (fst (animate s))) = camera_fov (camera (fst s))
  /\ z (camera_position (camera (fst (animate s)))) = z (camera_position (camera (fst s))).
Proof.
  destruct s as [this w]. unfold animate.
  destruct (isActive this); cbn [negb]; repeat split; reflexivity.
Qed.

Lemma iter_animate3d_keeps (s : State) (n : nat) :
  options (fst (Nat.iter n animate s)) = options (fst s)
  /\ camera_fov (camera (fst (Nat.iter n animate s))) = camera_fov (camera (fst s))
  /\ z (camera_position (camera (fst (Nat.iter n animate s))))
     = z (camera_position (camera (fst s))).
Proof.
  induction n as [|n (IHo & IHf & IHz)]; [repeat split; reflexivity |].
  simpl Nat.iter. destruct (animate3d_keeps (Nat.iter n animate s)) as (Ho & Hf & Hz).
  rewrite Ho, Hf, Hz. repeat split; assumption.
Qed.
End Camera.

(** X23. The 3D [handleMouseMove] measures the container at every event and,
    for a container of positive width and height, always succeeds: the
    pointer target becomes [2 * (clientX - left) / width - 1] and
    [1 - 2 * (clientY - top) / height], so the vertical axis points up (the
    top edge is [1], the bottom edge [-1]) and a pointer inside the container
    gives targets within [-1, 1].  Nothing but the pointer target is
    written. *)
Theorem handleMouseMove3d_normalizes
    (e : SuperParallax3D.MouseEvent) (s : SuperParallax3D.State) :
  let rect :=
    Dom.getBoundingClientRect (Dom.document (SuperParallax3D.browser (snd s)))
      (SuperParallax3D.container (fst s)) in
  (0 < Dom.rect_width rect)%Q ->
  (0 < Dom.rect_height rect)%Q ->
  exists s',
    SuperParallax3D.handleMouseMove e s = Some s'
    /\ snd s' = snd s
    /\ fst s' = SuperParallax3D.set_targetMouse (SuperParallax3D.targetMouse (fst s')) (fst s)
    /\ (SuperParallax3D.px (SuperParallax3D.targetMouse (fst s'))
        == 2 * (SuperParallax3D.clientX e - Dom.rect_left rect) / Dom.rect_width rect - 1)%Q
    /\ (SuperParallax3D.py (SuperParallax3D.targetMouse (fst s'))
        == 1 - 2 * (SuperParallax3D.clientY e - Dom.rect_top rect) / Dom.rect_height rect)%Q
    /\ ((Dom.rect_left rect <= SuperParallax3D.clientX e)%Q ->
        (SuperParallax3D.clientX e <= Dom.rect_left rect + Dom.rect_width rect)%Q ->
        (- 1 <= SuperParallax3D.px (SuperParallax3D.targetMouse (fst s')))%Q
        /\ (SuperParallax3D.px (SuperParallax3D.targetMouse (fst s')) <= 1)%Q)
    /\ ((Dom.rect_top rect <= SuperParallax3D.clientY e)%Q ->
        (SuperParallax3D.clientY e <= Dom.rect_top rect + Dom.rect_height rect)%Q ->
        (- 1 <= SuperParallax3D.py (SuperParallax3D.targetMouse (fst s')))%Q
        /\ (SuperParallax3D.py (SuperParallax3D.targetMouse (fst s')) <= 1)%Q)
    /\ ((SuperParallax3D.clientY e == Dom.rect_top rect)%Q ->
        (SuperParallax3D.py (SuperParallax3D.targetMouse (fst s')) == 1)%Q)
    /\ ((SuperParallax3D.clientY e == Dom.rect_top rect + Dom.rect_height rect)%Q ->
        (SuperParallax3D.py (SuperParallax3D.targetMouse (fst s')) == - 1)%Q).
Proof.
  destruct s as [this w]. cbv zeta. cbn [fst snd].
  set (rect := Dom.getBoundingClientRect (Dom.document (SuperParallax3D.browser w))
                 (SuperParallax3D.container this)).
  intros Hw Hh. unfold SuperParallax3D.handleMouseMove. fold rect.
  rewrite !div_defined by lra. cbv zeta. eexists. split; [reflexivity |].
  cbn [fst snd SuperParallax3D.targetMouse SuperParallax3D.set_targetMouse
       SuperParallax3D.px SuperParallax3D.py].
  split; [reflexivity |]. split; [reflexivity |].
  destruct rect as [left top width height]. cbn [Dom.rect_left Dom.rect_top
    Dom.rect_width Dom.rect_height] in *.
  destruct e as [cx cy]. cbn [SuperParallax3D.clientX SuperParallax3D.clientY].
  assert (Hw' : ~ width == 0) by lra. assert (Hh' : ~ height == 0) by lra.
  split; [field; exact Hw' |]. split; [field; exact Hh' |].
  split; [| split; [| split]].
  - intros H0 H1.
    destruct (unit_fraction (cx - left)%Q width Hw) as [Ha Hb]; [lra | lra |].
    set (u := ((cx - left) / width)%Q) in *. lra.
  - intros H0 H1.
    destruct (unit_fraction (cy - top)%Q height Hh) as [Ha Hb]; [lra | lra |].
    set (v := ((cy - top) / height)%Q) in *. lra.
  - intros H. rewrite H. field. exact Hh'.
  - intros H. rewrite H. field. exact Hh'.
Qed.

Lemma handleMouseMove3d_normalizes_witness :
  exists s',
    SuperParallax3D.handleMouseMove
      {| SuperParallax3D.clientX := 600; SuperParallax3D.clientY := 150 |} Example.running3d
    = Some s'
    /\ (SuperParallax3D.px (SuperParallax3D.targetMouse (fst s')) == 1 # 2)%Q
    /\ (SuperParallax3D.py (SuperParallax3D.targetMouse (fst s')) == 1 # 2)%Q.
Proof.
  assert (Hr : Dom.getBoundingClientRect
                 (Dom.document (SuperParallax3D.browser (snd Example.running3d)))
                 (SuperParallax3D.container (fst Example.running3d))
               = {| Dom.rect_left := 0; Dom.rect_top := 0;
                    Dom.rect_width := 800; Dom.rect_height := 600 |})
    by (vm_compute; reflexivity).
  destruct (handleMouseMove3d_normalizes
              {| SuperParallax3D.clientX := 600; SuperParallax3D.clientY := 150 |}
              Example.running3d) as (s' & Hs' & _ & _ & Hx & Hy & _).
  - rewrite Hr. reflexivity.
  - rewrite Hr. reflexivity.
  - exists s'. split; [exact Hs' |]. rewrite Hx, Hy, Hr. split; reflexivity.
Defined.

(** X24. The option [cameraZ] is read when the controller is built and never
    again: [setOptions] stores the keys it is given, and after it and any
    number of ticks, running or not, the camera is at the [z] it had.  The
    field of view reaches the camera only when [setOptions] is given one that
    is not zero; a [fov] of [0] is stored in the options and the camera keeps
    the one it had. *)
Theorem cameraZ_is_read_at_construction_only
    (p : SuperParallax3D.PartialOptions) (s : SuperParallax3D.State) (n : nat) :
  let s' := Nat.iter n SuperParallax3D.animate (SuperParallax3D.setOptions p s) in
  SuperParallax3D.options (fst s') = SuperParallax3D.spread (SuperParallax3D.options (fst s)) p
  /\ SuperParallax3D.z (SuperParallax3D.camera_position (SuperParallax3D.camera (fst s')))
     = SuperParallax3D.z (SuperParallax3D.camera_position (SuperParallax3D.camera (fst s)))
  /\ SuperParallax3D.camera_fov (SuperParallax3D.camera (fst s'))
     = match SuperParallax3D.opt_fov p with
       | Some f => if Js.truthy f then f else SuperParallax3D.camera_fov (SuperParallax3D.camera (fst s))
       | None => SuperParallax3D.camera_fov (SuperParallax3D.camera (fst s))
       end
  /\ snd (SuperParallax3D.setOptions p s) = snd s.
Proof.
  cbv zeta.
  destruct (iter_animate3d_keeps (SuperParallax3D.setOptions p s) n) as (Ho & Hf & Hz).
  rewrite Ho, Hf, Hz. destruct s as [this w]. unfold SuperParallax3D.setOptions.
  destruct (SuperParallax3D.opt_fov p) as [f|]; [destruct (Js.truthy f) |];
    repeat split; reflexivity.
Qed.

Section Construction3D.
Import Js Dom SuperParallax3D.
Local Open Scope Q_scope.

(** What a tick of a running 3D controller leaves as it is, and the frame it
    asks for. *)
Lemma animate3d_rest (this : t) (w : World) :
  isActive this = true ->
  let s' := animate (this, w) in
  browser (snd s') = snd (requestAnimationFrame (browser w))
  /\ animationFrameId (fst s') = Some (nextFrame (browser w))
  /\ container (fst s') = container this
  /\ scene (fst s') = scene this
  /\ targetScroll (fst s') = targetScroll this
  /\ camera_fov (camera (fst s')) = camera_fov (camera this)
  /\ domElement (renderer (fst s')) = domElement (renderer this).
Proof.
  intros Hact. cbv zeta. unfold animate. rewrite Hact. cbn [negb]. cbv zeta.
  unfold requestAnimationFrame. cbn [fst snd set_browser browser animationFrameId
    set_animationFrameId]. rewrite moveMesh_loop_world.
  repeat split; reflexivity.
Qed.

Lemma start3d_unfold (this : t) (w : World) :
  isActive this = false ->
  start (this, w)
  = animate (set_scroll (scroll_position (browser w))
               (set_targetScroll (scroll_position (browser w)) (set_isActive true this)), w).
Proof. intros Hidle. unfold start. rewrite Hidle. reflexivity. Qed.

Lemma addEventListeners3d_spec (s : State) (x : Listener) :
  x ∈ listeners (browser (snd (addEventListeners s))) <->
  x ∈ listeners (browser (snd s)) \/ x = on_scroll \/ x = on_mousemove (fst s) \/ x = on_resize.
Proof.
  destruct s as [this w]. unfold addEventListeners. cbn [fst snd set_browser browser]. split.
  - intros H. repeat (apply addEventListener_spec in H; destruct H as [-> | H]; [tauto |]). tauto.
  - intros [H | [-> | [-> | ->]]];
      repeat first [assumption | apply addEventListener_spec; first [left; reflexivity | right]].
Qed.

Lemma addEventListeners3d_rest (s : State) :
  fst (addEventListeners s) = fst s
  /\ meshes (snd (addEventListeners s)) = meshes (snd s)
  /\ style_visibility (browser (snd (addEventListeners s))) = style_visibility (browser (snd s))
  /\ appended (browser (snd (addEventListeners s))) = appended (browser (snd s))
  /\ frames (browser (snd (addEventListeners s))) = frames (browser (snd s))
  /\ nextFrame (browser (snd (addEventListeners s))) = nextFrame (browser (snd s))
  /\ scroll_position (browser (snd (addEventListeners s))) = scroll_position (browser (snd s)).
Proof. destruct s as [this w]. repeat split; reflexivity. Qed.
(** The controller that [init] leaves behind. *)
Lemma init3d_spec (el : Element) (o : Options) (w : World) :
  let s := init el o w in
  let v := scroll_position (browser w) in
  let found := querySelectorAll (document (browser w)) el in
  (isActive (fst s) = true
   /\ container (fst s) = el
   /\ options (fst s) = o
   /\ targetScroll (fst s) = v
   /\ scroll (fst s) == v
   /\ animationFrameId (fst s) = Some (nextFrame (browser w))
   /\ frames (browser (snd s)) = {[nextFrame (browser w)]} ∪ frames (browser w))
  /\ (element <$> layers (fst s) = found
      /\ mesh <$> layers (fst s) = seq (nextMesh w) (length found)
      /\ scene (fst s) = (mesh <$> layers (fst s)))
  /\ (appended (browser (snd s)) = appended (browser w) ++ [(el, canvas w)]
      /\ domElement (renderer (fst s)) = canvas w
      /\ rendered (renderer (fst s)) = 1%nat)
  /\ (camera_fov (camera (fst s)) = fov o
      /\ x (camera_position (camera (fst s))) == 0
      /\ y (camera_position (camera (fst s))) == 0
      /\ z (camera_position (camera (fst s))) = cameraZ o)
  /\ (forall l, l ∈ listeners (browser (snd s)) <->
        l ∈ listeners (browser w) \/ l = on_scroll
        \/ l = {| target := Node el; type := "mousemove"; callback := "handleMouseMove" |}
        \/ l = on_resize)
  /\ (forall l, l ∈ layers (fst s) ->
        style_visibility (browser (snd s)) !! element l = Some "hidden"%string
        /\ exists m,
             meshes (snd s) !! mesh l = Some m
             /\ x (position m) = 0
             /\ y (position m) == - (v * scrollSpeed l * scrollMultiplier o * (1 # 100))
             /\ z (position m) = - depth l * 2
             /\ x (rotation m) == 0
             /\ y (rotation m) == 0
             /\ z (rotation m) = 0).
Proof.
  cbv zeta. unfold init, createLayers. cbv zeta.
  cbn [container browser set_browser document set_appended domElement].
  match goal with
  | |- context [foldl createLayer (?t, ?w') ?els] =>
      pose proof (createLayers_fold els t w') as HF;
      pose proof (createLayers_keeps els t w') as HK;
      cbv zeta in HF, HK;
      destruct (foldl createLayer (t, w') els) as [this1 w1]
  end.
  cbn [fst snd layers scene container nextMesh browser set_browser document set_appended
       camera renderer options mouse targetMouse scroll targetScroll isActive
       animationFrameId listeners frames nextFrame pageYOffset scrollTop appended app]
    in HF, HK.
  destruct HF as (news & Hlay & Hel & Hmesh & Hscene & Hnext & Hdoc & Hcont & Hvis & Hheap).
  destruct HK as (Hthis & Hbrowser).
  injection Hthis as Hcam Hren Hopt Hmouse Htm Hscroll Hts Hact Hid.
  injection Hbrowser as Hlis Hfr Hnf Hpy Hst Happ.
  destruct (addEventListeners3d_rest (this1, w1)) as (Ha1 & Ha2 & Ha3 & Ha4 & Ha5 & Ha6 & Ha7).
  pose proof (addEventListeners3d_spec (this1, w1)) as Ha8.
  destruct (addEventListeners (this1, w1)) as [this2 w2].
  cbn [fst snd] in Ha1, Ha2, Ha3, Ha4, Ha5, Ha6, Ha7, Ha8. subst this2.
  rewrite (start3d_unfold this1 w2 Hact).
  set (v := scroll_position (browser w2)).
  set (this3 := set_scroll v (set_targetScroll v (set_isActive true this1))).
  assert (Hnd : NoDup (mesh <$> layers this3)).
  { subst this3. cbn [layers set_scroll set_targetScroll set_isActive].
    rewrite Hlay, Hmesh. apply NoDup_seq. }
  destruct (animate3d_tick this3 w2 eq_refl Hnd)
    as (Ts & Tx & Ty & To & Tl & Ta & Tc & Tk & Tr & Tm & _).
  destruct (animate3d_rest this3 w2 eq_refl) as (Rb & Ri & Rc & Rs & Rt & Rf & Rd).
  assert (Hv : v = scroll_position (browser w)).
  { unfold v. rewrite Ha7. unfold scroll_position. rewrite Hpy, Hst. reflexivity. }
  subst this3.
  cbn [layers set_scroll set_targetScroll set_isActive scroll targetScroll options mouse
       targetMouse camera renderer container scene] in Ts, Tx, Ty, To, Tl, Tc, Tr, Tm, Rc, Rs,
       Rt, Rf, Rd.
  rewrite Hopt in *. rewrite Hmouse, Htm in Tx, Ty. cbn [px py] in Tx, Ty.
  rewrite Hcam in Tc, Rf. rewrite Hren in Tr, Rd. cbn [camera_position camera_fov z rendered
    domElement] in Tc, Rf, Tr, Rd.
  split; [| split; [| split; [| split; [| split]]]].
  - rewrite Ta, Rc, Hcont, To, Rt, Ts, Ri, Rb, Ha6, Hnf, <- Hv.
    unfold requestAnimationFrame. cbn [snd frames set_frames]. rewrite Ha5, Hfr.
    repeat split; try reflexivity; [unfold lerp; ring | rewrite Ha6, Hnf; reflexivity].
  - rewrite Tl, Hlay, Rs, Hscene, Hel, Hmesh. repeat split; reflexivity.
  - rewrite Rb, Rd, Tr. unfold requestAnimationFrame. cbn [snd appended set_frames].
    rewrite Ha4, Happ. repeat split; reflexivity.
  - rewrite Rf, Tc, Tx, Ty. cbn [x y z]. unfold lerp. repeat split; try reflexivity; ring.
  - intros l. rewrite Rb. unfold requestAnimationFrame. cbn [snd listeners set_frames].
    rewrite Ha8, Hlis. unfold on_mousemove. rewrite Hcont. reflexivity.
  - intros l Hl. rewrite Tl, Hlay in Hl.
    assert (Hin : element l ∈ querySelectorAll (document (browser w)) el).
    { rewrite <- Hel. apply list_elem_of_fmap. eauto. }
    destruct (Hheap l Hl) as (Hinit & m & Hm & Hpos & Hrot).
    split.
    + rewrite Rb. unfold requestAnimationFrame. cbn [snd style_visibility set_frames].
      rewrite Ha3. exact (Hvis _ Hin).
    + eexists. split.
      * apply (Tm l m); [by rewrite Hlay | by rewrite Ha2].
      * unfold moveMesh. cbn [position rotation set_position set_rotation x y z].
        rewrite Hpos, Hrot, Hinit, To, Ts, Tx, Ty, <- Hv. cbn [x y z]. unfold lerp.
        repeat split; try reflexivity; ring.
Qed.
(** A tick, running or not, keeps the size the view was set for. *)
Lemma animate3d_view (s : State) :
  camera_aspect (camera (fst (animate s))) = camera_aspect (camera (fst s))
  /\ size (renderer (fst (animate s))) = size (renderer (fst s))
  /\ container (fst (animate s)) = container (fst s)
  /\ document (browser (snd (animate s))) = document (browser (snd s)).
Proof.
  destruct s as [this w]. unfold animate.
  destruct (isActive this); cbn [negb]; [| repeat split; reflexivity].
  cbv zeta. unfold requestAnimationFrame.
  cbn [fst snd set_browser browser set_frames document]. rewrite moveMesh_loop_world.
  repeat split; reflexivity.
Qed.

Lemma animate3d_fitted (s : State) : fitted s -> fitted (animate s).
Proof.
  unfold fitted. cbv zeta. destruct (animate3d_view s) as (Ha & Hs & Hc & Hd).
  rewrite Ha, Hs, Hc, Hd. tauto.
Qed.

Lemma iter_animate3d_fitted (s : State) (n : nat) : fitted s -> fitted (Nat.iter n animate s).
Proof.
  intros Hs. induction n as [|n IH]; [exact Hs |]. simpl Nat.iter. by apply animate3d_fitted.
Qed.

Lemma init3d_fitted (el : Element) (o : Options) (w : World) : fitted (init el o w).
Proof.
  unfold init, createLayers. cbv zeta.
  cbn [container browser set_browser document set_appended domElement].
  match goal with
  | |- context [foldl createLayer (?t, ?w') ?els] =>
      pose proof (createLayers_fold els t w') as HF;
      pose proof (createLayers_keeps els t w') as HK;
      cbv zeta in HF, HK;
      destruct (foldl createLayer (t, w') els) as [this1 w1]
  end.
  cbn [fst snd layers scene container nextMesh browser set_browser document set_appended
       camera renderer options mouse targetMouse scroll targetScroll isActive
       animationFrameId listeners frames nextFrame pageYOffset scrollTop appended app]
    in HF, HK.
  destruct HF as (_ & _ & _ & _ & _ & _ & Hdoc & Hcont & _).
  destruct HK as (Hthis & _).
  injection Hthis as Hcam Hren _ _ _ _ _ Hact _.
  unfold addEventListeners. cbv zeta. rewrite (start3d_unfold _ _ Hact).
  apply animate3d_fitted. unfold fitted.
  cbn [fst snd camera renderer container set_scroll set_targetScroll set_isActive browser
       set_browser document addEventListener set_listeners].
  rewrite Hcam, Hren, Hdoc, Hcont. split; reflexivity.
Qed.

Lemma handleResize_fitted (s : State) : fitted s -> handleResize s = s.
Proof.
  destruct s as [this w]. unfold fitted, handleResize. cbn [fst snd]. intros [Ha Hs].
  rewrite <- Ha, <- Hs. destruct this as [c o sc cam ren ls mo tm scr ts act fr].
  destruct cam, ren. reflexivity.
Qed.

(** What [handleResize] writes, on any controller and any page. *)
Lemma handleResize_sets (s : State) :
  let r := handleResize s in
  let width := clientWidth (document (browser (snd s))) (container (fst s)) in
  let height := clientHeight (document (browser (snd s))) (container (fst s)) in
  camera_aspect (camera (fst r)) = div width height
  /\ size (renderer (fst r)) = (width, height)
  /\ snd r = snd s
  /\ fst r = set_renderer (renderer (fst r)) (set_camera (camera (fst r)) (fst s))
  /\ camera_fov (camera (fst r)) = camera_fov (camera (fst s))
  /\ camera_position (camera (fst r)) = camera_position (camera (fst s))
  /\ camera_lookAt (camera (fst r)) = camera_lookAt (camera (fst s))
  /\ domElement (renderer (fst r)) = domElement (renderer (fst s))
  /\ pixelRatio (renderer (fst r)) = pixelRatio (renderer (fst s))
  /\ rendered (renderer (fst r)) = rendered (renderer (fst s))
  /\ renderer_disposed (renderer (fst r)) = renderer_disposed (renderer (fst s)).
Proof. destruct s as [this w]. cbv zeta. repeat split; reflexivity. Qed.

Lemma iter_animate3d_container (s : State) (n : nat) :
  container (fst (Nat.iter n animate s)) = container (fst s).
Proof.
  induction n as [|n IH]; [reflexivity |]. simpl Nat.iter.
  destruct (animate3d_view (Nat.iter n animate s)) as (_ & _ & Hc & _). by rewrite Hc.
Qed.
End Construction3D.

(** X25. When Three.js is loaded, the container resolves and a WebGL context
    is to be had, the 3D constructor returns a running controller that has
    already rendered once: its canvas is the last child appended to the
    container, it holds one layer and one mesh in the scene for each element
    found, in document order, the camera sits at [(0, 0, cameraZ)] with the
    configured field of view, and [scroll], [mousemove] and [resize] are
    listened to.  Each element found is hidden, and its mesh, unrotated,
    stands at [z = -depth * 2] and is already shifted to
    [y = -(scrollPosition * scrollSpeed * scrollMultiplier * 0.01)] for the
    scroll position the page had. *)
Theorem new3d_builds_the_scene
    (c : Dom.ContainerArg) (p : SuperParallax3D.PartialOptions) (w : SuperParallax3D.World)
    (el : Dom.Element) :
  Dom.THREE_defined (Dom.document (SuperParallax3D.browser w)) = true ->
  Dom.resolve (SuperParallax3D.browser w) c = Some el ->
  Dom.webgl_available (Dom.document (SuperParallax3D.browser w)) = true ->
  let o := SuperParallax3D.spread SuperParallax3D.default_options p in
  let v := Dom.scroll_position (SuperParallax3D.browser w) in
  let found := Dom.querySelectorAll (Dom.document (SuperParallax3D.browser w)) el in
  exists s,
    SuperParallax3D.new c p w = inr s
    /\ (SuperParallax3D.isActive (fst s) = true
        /\ SuperParallax3D.container (fst s) = el
        /\ SuperParallax3D.options (fst s) = o
        /\ SuperParallax3D.targetScroll (fst s) = v
        /\ (SuperParallax3D.scroll (fst s) == v)%Q
        /\ SuperParallax3D.animationFrameId (fst s)
           = Some (Dom.nextFrame (SuperParallax3D.browser w))
        /\ Dom.frames (SuperParallax3D.browser (snd s))
           = {[Dom.nextFrame (SuperParallax3D.browser w)]}
             ∪ Dom.frames (SuperParallax3D.browser w))
    /\ (SuperParallax3D.element <$> SuperParallax3D.layers (fst s) = found
        /\ SuperParallax3D.mesh <$> SuperParallax3D.layers (fst s)
           = seq (SuperParallax3D.nextMesh w) (length found)
        /\ SuperParallax3D.scene (fst s)
           = (SuperParallax3D.mesh <$> SuperParallax3D.layers (fst s)))
    /\ (Dom.appended (SuperParallax3D.browser (snd s))
        = Dom.appended (SuperParallax3D.browser w) ++ [(el, SuperParallax3D.canvas w)]
        /\ SuperParallax3D.domElement (SuperParallax3D.renderer (fst s)) = SuperParallax3D.canvas w
        /\ SuperParallax3D.rendered (SuperParallax3D.renderer (fst s)) = 1%nat)
    /\ (SuperParallax3D.camera_fov (SuperParallax3D.camera (fst s)) = SuperParallax3D.fov o
        /\ (SuperParallax3D.x (SuperParallax3D.camera_position (SuperParallax3D.camera (fst s)))
            == 0)%Q
        /\ (SuperParallax3D.y (SuperParallax3D.camera_position (SuperParallax3D.camera (fst s)))
            == 0)%Q
        /\ SuperParallax3D.z (SuperParallax3D.camera_position (SuperParallax3D.camera (fst s)))
           = SuperParallax3D.cameraZ o)
    /\ (forall l, l ∈ Dom.listeners (SuperParallax3D.browser (snd s)) <->
          l ∈ Dom.listeners (SuperParallax3D.browser w) \/ l = SuperParallax3D.on_scroll
          \/ l = {| Dom.target := Dom.Node el; Dom.type := "mousemove";
                    Dom.callback := "handleMouseMove" |}
          \/ l = SuperParallax3D.on_resize)
    /\ (forall l, l ∈ SuperParallax3D.layers (fst s) ->
          Dom.style_visibility (SuperParallax3D.browser (snd s)) !! SuperParallax3D.element l
          = Some "hidden"%string
          /\ exists m,
               SuperParallax3D.meshes (snd s) !! SuperParallax3D.mesh l = Some m
               /\ SuperParallax3D.x (SuperParallax3D.position m) = 0%Q
               /\ (SuperParallax3D.y (SuperParallax3D.position m)
                   == - (v * SuperParallax3D.scrollSpeed l * SuperParallax3D.scrollMultiplier o
                         * (1 # 100)))%Q
               /\ SuperParallax3D.z (SuperParallax3D.position m)
                  = (- SuperParallax3D.depth l * 2)%Q
               /\ (SuperParallax3D.x (SuperParallax3D.rotation m) == 0)%Q
               /\ (SuperParallax3D.y (SuperParallax3D.rotation m) == 0)%Q
               /\ SuperParallax3D.z (SuperParallax3D.rotation m) = 0%Q).
Proof.
  intros Hthree Hres Hgl. cbv zeta.
  exists (SuperParallax3D.init el (SuperParallax3D.spread SuperParallax3D.default_options p) w).
  split; [unfold SuperParallax3D.new; rewrite Hthree, Hres, Hgl; reflexivity |].
  apply init3d_spec.
Qed.

Lemma new3d_builds_the_scene_witness :
  exists s,
    SuperParallax3D.new (Dom.Selector ".parallax-container") SuperParallax3D.no_options
      Example.world100 = inr s
    /\ SuperParallax3D.isActive (fst s) = true
    /\ SuperParallax3D.rendered (SuperParallax3D.renderer (fst s)) = 1%nat
    /\ SuperParallax3D.element <$> SuperParallax3D.layers (fst s) = [1%nat; 2%nat].
Proof.
  destruct (new3d_builds_the_scene (Dom.Selector ".parallax-container")
              SuperParallax3D.no_options Example.world100 0%nat eq_refl eq_refl eq_refl)
    as (s & Hnew & (Hact & _) & (Hel & _) & (_ & _ & Hren) & _).
  exists s. split; [exact Hnew |]. split; [exact Hact |]. split; [exact Hren | exact Hel].
Defined.

(** X26. [handleResize] sets the aspect of the camera and the size of the
    renderer from the size the container has on the page at that moment, and
    writes nothing else: on a controller that was built and has ticked any
    number of times, whatever the page has become, the aspect is
    [clientWidth / clientHeight] of the container, the renderer has that
    width and height, and the rest of the camera, of the renderer, of the
    controller and of the page is as it was.  This is what [init] did, so a
    resize event that finds the container at the size it had at construction
    changes nothing. *)
Theorem resize_at_the_same_size_is_noop
    (c : Dom.ContainerArg) (p : SuperParallax3D.PartialOptions) (w w' : SuperParallax3D.World)
    (el : Dom.Element) (n : nat) :
  Dom.THREE_defined (Dom.document (SuperParallax3D.browser w)) = true ->
  Dom.resolve (SuperParallax3D.browser w) c = Some el ->
  Dom.webgl_available (Dom.document (SuperParallax3D.browser w)) = true ->
  exists s,
    SuperParallax3D.new c p w = inr s
    /\ fitted s
    /\ SuperParallax3D.handleResize (Nat.iter n SuperParallax3D.animate s)
       = Nat.iter n SuperParallax3D.animate s
    /\ let later := (fst (Nat.iter n SuperParallax3D.animate s), w') in
       let r := SuperParallax3D.handleResize later in
       let width := Dom.clientWidth (Dom.document (SuperParallax3D.browser w')) el in
       let height := Dom.clientHeight (Dom.document (SuperParallax3D.browser w')) el in
       SuperParallax3D.camera_aspect (SuperParallax3D.camera (fst r)) = Js.div width height
       /\ SuperParallax3D.size (SuperParallax3D.renderer (fst r)) = (width, height)
       /\ snd r = w'
       /\ fst r
          = SuperParallax3D.set_renderer (SuperParallax3D.renderer (fst r))
              (SuperParallax3D.set_camera (SuperParallax3D.camera (fst r)) (fst later))
       /\ SuperParallax3D.camera_fov (SuperParallax3D.camera (fst r))
          = SuperParallax3D.camera_fov (SuperParallax3D.camera (fst later))
       /\ SuperParallax3D.camera_position (SuperParallax3D.camera (fst r))
          = SuperParallax3D.camera_position (SuperParallax3D.camera (fst later))
       /\ SuperParallax3D.camera_lookAt (SuperParallax3D.camera (fst r))
          = SuperParallax3D.camera_lookAt (SuperParallax3D.camera (fst later))
       /\ SuperParallax3D.domElement (SuperParallax3D.renderer (fst r))
          = SuperParallax3D.domElement (SuperParallax3D.renderer (fst later))
       /\ SuperParallax3D.pixelRatio (SuperParallax3D.renderer (fst r))
          = SuperParallax3D.pixelRatio (SuperParallax3D.renderer (fst later))
       /\ SuperParallax3D.rendered (SuperParallax3D.renderer (fst r))
          = SuperParallax3D.rendered (SuperParallax3D.renderer (fst later))
       /\ SuperParallax3D.renderer_disposed (SuperParallax3D.renderer (fst r))
          = SuperParallax3D.renderer_disposed (SuperParallax3D.renderer (fst later)).
Proof.
  intros Hthree Hres Hgl.
  exists (SuperParallax3D.init el (SuperParallax3D.spread SuperParallax3D.default_options p) w).
  split; [unfold SuperParallax3D.new; rewrite Hthree, Hres, Hgl; reflexivity |].
  split; [apply init3d_fitted |].
  split; [apply handleResize_fitted, iter_animate3d_fitted, init3d_fitted |].
  cbv zeta.
  set (s := SuperParallax3D.init el
              (SuperParallax3D.spread SuperParallax3D.default_options p) w).
  assert (Hc : SuperParallax3D.container (fst (Nat.iter n SuperParallax3D.animate s)) = el).
  { rewrite iter_animate3d_container. unfold s.
    by destruct (init3d_spec el
                   (SuperParallax3D.spread SuperParallax3D.default_options p) w)
      as ((_ & Hcont & _) & _). }
  pose proof (handleResize_sets (fst (Nat.iter n SuperParallax3D.animate s), w')) as H.
  cbv zeta in H. cbn [fst snd] in H. rewrite Hc in H. exact H.
Qed.

Lemma resize_at_the_same_size_is_noop_witness :
  exists s,
    SuperParallax3D.new (Dom.Selector ".parallax-container") SuperParallax3D.no_options
      Example.world0 = inr s
    /\ SuperParallax3D.handleResize (Nat.iter 2 SuperParallax3D.animate s)
       = Nat.iter 2 SuperParallax3D.animate s
    /\ SuperParallax3D.camera_aspect
         (SuperParallax3D.camera
            (fst (SuperParallax3D.handleResize
                    (fst (Nat.iter 2 SuperParallax3D.animate s), Example.narrowed))))
       = Js.div 400 600.
Proof.
  destruct (resize_at_the_same_size_is_noop (Dom.Selector ".parallax-container")
              SuperParallax3D.no_options Example.world0 Example.narrowed 0%nat 2
              eq_refl eq_refl eq_refl)
    as (s & Hnew & _ & Hsame & Haspect & _).
  exists s. split; [exact Hnew |]. split; [exact Hsame | exact Haspect].
Defined.

Section Bounds2D.
Import Js Dom SuperParallax.

Lemma animate_bounds (s : State) : bounds (fst (animate s)) = bounds (fst s).
Proof.
  destruct s as [this b]. unfold animate. destruct (isActive this); reflexivity.
Qed.

Lemma iter_animate_bounds (s : State) (n : nat) :
  bounds (fst (Nat.iter n animate s)) = bounds (fst s).
Proof.
  induction n as [|n IH]; [reflexivity |]. simpl Nat.iter. by rewrite animate_bounds.
Qed.
End Bounds2D.

(** X27. The rectangle of the container is measured once and kept: after a
    first [handleMouseMove] the pointer is measured against the rectangle
    that event found, whatever the page has become since and however many
    ticks have run; only [updateBounds], the listener of [resize], replaces
    it by the rectangle the container has then. *)
Theorem pointer_bounds_are_cached
    (e : SuperParallax.MouseEvent) (s s1 : SuperParallax.State) (b' : Dom.Browser) (n : nat) :
  SuperParallax.handleMouseMove e s = Some s1 ->
  let later := Nat.iter n SuperParallax.animate (fst s1, b') in
  effective_bounds later = effective_bounds s
  /\ effective_bounds (SuperParallax.updateBounds later)
     = Dom.getBoundingClientRect (Dom.document (snd later)) (SuperParallax.container (fst s)).
Proof.
  intros Hmove. cbv zeta.
  destruct (handleMouseMove_writes e s s1 Hmove) as (_ & (Hc & _) & _ & Hb).
  split.
  - unfold effective_bounds at 1. rewrite iter_animate_bounds. cbn [fst]. rewrite Hb. reflexivity.
  - assert (Hcont : SuperParallax.container (fst (Nat.iter n SuperParallax.animate (fst s1, b')))
                    = SuperParallax.container (fst s)).
    { rewrite <- Hc. clear. induction n as [|n IH]; [reflexivity |]. simpl Nat.iter.
      rewrite <- IH. destruct (Nat.iter n SuperParallax.animate (fst s1, b')) as [this b].
      unfold SuperParallax.animate. destruct (SuperParallax.isActive this); reflexivity. }
    destruct (Nat.iter n SuperParallax.animate (fst s1, b')) as [this b].
    cbn [fst snd] in *. unfold effective_bounds, SuperParallax.updateBounds. cbn [fst snd].
    rewrite Hcont. reflexivity.
Qed.

Lemma pointer_bounds_are_cached_witness :
  exists s1,
    SuperParallax.handleMouseMove
      {| SuperParallax.clientX := 400; SuperParallax.clientY := 150 |} Example.running2d = Some s1
    /\ effective_bounds (Nat.iter 2 SuperParallax.animate (fst s1, snd Example.at100))
       = effective_bounds Example.running2d.
Proof.
  destruct (SuperParallax.handleMouseMove
              {| SuperParallax.clientX := 400; SuperParallax.clientY := 150 |} Example.running2d)
    as [s1|] eqn:Hmove; [| vm_compute in Hmove; discriminate Hmove].
  exists s1. split; [reflexivity |].
  exact (proj1 (pointer_bounds_are_cached _ _ s1 (snd Example.at100) 2 Hmove)).
Defined.
